(** * droideer: the UI-hierarchy parser, the selector engine, the snapshot
      cache and the wait loop, embedded from the JavaScript sources

    Sources embedded here:
    - [src/utils/xml-parser.js]: [cleanXMLString], [processNode],
      [generateSelector], [parseUIHierarchy];
    - [src/Selector.js] (class [Selector]): [_searchElements],
      [_matchesSelector], [_matchStringSelector], [_matchObjectSelector],
      [_matchesXPathElement], [_evaluatePredicate], [findElements],
      [findElement];
    - [src/Element.js] (class [AndroidElement]): the constructor,
      [_parseBounds], [_generateSelector], [isVisible], [matches];
    - [src/Device.js] (class [AndroidDevice]): [getUIHierarchy], [wait];
    - [src/Page.js] (class [Page]): [waitForSelector].

    Conventions.  A JavaScript string is a [string]; a character stands for
    one code unit.  A JavaScript number is a [Z]: every number the embedded
    code computes on is an integer, and the embedding is exact for integers
    of magnitude at most [2^53].  A thrown exception is the [Throw] branch
    of [Res].  The host's own functions that the repository only calls
    (xml2js, [String.prototype.toLowerCase], [new RegExp], [JSON.stringify])
    are fields of a [Host] record and every definition that calls one takes
    the record as an argument. *)

From Stdlib Require Import ZArith Ascii String List Lia DecimalString DecimalN.
From stdpp Require Import base option gmap strings list.

Local Open Scope Z_scope.
#[local] Set Warnings "-register-all".

(** ** JavaScript values and strings *)

Module JS.

Definition chars (s : string) : list ascii := String.list_ascii_of_string s.
Definition str (l : list ascii) : string := String.string_of_list_ascii l.

(** The double quote, written by its code so that no literal has to
    escape it. *)
Definition dquote : ascii := ascii_of_nat 34.
Definition squote : ascii := ascii_of_nat 39.

(** [s.startsWith(p)], [s.endsWith(x)] *)
Definition startsWith (s p : string) : bool :=
  bool_decide (chars p `prefix_of` chars s).
Definition endsWith (s x : string) : bool :=
  bool_decide (chars x `suffix_of` chars s).

(** [s.includes(x)]: [x] occurs in [s] as a contiguous run. *)
Fixpoint includes_at (l x : list ascii) : bool :=
  bool_decide (x `prefix_of` l) ||
  match l with
  | [] => false
  | _ :: l' => includes_at l' x
  end.
Definition includes (s x : string) : bool := includes_at (chars s) (chars x).

(** [s.substring(n)] and [s.substring(0, n)] *)
Definition substring_from (n : nat) (s : string) : string := str (drop n (chars s)).
Definition substring_to (n : nat) (s : string) : string := str (take n (chars s)).

(** White space of [String.prototype.trim], among the code units below
    256: TAB, LF, VT, FF, CR, SP and NBSP. *)
Definition is_white (c : ascii) : bool :=
  let n := nat_of_ascii c in
  ((9 <=? n)%nat && (n <=? 13)%nat) || (n =? 32)%nat || (n =? 160)%nat.

Fixpoint trim_start (l : list ascii) : list ascii :=
  match l with
  | c :: l' => if is_white c then trim_start l' else l
  | [] => []
  end.
Definition trim_chars (l : list ascii) : list ascii :=
  rev (trim_start (rev (trim_start l))).
Definition trim (s : string) : string := str (trim_chars (chars s)).

Definition is_digit (c : ascii) : bool :=
  let n := nat_of_ascii c in (48 <=? n)%nat && (n <=? 57)%nat.
Definition is_alnum (c : ascii) : bool :=
  let n := nat_of_ascii c in
  is_digit c || ((65 <=? n)%nat && (n <=? 90)%nat) || ((97 <=? n)%nat && (n <=? 122)%nat).

(** [String(n)] and [parseInt(s)] / [Number(s)] on integers, through the
    standard decimal writer and reader. *)
Definition string_of_N (n : N) : string := NilEmpty.string_of_uint (N.to_uint n).
Definition string_of_Z (z : Z) : string :=
  match z with
  | Z0 => "0"
  | Zpos p => string_of_N (Npos p)
  | Zneg p => "-" +:+ string_of_N (Npos p)
  end.
(** The integer a string of digits writes; [0] on anything else. *)
Definition decimal (s : string) : Z :=
  match NilEmpty.uint_of_string s with
  | Some d => Z.of_N (N.of_uint d)
  | None => 0
  end.

(** A Number is a double.  The numbers of the embedded code are whole,
    so a Number is held as the integer it is, and the result of an
    operation is rounded as the double is: to 53 significant bits, to the
    nearest, a tie to the even significand.  Up to [2 ^ 53] in size every
    integer is a double and nothing is rounded.  [Infinity], which takes
    the place of results from [2 ^ 1024] on, is not held. *)
Definition to_double (z : Z) : Z :=
  let a := Z.abs z in
  let e := Z.log2 a - 52 in
  if e <=? 0 then z
  else
    let u := 2 ^ e in
    let q := a / u in
    let r := a mod u in
    let q' := if 2 * r <? u then q
              else if u <? 2 * r then q + 1
              else if Z.even q then q else q + 1 in
    Z.sgn z * (q' * u).

(** [parseInt(s)] and [Number(s)].  Meant for strings of digits (the
    callers check [/^\d+$/] or capture [\d+] first); [0] stands for [NaN]
    on anything else. *)
Definition parseInt (s : string) : Z := to_double (decimal s).

(** The values that travel through the embedded code.  A regular
    expression is known by its [test] method and by what [String()] makes
    of it, which shows its flags; [test] is a function of the string, as
    it is for an expression without the [g] and the [y] flag.  An
    expression with one of these flags keeps a position from one test to
    the next: the module [Sticky] below has them.  Arrays, plain objects
    and functions are known by what [String()] makes of them.  Two object
    values are never the same reference: the selector's values are built
    by the caller, the node's by the parser. *)
Inductive val : Type :=
| Undefined
| Null
| Bool (b : bool)
| Num (z : Z)
| Str (s : string)
| RegExp (repr : string) (test : string -> bool)
| Array (repr : string)
| Object (repr : string)
| Function (repr : string).

(** [!!v] *)
Definition truthy (v : val) : bool :=
  match v with
  | Undefined | Null => false
  | Bool b => b
  | Num z => negb (z =? 0)
  | Str s => negb (String.eqb s "")
  | _ => true
  end.

(** [Boolean(v)] *)
Definition Boolean (v : val) : bool := truthy v.

(** [a || b] *)
Definition or_else (a b : val) : val := if truthy a then a else b.

(** [String(v)]; a number is written in decimal as the integer it is,
    which is what [String] writes up to [2 ^ 53]. *)
Definition ToString (v : val) : string :=
  match v with
  | Undefined => "undefined"
  | Null => "null"
  | Bool true => "true"
  | Bool false => "false"
  | Num z => string_of_Z z
  | Str s => s
  | RegExp r _ | Array r | Object r | Function r => r
  end.

(** [a === b] *)
Definition strict_eq (a b : val) : bool :=
  match a, b with
  | Undefined, Undefined | Null, Null => true
  | Bool x, Bool y => Bool.eqb x y
  | Num x, Num y => x =? y
  | Str x, Str y => String.eqb x y
  | _, _ => false
  end.

(** What is thrown. *)
Inductive exn : Type :=
| Error (message : string)
| TypeError (message : string)
| SyntaxError (message : string).

Definition message (e : exn) : string :=
  match e with Error m | TypeError m | SyntaxError m => m end.

(** A computation that returns or throws. *)
Inductive Res (A : Type) : Type :=
| Ok (a : A)
| Throw (e : exn).
Global Arguments Ok {A} a.
Global Arguments Throw {A} e.

Global Instance Res_ret : MRet Res := fun A a => Ok a.
Global Instance Res_bind : MBind Res := fun A B f m =>
  match m with Ok a => f a | Throw e => Throw e end.

Global Instance Res_fmap : FMap Res := fun A B f m =>
  match m with Ok a => Ok (f a) | Throw e => Throw e end.

(** [v.toLowerCase()], [v.includes(x)], [v?.endsWith(x)] for a value that
    may not be a string. *)
Definition not_a_function {A} (name : string) : Res A :=
  Throw (TypeError (name +:+ " is not a function")).

Definition includes_val (v : val) (x : string) : Res bool :=
  match v with
  | Str s => Ok (includes s x)
  | Array _ => Ok false
  | Undefined | Null => Throw (TypeError "Cannot read properties of undefined")
  | _ => not_a_function "includes"
  end.

(** [v?.endsWith(x)], then its truth value: [undefined] when [v] is
    [undefined] or [null]. *)
Definition opt_endsWith (v : val) (x : string) : Res bool :=
  match v with
  | Str s => Ok (endsWith s x)
  | Undefined | Null => Ok false
  | _ => not_a_function "endsWith"
  end.

(** Names every object inherits from [Object.prototype]. *)
Definition Object_prototype : list string :=
  [ "constructor"; "__defineGetter__"; "__defineSetter__"; "hasOwnProperty";
    "__lookupGetter__"; "__lookupSetter__"; "isPrototypeOf";
    "propertyIsEnumerable"; "toString"; "valueOf"; "__proto__";
    "toLocaleString" ].

Definition inherited (k : string) : val :=
  if bool_decide (k ∈ Object_prototype)
  then (if String.eqb k "__proto__" then Object "[object Object]"
        else Function "function () { [native code] }")
  else Undefined.

End JS.

(** ** The regular expressions of the sources

    Every pattern the embedded code uses is a sequence of literal
    characters, character classes, optional classes ([c?]) and captured
    greedy repetitions ([(c+)]), so that is the pattern language: matched by
    backtracking, leftmost start first, longest repetition first, as the
    host does. *)

Module Regex.

Inductive item : Type :=
| Lit (c : ascii)
| One (p : ascii -> bool)
| Opt (p : ascii -> bool)
| Cap (p : ascii -> bool).

Definition first_of {A} (a b : option A) : option A :=
  match a with Some _ => a | None => b end.

(** A captured [(c+)] in front of the rest [k] of the pattern: take one
    more character if possible, and only if the rest then fails close the
    group here. [acc] is the group so far, reversed. *)
Fixpoint grow (p : ascii -> bool) (k : list ascii -> option (list string))
    (acc s : list ascii) : option (list string) :=
  match s with
  | c :: s' =>
      if p c then
        first_of (grow p k (c :: acc) s')
                 (cons (JS.str (rev (c :: acc))) <$> k s')
      else None
  | [] => None
  end.

(** Match the pattern at the head of [s]; the captured groups in order. *)
Fixpoint match_here (re : list item) (s : list ascii) : option (list string) :=
  match re with
  | [] => Some []
  | Lit c :: re' =>
      match s with
      | x :: s' => if Ascii.eqb x c then match_here re' s' else None
      | [] => None
      end
  | One p :: re' =>
      match s with
      | x :: s' => if p x then match_here re' s' else None
      | [] => None
      end
  | Opt p :: re' =>
      match s with
      | x :: s' =>
          if p x then first_of (match_here re' s') (match_here re' s)
          else match_here re' s
      | [] => match_here re' s
      end
  | Cap p :: re' => grow p (match_here re') [] s
  end.

(** [s.match(re)] without the [g] flag: the groups of the leftmost match. *)
Fixpoint search (re : list item) (s : list ascii) : option (list string) :=
  first_of (match_here re s)
           match s with
           | [] => None
           | _ :: s' => search re s'
           end.

Definition exec (re : list item) (s : string) : option (list string) :=
  search re (JS.chars s).

Definition lits (s : string) : list item := Lit <$> JS.chars s.

Definition isnt (l : list ascii) : ascii -> bool :=
  fun c => negb (existsb (Ascii.eqb c) l).
Definition quote : ascii -> bool :=
  fun c => Ascii.eqb c JS.dquote || Ascii.eqb c JS.squote.
Definition no_quote : ascii -> bool := fun c => negb (quote c).

(** [/^\d+$/.test(s)] *)
Definition all_digits (s : string) : bool :=
  match JS.chars s with
  | [] => false
  | l => forallb JS.is_digit l
  end.

End Regex.

(** ** The data: XML elements as xml2js delivers them, parsed nodes,
       selectors, and the host *)

Module Model.

(** An element of the dump as xml2js hands it to [processNode]: [x.$] is
    its attribute object (absent on an element without attributes) and
    [x.node] the array of its child elements named [node], in document
    order ([[]] when the key is absent).  Children of any other name are
    never read by the sources. *)
Inductive xelem : Type :=
  XElem { x_attrs : option (gmap string string); x_node : list xelem }.

(** The [result] of [parser.parseString]: [result.hierarchy] is there when
    the document element is named [hierarchy] (and is an object), and
    [result.hierarchy.node] lists its children named [node]. *)
Record xhierarchy := { h_node : list xelem }.
Record xdoc := { hierarchy : option xhierarchy }.

(** What the callback of [parser.parseString] receives: an error, or a
    result that may be [null]. *)
Inductive xml2js_outcome : Type :=
| XErr (message : string)
| XResult (result : option xdoc).

Record rect := {
  x1 : Z; y1 : Z; x2 : Z; y2 : Z;
  centerX : Z; centerY : Z; width : Z; height : Z
}.

(** A parsed node: its own string and number properties by name; the
    copy of the source attributes ([attributes]), the [boundsRect] and the
    [children] array, each kept in its own shape. *)
Inductive node : Type :=
  Node { own : gmap string JS.val;
         attributes : option (gmap string string);
         boundsRect : option rect;
         children : list node }.

(** [String(array)] for an array of plain objects. *)
Definition array_repr {A} (l : list A) : string :=
  String.concat "," ((fun _ => "[object Object]") <$> l).

(** [n[k]] *)
Definition get (n : node) (k : string) : JS.val :=
  match own n !! k with
  | Some v => v
  | None =>
      if String.eqb k "children" then JS.Array (array_repr (children n))
      else if String.eqb k "attributes" && bool_decide (is_Some (attributes n))
      then JS.Object "[object Object]"
      else if String.eqb k "boundsRect" && bool_decide (is_Some (boundsRect n))
      then JS.Object "[object Object]"
      else JS.inherited k
  end.

(** [attributes[k]] for the plain object of source attributes. *)
Definition attr_get (a : gmap string string) (k : string) : JS.val :=
  match a !! k with
  | Some v => JS.Str v
  | None => JS.inherited k
  end.

(** A selector as the callers pass it: a string, an object (its own
    enumerable entries in insertion order, what [Object.entries] lists),
    [null], or a value of any other type. *)
Inductive selector : Type :=
| SelString (s : string)
| SelObject (entries : list (string * JS.val))
| SelNull
| SelOther.

(** The functions of the host and of xml2js that the sources call. *)
Record Host := {
  (** [new xml2js.Parser({...}).parseString(text, callback)]: the parser
      calls back once, with an error or with a result *)
  xml2js_parseString : string -> xml2js_outcome;
  (** [String.prototype.toLowerCase] *)
  toLowerCase : string -> string;
  (** [new RegExp(value, 'i')], by the [test] of the outcome *)
  RegExp_i : JS.val -> JS.Res (string -> bool);
  (** [JSON.stringify(selector)] *)
  JSON_stringify : selector -> string
}.

End Model.

(** ** src/utils/xml-parser.js *)

Module XmlParser.
Import JS Model.

Definition xml_decl : string :=
  "<?xml version=" +:+ str [dquote] +:+ "1.0" +:+ str [dquote] +:+
  " encoding=" +:+ str [dquote] +:+ "UTF-8" +:+ str [dquote] +:+ "?>".

(** [/<\?xml|<hierarchy/]: the tail of [l] from its first match on. *)
Fixpoint from_xml_start (l : list ascii) : option (list ascii) :=
  if bool_decide (chars "<?xml" `prefix_of` l) || bool_decide (chars "<hierarchy" `prefix_of` l)
  then Some l
  else match l with
       | [] => None
       | _ :: l' => from_xml_start l'
       end.

(** [/[\x00-\x08\x0B\x0C\x0E-\x1F\x7F]/] (which covers [/\0/]) *)
Definition is_control (c : ascii) : bool :=
  let n := nat_of_ascii c in
  (n <=? 8)%nat || (n =? 11)%nat || (n =? 12)%nat ||
  ((14 <=? n)%nat && (n <=? 31)%nat) || (n =? 127)%nat.

Definition entity_char (c : ascii) : bool :=
  is_alnum c || Ascii.eqb c "#"%char.

(** The lookahead [[a-zA-Z0-9#]{1,8};] *)
Definition entity_ahead (l : list ascii) : bool :=
  existsb (fun k => (k <=? length l)%nat && forallb entity_char (take k l) &&
                    bool_decide (l !! k = Some ";"%char))
          (seq 1 8).

(** [.replace(/&(?![a-zA-Z0-9#]{1,8};)/g, '&amp;')] *)
Fixpoint escape_amp (l : list ascii) : list ascii :=
  match l with
  | [] => []
  | c :: l' =>
      if Ascii.eqb c "&"%char && negb (entity_ahead l')
      then chars "&amp;" ++ escape_amp l'
      else c :: escape_amp l'
  end.

(** [.replace(/^<hierarchy/, ...)]: the XML declaration is put in front
    of a text that starts with the root tag. *)
Definition add_decl (l : list ascii) : list ascii :=
  if bool_decide (chars "<hierarchy" `prefix_of` l) then chars xml_decl ++ l else l.

Definition cleanXMLString (xmlString : val) : Res string :=
  match xmlString with
  | Str s =>
      if negb (truthy xmlString) then Throw (Error "Invalid XML string provided")
      else
        let cleaned := trim_chars (chars s) in
        let cleaned := default cleaned (from_xml_start cleaned) in
        let cleaned := filter (fun c => negb (Ascii.eqb c zero)) cleaned in
        let cleaned := filter (fun c => negb (is_control c)) cleaned in
        let cleaned := escape_amp cleaned in
        Ok (str (add_decl cleaned))
  | _ => Throw (Error "Invalid XML string provided")
  end.

(** [attributes[k] || d] *)
Definition attr_or (attributes : gmap string string) (k d : string) : string :=
  match attributes !! k with
  | Some v => if String.eqb v "" then d else v
  | None => d
  end.

(** [/\[(\d+),(\d+)\]\[(\d+),(\d+)\]/] *)
Definition bounds_re : list Regex.item :=
  [ Regex.Lit "["; Regex.Cap is_digit; Regex.Lit ","; Regex.Cap is_digit; Regex.Lit "]";
    Regex.Lit "["; Regex.Cap is_digit; Regex.Lit ","; Regex.Cap is_digit; Regex.Lit "]" ]%char.

Definition parse_bounds (bounds : string) : option rect :=
  match Regex.exec bounds_re bounds with
  | Some [sx1; sy1; sx2; sy2] =>
      let x1 := parseInt sx1 in let y1 := parseInt sy1 in
      let x2 := parseInt sx2 in let y2 := parseInt sy2 in
      Some {| x1 := x1; y1 := y1; x2 := x2; y2 := y2;
              centerX := to_double (x1 + x2) `div` 2;
              centerY := to_double (y1 + y2) `div` 2;
              width := to_double (x2 - x1); height := to_double (y2 - y1) |}
  | _ => None
  end.

(** [s.replace(/Q/g, '\\Q')] for the double quote Q *)
Definition escape_quotes (s : string) : string :=
  str (flat_map (fun c => if Ascii.eqb c dquote then ["\"%char; dquote] else [c]) (chars s)).

(** A string property of the object under construction. *)
Definition sfield (o : gmap string val) (k : string) : string :=
  match o !! k with Some v => ToString v | None => "" end.

Definition bracket (name value : string) : string :=
  "[@" +:+ name +:+ "=" +:+ str [dquote] +:+ value +:+ str [dquote] +:+ "]".

Definition generateSelector (node : gmap string val) : string :=
  let selector := sfield node "class" in
  let selector :=
    if negb (String.eqb (sfield node "resource-id") "")
    then selector +:+ bracket "resource-id" (sfield node "resource-id")
    else if negb (String.eqb (sfield node "text") "")
    then selector +:+ bracket "text" (escape_quotes (sfield node "text"))
    else if negb (String.eqb (sfield node "content-desc") "")
    then selector +:+ bracket "content-desc" (escape_quotes (sfield node "content-desc"))
    else selector in
  if negb (String.eqb (sfield node "index") "") && negb (String.eqb (sfield node "index") "0")
  then selector +:+ "[" +:+ sfield node "index" +:+ "]"
  else selector.

(** The object literal of [processNode], before [boundsRect], [selector]
    and the children are added. *)
Definition processed_fields (attributes : gmap string string) (id : Z)
    : list (string * val) :=
  [ ("id", Num id);
    ("tag", Str "node");
    ("class", Str (attr_or attributes "class" "android.view.View"));
    ("resource-id", Str (attr_or attributes "resource-id" ""));
    ("text", Str (attr_or attributes "text" ""));
    ("content-desc", Str (attr_or attributes "content-desc" ""));
    ("bounds", Str (attr_or attributes "bounds" "[0,0][0,0]"));
    ("index", Str (attr_or attributes "index" "0"));
    ("package", Str (attr_or attributes "package" ""));
    ("clickable", Str (attr_or attributes "clickable" "false"));
    ("long-clickable", Str (attr_or attributes "long-clickable" "false"));
    ("enabled", Str (attr_or attributes "enabled" "true"));
    ("selected", Str (attr_or attributes "selected" "false"));
    ("focused", Str (attr_or attributes "focused" "false"));
    ("focusable", Str (attr_or attributes "focusable" "false"));
    ("scrollable", Str (attr_or attributes "scrollable" "false"));
    ("checkable", Str (attr_or attributes "checkable" "false"));
    ("checked", Str (attr_or attributes "checked" "false"));
    ("password", Str (attr_or attributes "password" "false"));
    ("visible-to-user", Str (attr_or attributes "visible-to-user" "true")) ].

Fixpoint processNode (node : xelem) (id : Z) : Model.node :=
  let attributes := default ∅ (x_attrs node) in
  let processedNode : gmap string val := list_to_map (processed_fields attributes id) in
  let boundsRect :=
    if String.eqb (sfield processedNode "bounds") "" then None
    else parse_bounds (sfield processedNode "bounds") in
  let processedNode := <["selector" := Str (generateSelector processedNode)]> processedNode in
  let children :=
    (fix each (l : list xelem) (childId : Z) : list Model.node :=
       match l with
       | [] => []
       | child :: l' => processNode child childId :: each l' (childId + 1)
       end) (x_node node) (id * 1000 + 1) in
  Node processedNode (Some attributes) boundsRect children.

(** The object returned when parsing fails. *)
Definition fallback : Model.node :=
  Node (list_to_map
          [ ("id", Num 0);
            ("tag", Str "hierarchy");
            ("class", Str "android.widget.FrameLayout");
            ("resource-id", Str "");
            ("text", Str "UI Parsing Failed - Please refresh");
            ("content-desc", Str "UI hierarchy could not be parsed");
            ("bounds", Str "[0,0][1080,1920]");
            ("clickable", Str "false");
            ("enabled", Str "true") ])
       None None [].

(** [xmlString.substring(0, 200)] in the [catch] block, on whatever the
    caller passed. *)
Definition preview (xmlString : val) : Res string :=
  match xmlString with
  | Str s => Ok (substring_to 200 s +:+ "...")
  | Undefined => Throw (TypeError "Cannot read properties of undefined (reading 'substring')")
  | Null => Throw (TypeError "Cannot read properties of null (reading 'substring')")
  | _ => not_a_function "xmlString.substring"
  end.

Section WithHost.
Context (host : Host).

(** The [try] block. *)
Definition parse_attempt (xmlString : val) : Res Model.node :=
  cleanedXml ← cleanXMLString xmlString;
  match xml2js_parseString host cleanedXml with
  | XErr m => Throw (Error ("XML parsing failed: " +:+ m))
  | XResult result =>
      match result ≫= hierarchy with
      | Some h =>
          match h_node h with
          | rootNode :: _ => Ok (processNode rootNode 0)
          | [] => Throw (Error "Invalid XML structure: missing hierarchy or node")
          end
      | None => Throw (Error "Invalid XML structure: missing hierarchy or node")
      end
  end.

Definition parseUIHierarchy (xmlString : val) : Res Model.node :=
  match parse_attempt xmlString with
  | Ok n => Ok n
  | Throw error =>
      (* console.error(..., error.message); console.error('XML preview:', ...) *)
      _ ← preview xmlString;
      Ok fallback
  end.
End WithHost.

End XmlParser.

(** ** src/Selector.js: matching and searching *)

Module Selector.
Import JS Model.

(** [/\[([^=]+)=Q?([^Q\]]+)Q?\]/], where Q is the class of the two quote
    characters *)
Definition attr_re : list Regex.item :=
  [ Regex.Lit "["%char; Regex.Cap (Regex.isnt ["="%char]); Regex.Lit "="%char;
    Regex.Opt Regex.quote; Regex.Cap (Regex.isnt [dquote; squote; "]"%char]);
    Regex.Opt Regex.quote; Regex.Lit "]"%char ].

(** [/\[([^*]+)\*=Q?([^Q\]]+)Q?\]/] *)
Definition contains_re : list Regex.item :=
  [ Regex.Lit "["%char; Regex.Cap (Regex.isnt ["*"%char]); Regex.Lit "*"%char;
    Regex.Lit "="%char;
    Regex.Opt Regex.quote; Regex.Cap (Regex.isnt [dquote; squote; "]"%char]);
    Regex.Opt Regex.quote; Regex.Lit "]"%char ].

(** [/\[([^=\]]+)\]/] *)
Definition exists_re : list Regex.item :=
  [ Regex.Lit "["%char; Regex.Cap (Regex.isnt ["="%char; "]"%char]); Regex.Lit "]"%char ].

(** The three bracket forms, tried in the order of the source; [None]
    when none of the patterns matches and control falls through. *)
Definition match_brackets (node : Model.node) (selector : string) : option (Res bool) :=
  match Regex.exec attr_re selector with
  | Some [attr; value] => Some (Ok (strict_eq (get node attr) (Str value)))
  | _ =>
      match Regex.exec contains_re selector with
      | Some [attr; value] =>
          Some (if truthy (get node attr) then includes_val (get node attr) value
                else Ok false)
      | _ =>
          match Regex.exec exists_re selector with
          | Some [attr] => Some (Ok (negb (strict_eq (get node attr) Undefined)))
          | _ => None
          end
      end
  end.

Definition _matchStringSelector (node : Model.node) (selector : string) : Res bool :=
  if startsWith selector "#" then
    let id := substring_from 1 selector in
    if strict_eq (get node "resource-id") (Str id) then Ok true
    else opt_endsWith (get node "resource-id") (":id/" +:+ id)
  else if startsWith selector "." then
    let className := substring_from 1 selector in
    if truthy (get node "class") then includes_val (get node "class") className
    else Ok false
  else
    let rest :=
      if includes selector "." then Ok (strict_eq (get node "class") (Str selector))
      else Ok (strict_eq (get node "text") (Str selector) ||
               strict_eq (get node "content-desc") (Str selector)) in
    if startsWith selector "[" && endsWith selector "]" then
      default rest (match_brackets node selector)
    else rest.

(** [v.toLowerCase()], where [callee] is the expression [v] is written
    as, which the message of the exception shows. *)
Definition lower (host : Host) (callee : string) (v : val) : Res string :=
  match v with
  | Str s => Ok (toLowerCase host s)
  | Undefined => Throw (TypeError "Cannot read properties of undefined (reading 'toLowerCase')")
  | Null => Throw (TypeError "Cannot read properties of null (reading 'toLowerCase')")
  | _ => not_a_function (callee +:+ ".toLowerCase")
  end.

(** The expression [(node.k || Q Q)], for the double quote Q, as the
    engine prints it in a message. *)
Definition or_empty (k : string) : string :=
  "(node." +:+ k +:+ " || " +:+ str [dquote; dquote] +:+ ")".

(** The cases for [text], [className]/[class] and
    [contentDesc]/[description]: a regular expression is tested on the
    field (the empty string for a falsy field), anything else is compared
    with [===]. *)
Definition test_or_same (field value : val) : bool :=
  match value with
  | RegExp _ test => test (ToString (or_else field (Str "")))
  | _ => strict_eq field value
  end.

Definition flag_keys : list string :=
  [ "clickable"; "enabled"; "selected"; "checked"; "scrollable"; "focusable"; "focused" ].

Section WithHost.
Context (host : Host).

(** One [case] of the [switch]: [Ok false] where the source returns
    false, [Ok true] where it reaches [break]. *)
Definition match_entry (node : Model.node) (key : string) (value : val) : Res bool :=
  if String.eqb key "text" then Ok (test_or_same (get node "text") value)
  else if String.eqb key "textContains" || String.eqb key "contains" then
    searchText ← lower host "value" value;
    nodeText ← lower host (or_empty "text") (or_else (get node "text") (Str ""));
    nodeDesc ← lower host (or_empty "content-desc") (or_else (get node "content-desc") (Str ""));
    Ok (includes nodeText searchText || includes nodeDesc searchText)
  else if String.eqb key "textMatches" then
    regex ← RegExp_i host value;
    Ok (regex (ToString (or_else (get node "text") (Str ""))) ||
        regex (ToString (or_else (get node "content-desc") (Str ""))))
  else if String.eqb key "resourceId" || String.eqb key "id" then
    match value with
    | Str v =>
        if strict_eq (get node "resource-id") value then Ok true
        else opt_endsWith (get node "resource-id") (":id/" +:+ v)
    | RegExp _ test => Ok (test (ToString (or_else (get node "resource-id") (Str ""))))
    | _ => Ok true
    end
  else if String.eqb key "className" || String.eqb key "class" then
    Ok (test_or_same (get node "class") value)
  else if String.eqb key "contentDesc" || String.eqb key "description" then
    Ok (test_or_same (get node "content-desc") value)
  else if bool_decide (key ∈ flag_keys) || String.eqb key "index" then
    Ok (strict_eq (get node key) (Str (ToString value)))
  else if String.eqb key "bounds" || String.eqb key "package" then
    Ok (strict_eq (get node key) value)
  else
    Ok (strict_eq (get node key) value).

(** The loop over [Object.entries(selector)]. *)
Fixpoint match_entries (node : Model.node) (entries : list (string * val)) : Res bool :=
  match entries with
  | [] => Ok true
  | (key, value) :: entries' =>
      match match_entry node key value with
      | Ok true => match_entries node entries'
      | Ok false => Ok false
      | Throw e => Throw e
      end
  end.

Definition _matchObjectSelector (node : Model.node) (selector : list (string * val)) : Res bool :=
  match_entries node selector.

Definition _matchesSelector (node : Model.node) (selector : selector) : Res bool :=
  match selector with
  | SelString s => _matchStringSelector node s
  | SelObject entries => _matchObjectSelector node entries
  | SelNull => Throw (TypeError "Cannot convert undefined or null to object")
  | SelOther => Ok false
  end.

(** [results] is the array the calls share and push to. *)
Fixpoint _searchElements (node : Model.node) (selector : selector) (results : list Model.node)
    : Res (list Model.node) :=
  match _matchesSelector node selector with
  | Throw e => Throw e
  | Ok found =>
      let results := if found then results ++ [node] else results in
      (fix each (l : list Model.node) (results : list Model.node) : Res (list Model.node) :=
         match l with
         | [] => Ok results
         | child :: l' =>
             match _searchElements child selector results with
             | Ok results => each l' results
             | Throw e => Throw e
             end
         end) (children node) results
  end.
End WithHost.

(** *** Path queries *)

(** [/@name=Q([^Q]+)Q/] *)
Definition at_re (name : string) : list Regex.item :=
  Regex.lits ("@" +:+ name +:+ "=") ++
  [ Regex.One Regex.quote; Regex.Cap Regex.no_quote; Regex.One Regex.quote ].

(** One [if (predicate.includes('@name=')) { ... }] block: [None] when
    control falls through to the next block. *)
Definition at_predicate (name : string) (node : Model.node) (predicate : string) : option bool :=
  if includes predicate ("@" +:+ name +:+ "=") then
    match Regex.exec (at_re name) predicate with
    | Some [v] => Some (strict_eq (get node name) (Str v))
    | _ => None
    end
  else None.

Definition _evaluatePredicate (node : Model.node) (predicate : string) : bool :=
  match at_predicate "text" node predicate with
  | Some b => b
  | None =>
  match at_predicate "resource-id" node predicate with
  | Some b => b
  | None =>
  match at_predicate "content-desc" node predicate with
  | Some b => b
  | None =>
  match at_predicate "clickable" node predicate with
  | Some b => b
  | None =>
      if Regex.all_digits predicate then
        let index := to_double (parseInt predicate - 1) in
        strict_eq (get node "index") (Str (ToString (Num index)))
      else false
  end end end end.

(** [predicate] is [None] for [null]. *)
Definition _matchesXPathElement (node : Model.node) (elementName : string)
    (predicate : option string) : Res bool :=
  match (if String.eqb elementName "*" then Ok true
         else match get node "class" with
              | Undefined | Null => Ok false
              | c => includes_val c elementName
              end) with
  | Throw e => Throw e
  | Ok false => Ok false
  | Ok true =>
      match predicate with
      | Some p => if String.eqb p "" then Ok true else Ok (_evaluatePredicate node p)
      | None => Ok true
      end
  end.

(** [path.split('[')]: element name and, when there is a second part
    that is not empty, that part without its first [']']. *)
Fixpoint until (c : ascii) (l : list ascii) : list ascii * option (list ascii) :=
  match l with
  | [] => ([], None)
  | x :: l' =>
      if Ascii.eqb x c then ([], Some l')
      else let '(a, b) := until c l' in (x :: a, b)
  end.

Definition remove_first (c : ascii) (l : list ascii) : list ascii :=
  match until c l with
  | (a, Some b) => a ++ b
  | (a, None) => a
  end.

Definition split_step (path : string) : string * option string :=
  match until "["%char (chars path) with
  | (name, None) => (str name, None)
  | (name, Some rest) =>
      let part := fst (until "["%char rest) in
      (str name, match part with
                 | [] => None
                 | _ => Some (str (remove_first "]"%char part))
                 end)
  end.

(** *** The rest of the path queries *)

(** [_getAllElements(node, results)] *)
Fixpoint _getAllElements (node : Model.node) (results : list Model.node) : list Model.node :=
  (fix each (l : list Model.node) (results : list Model.node) : list Model.node :=
     match l with
     | [] => results
     | child :: l' => each l' (_getAllElements child results)
     end) (children node) (results ++ [node]).

(** [_findByElementName(node, elementName, results, predicate)] *)
Fixpoint _findByElementName (node : Model.node) (elementName : string)
    (results : list Model.node) (predicate : option string) : Res (list Model.node) :=
  match _matchesXPathElement node elementName predicate with
  | Throw e => Throw e
  | Ok found =>
      (fix each (l : list Model.node) (results : list Model.node) : Res (list Model.node) :=
         match l with
         | [] => Ok results
         | child :: l' =>
             match _findByElementName child elementName results predicate with
             | Ok results => each l' results
             | Throw e => Throw e
             end
         end) (children node) (if found then results ++ [node] else results)
  end.

Definition _evaluateDescendantPath (node : Model.node) (path : string)
    (results : list Model.node) : Res (list Model.node) :=
  let '(elementName, predicate) := split_step path in
  _findByElementName node elementName results predicate.

Definition _evaluateChildPath (node : Model.node) (path : string)
    (results : list Model.node) : Res (list Model.node) :=
  let '(elementName, predicate) := split_step path in
  (fix each (l : list Model.node) (results : list Model.node) : Res (list Model.node) :=
     match l with
     | [] => Ok results
     | child :: l' =>
         match _matchesXPathElement child elementName predicate with
         | Ok found => each l' (if found then results ++ [child] else results)
         | Throw e => Throw e
         end
     end) (children node) results.

Definition _evaluateXPath (node : Model.node) (xpath : string) : Res (list Model.node) :=
  if String.eqb xpath "//*" then Ok (_getAllElements node [])
  else if startsWith xpath "//" then _evaluateDescendantPath node (substring_from 2 xpath) []
  else if startsWith xpath "/" then _evaluateChildPath node (substring_from 1 xpath) []
  else Ok [].

(** [v && v.trim().length > 0] *)
Definition not_blank (v : val) : Res bool :=
  if truthy v then
    match v with
    | Str s => Ok (negb (String.eqb (trim s) ""))
    | _ => not_a_function "trim"
    end
  else Ok false.

(** [_findElementsWithTextRecursive(node, results)] *)
Fixpoint _findElementsWithTextRecursive (node : Model.node) (results : list Model.node)
    : Res (list Model.node) :=
  match not_blank (get node "text") with
  | Throw e => Throw e
  | Ok found =>
      (fix each (l : list Model.node) (results : list Model.node) : Res (list Model.node) :=
         match l with
         | [] => Ok results
         | child :: l' =>
             match _findElementsWithTextRecursive child results with
             | Ok results => each l' results
             | Throw e => Throw e
             end
         end) (children node) (if found then results ++ [node] else results)
  end.

End Selector.

(** ** src/Element.js: the element handle *)

Module Element.
Import JS Model.

(** What [this.attributes] is: [data.attributes] when the node has one,
    the node itself otherwise. *)
Inductive attributes_of : Type :=
| SourceAttributes (a : gmap string string)
| NodeItself (data : node).

Record AndroidElement := {
  _data : node;
  id : val;
  tag : val;
  className : val;
  resourceId : val;
  text : val;
  contentDesc : val;
  bounds : val;
  index : val;
  package : val;
  isClickable : bool;
  isLongClickable : bool;
  isEnabled : bool;
  isSelected : bool;
  isFocused : bool;
  isFocusable : bool;
  isScrollable : bool;
  isCheckable : bool;
  isChecked : bool;
  isPassword : bool;
  isVisibleToUser : bool;
  boundsRect : option rect;
  attributes : attributes_of;
  selector : val
}.

Definition _parseBounds (bounds : val) : Res (option rect) :=
  if negb (truthy bounds) then Ok None
  else match bounds with
       | Str s => Ok (XmlParser.parse_bounds s)
       | _ => not_a_function "bounds.match"
       end.

(** [v && v.length > 0] for a property that is a string or [undefined]. *)
Definition nonempty (v : val) : bool :=
  match v with Str s => negb (String.eqb s "") | _ => false end.

Definition _generateSelector (className resourceId text contentDesc index : val) : string :=
  let selector := ToString className in
  let selector :=
    if truthy resourceId
    then selector +:+ XmlParser.bracket "resource-id" (ToString resourceId)
    else if nonempty text
    then selector +:+ XmlParser.bracket "text" (XmlParser.escape_quotes (ToString text))
    else if nonempty contentDesc
    then selector +:+ XmlParser.bracket "content-desc" (XmlParser.escape_quotes (ToString contentDesc))
    else selector in
  if truthy index && negb (strict_eq index (Str "0"))
  then selector +:+ "[" +:+ ToString index +:+ "]"
  else selector.

(** [new AndroidElement(device, data)] *)
Definition construct (data : node) : Res AndroidElement :=
  let className := or_else (get data "class") (or_else (get data "tag") (Str "android.view.View")) in
  let resourceId := or_else (get data "resource-id") (Str "") in
  let text := or_else (get data "text") (Str "") in
  let contentDesc := or_else (get data "content-desc") (Str "") in
  let bounds := or_else (get data "bounds") (Str "[0,0][0,0]") in
  let index := or_else (get data "index") (Str "0") in
  match _parseBounds bounds with
  | Throw e => Throw e
  | Ok boundsRect =>
      Ok {| _data := data;
            id := or_else (get data "id") (Num 0);
            tag := or_else (get data "tag") (Str "node");
            className := className;
            resourceId := resourceId;
            text := text;
            contentDesc := contentDesc;
            bounds := bounds;
            index := index;
            package := or_else (get data "package") (Str "");
            isClickable := strict_eq (get data "clickable") (Str "true");
            isLongClickable := strict_eq (get data "long-clickable") (Str "true");
            isEnabled := negb (strict_eq (get data "enabled") (Str "false"));
            isSelected := strict_eq (get data "selected") (Str "true");
            isFocused := strict_eq (get data "focused") (Str "true");
            isFocusable := strict_eq (get data "focusable") (Str "true");
            isScrollable := strict_eq (get data "scrollable") (Str "true");
            isCheckable := strict_eq (get data "checkable") (Str "true");
            isChecked := strict_eq (get data "checked") (Str "true");
            isPassword := strict_eq (get data "password") (Str "true");
            isVisibleToUser := negb (strict_eq (get data "visible-to-user") (Str "false"));
            boundsRect := boundsRect;
            attributes := match Model.attributes data with
                          | Some a => SourceAttributes a
                          | None => NodeItself data
                          end;
            selector := or_else (get data "selector")
                           (Str (_generateSelector className resourceId text contentDesc index)) |}
  end.

Definition isVisible (this : AndroidElement) : bool :=
  if negb (isVisibleToUser this) then false
  else match boundsRect this with
       | None => false
       | Some r => (0 <? width r) && (0 <? height r)
       end.

(** [this.attributes[key]] *)
Definition attribute (this : AndroidElement) (key : string) : val :=
  match attributes this with
  | SourceAttributes a => attr_get a key
  | NodeItself data => get data key
  end.

(** [v.endsWith(x)], [v.includes(x)] on a field of the element. *)
Definition endsWith_val (v : val) (x : string) : Res bool :=
  match v with
  | Str s => Ok (endsWith s x)
  | _ => not_a_function "endsWith"
  end.

Definition matches_string (this : AndroidElement) (selector : string) : Res bool :=
  if startsWith selector "#" then
    let id := substring_from 1 selector in
    if strict_eq (resourceId this) (Str id) then Ok true
    else endsWith_val (resourceId this) (":id/" +:+ id)
  else if startsWith selector "." then
    includes_val (className this) (substring_from 1 selector)
  else Ok (strict_eq (text this) (Str selector) || strict_eq (contentDesc this) (Str selector)).

(** [value.test(field)] or [field === value], on a field of the element. *)
Definition test_or_equal (field value : val) : bool :=
  match value with
  | RegExp _ test => test (ToString field)
  | _ => strict_eq field value
  end.

Section WithHost.
Context (host : Host).

(** One [case] of the [switch] of [matches]: [Ok false] where the source
    returns false, [Ok true] where it reaches [break]. *)
Definition matches_entry (this : AndroidElement) (key : string) (value : val) : Res bool :=
  if String.eqb key "resourceId" || String.eqb key "id" then
    if strict_eq (resourceId this) value then Ok true
    else endsWith_val (resourceId this) (":id/" +:+ ToString value)
  else if String.eqb key "text" then Ok (test_or_equal (text this) value)
  else if String.eqb key "contains" || String.eqb key "textContains" then
    match Selector.lower host "this.text" (text this) with
    | Throw e => Throw e
    | Ok t =>
        match Selector.lower host "value" value with
        | Throw e => Throw e
        | Ok v =>
            if includes t v then Ok true
            else match Selector.lower host "this.contentDesc" (contentDesc this) with
                 | Throw e => Throw e
                 | Ok d => Ok (includes d v)
                 end
        end
    end
  else if String.eqb key "className" || String.eqb key "class" then
    Ok (test_or_equal (className this) value)
  else if String.eqb key "contentDesc" || String.eqb key "description" then
    Ok (test_or_equal (contentDesc this) value)
  else if String.eqb key "clickable" then
    Ok (Bool.eqb (isClickable this) (Boolean value))
  else if String.eqb key "enabled" then
    Ok (Bool.eqb (isEnabled this) (Boolean value))
  else
    Ok (strict_eq (attribute this key) value).

Fixpoint matches_entries (this : AndroidElement) (entries : list (string * val)) : Res bool :=
  match entries with
  | [] => Ok true
  | (key, value) :: entries' =>
      match matches_entry this key value with
      | Ok true => matches_entries this entries'
      | Ok false => Ok false
      | Throw e => Throw e
      end
  end.

Definition matches (this : AndroidElement) (selector : Model.selector) : Res bool :=
  match selector with
  | SelString s => matches_string this s
  | SelObject entries => matches_entries this entries
  | SelNull => Throw (TypeError "Cannot convert undefined or null to object")
  | SelOther => Ok false
  end.
End WithHost.

(** *** Reading a handle *)

Definition flag (b : bool) : val := Str (if b then "true" else "false").

(** The object literal [attributeMap] of [getAttribute]. *)
Definition attributeMap (this : AndroidElement) : list (string * val) :=
  [ ("class", className this);
    ("className", className this);
    ("resource-id", resourceId this);
    ("resourceId", resourceId this);
    ("text", text this);
    ("content-desc", contentDesc this);
    ("contentDesc", contentDesc this);
    ("bounds", bounds this);
    ("clickable", flag (isClickable this));
    ("enabled", flag (isEnabled this));
    ("selected", flag (isSelected this));
    ("focused", flag (isFocused this));
    ("focusable", flag (isFocusable this));
    ("scrollable", flag (isScrollable this));
    ("checkable", flag (isCheckable this));
    ("checked", flag (isChecked this));
    ("long-clickable", flag (isLongClickable this));
    ("password", flag (isPassword this));
    ("visible-to-user", flag (isVisibleToUser this));
    ("package", package this);
    ("index", index this) ].

(** [o[name]] for an object literal [o] *)
Fixpoint literal_get (o : list (string * val)) (name : string) : val :=
  match o with
  | [] => inherited name
  | (k, v) :: o' => if String.eqb k name then v else literal_get o' name
  end.

(** [attributeMap[name] || this.attributes[name] || null] *)
Definition getAttribute (this : AndroidElement) (name : string) : val :=
  or_else (or_else (literal_get (attributeMap this) name) (attribute this name)) Null.

(** [getLocation()] and [getSize()]; [None] is [null]. *)
Definition getLocation (this : AndroidElement) : option (Z * Z) :=
  match boundsRect this with
  | Some r => Some (centerX r, centerY r)
  | None => None
  end.

Definition getSize (this : AndroidElement) : option (Z * Z) :=
  match boundsRect this with
  | Some r => Some (width r, height r)
  | None => None
  end.

End Element.

(** ** src/Device.js: the cached hierarchy, on a clock

    The device's memory and the outside world are one state.  The outside is
    an [Env]: what the [k]-th capture returns and how long it takes, and by
    how much the [k]-th timer overshoots.  [adb.getUIHierarchy()] always
    returns a string (it catches its own failures and returns a fixed dump). *)

Module Device.
Import JS Model.

Record Env := {
  dump : nat -> string;
  capture_ms : nat -> Z;
  timer_lag : nat -> Z
}.

Record World := {
  now : Z;                       (* what Date.now() reads *)
  captures : nat;                (* calls of adb.getUIHierarchy() so far *)
  timers : nat;                  (* timers set so far *)
  _uiHierarchy : option node;    (* null until the first capture *)
  _lastUIUpdate : Z
}.

(** [new AndroidDevice()] at time [t] *)
Definition fresh (t : Z) : World :=
  {| now := t; captures := 0; timers := 0; _uiHierarchy := None; _lastUIUpdate := 0 |}.

(** An asynchronous computation: it returns or throws, and leaves a world. *)
Definition M (A : Type) : Type := World -> Res A * World.

Definition ret {A} (a : A) : M A := fun w => (Ok a, w).
Definition throw {A} (e : exn) : M A := fun w => (Throw e, w).
Definition bind {A B} (m : M A) (k : A -> M B) : M B :=
  fun w => match m w with
           | (Ok a, w') => k a w'
           | (Throw e, w') => (Throw e, w')
           end.
Definition lift {A} (r : Res A) : M A := fun w => (r, w).
(** [try { m } catch (error) { }], [None] when [m] threw *)
Definition try_ {A} (m : M A) : M (option A) :=
  fun w => match m w with
           | (Ok a, w') => (Ok (Some a), w')
           | (Throw _, w') => (Ok None, w')
           end.

Declare Scope world_scope.
Delimit Scope world_scope with world.
Notation "'let*' x ':=' m 'in' k" := (bind m (fun x => k))
  (at level 10, x name, m at level 100, k at level 200) : world_scope.
Notation "m ';;' k" := (bind m (fun _ => k))
  (at level 100, k at level 200) : world_scope.
Local Open Scope world_scope.

Definition Date_now : M Z := fun w => (Ok (now w), w).

Section WithEnv.
Context (host : Host) (env : Env).

(** [await this.adb.getUIHierarchy()] *)
Definition adb_getUIHierarchy : M string := fun w =>
  (Ok (dump env (captures w)),
   {| now := now w + capture_ms env (captures w);
      captures := S (captures w);
      timers := timers w;
      _uiHierarchy := _uiHierarchy w;
      _lastUIUpdate := _lastUIUpdate w |}).

(** [await this.wait(ms)]: a timer of [ms] milliseconds. *)
Definition wait (ms : Z) : M unit := fun w =>
  (Ok tt,
   {| now := now w + ms + timer_lag env (timers w);
      captures := captures w;
      timers := S (timers w);
      _uiHierarchy := _uiHierarchy w;
      _lastUIUpdate := _lastUIUpdate w |}).

Definition store (h : node) (t : Z) : M unit := fun w =>
  (Ok tt,
   {| now := now w; captures := captures w; timers := timers w;
      _uiHierarchy := Some h; _lastUIUpdate := t |}).

(** The condition of the [if] in [getUIHierarchy]. *)
Definition stale (forceRefresh : bool) (t : Z) (w : World) : bool :=
  negb (bool_decide (is_Some (_uiHierarchy w))) || forceRefresh ||
  (1000 <? t - _lastUIUpdate w).

(** The body of the [if]; what it stores is what the function then
    returns. *)
Definition refresh (t : Z) : M node :=
  let* xmlString := adb_getUIHierarchy in
  let* h := lift (XmlParser.parseUIHierarchy host (Str xmlString)) in
  store h t ;;
  ret h.

(** [return this._uiHierarchy] hands out what is cached once the [if] is
    over; with nothing cached the condition of the [if] holds, so the
    last branch below is the same capture, written for totality. *)
Definition getUIHierarchy (forceRefresh : bool) : M node :=
  let* t := Date_now in
  fun w =>
    if stale forceRefresh t w then refresh t w
    else match _uiHierarchy w with
         | Some h => (Ok h, w)
         | None => refresh t w
         end.

(** *** src/Selector.js: the finders, which read the device *)

Fixpoint construct_all (l : list node) : Res (list Element.AndroidElement) :=
  match l with
  | [] => Ok []
  | data :: l' =>
      match Element.construct data with
      | Throw e => Throw e
      | Ok el =>
          match construct_all l' with
          | Throw e => Throw e
          | Ok els => Ok (el :: els)
          end
      end
  end.

Definition findElements (selector : selector) : M (list Element.AndroidElement) :=
  let* uiHierarchy := getUIHierarchy false in
  let* elements := lift (Selector._searchElements host uiHierarchy selector []) in
  lift (construct_all elements).

(** [null] is [None]. *)
Definition findElement (selector : selector) : M (option Element.AndroidElement) :=
  let* elements := findElements selector in
  ret (head elements).

(** *** src/Page.js: [waitForSelector] *)

Record Options := {
  timeout : option Z;       (* options.timeout, when it is a number *)
  visible : val;            (* options.visible *)
  hidden : val              (* options.hidden *)
}.

(** [options.timeout || 30000] *)
Definition timeout_of (options : Options) : Z :=
  match timeout options with
  | Some t => if t =? 0 then 30000 else t
  | None => 30000
  end.

(** The body of the [try]: the element to return, if any. *)
Definition probe (selector : selector) (visible hidden : bool)
    : M (option Element.AndroidElement) :=
  let* element := findElement selector in
  match element with
  | None => ret None
  | Some el =>
      if hidden then
        (if negb (Element.isVisible el) then ret (Some el) else ret None)
      else if negb visible || Element.isVisible el then ret (Some el)
      else ret None
  end.

Definition not_found (selector : selector) (timeout : Z) : exn :=
  Error ("Selector " +:+ str [dquote] +:+ JSON_stringify host selector +:+ str [dquote] +:+
         " not found after " +:+ string_of_Z timeout +:+ "ms").

(** The [while] loop, unrolled at most [fuel] times; [None] is the
    answer of a loop that was cut short and is no outcome of the source. *)
Fixpoint wait_loop (fuel : nat) (selector : selector) (timeout : Z) (visible hidden : bool)
    (startTime : Z) : M (option Element.AndroidElement) :=
  match fuel with
  | O => ret None
  | S fuel' =>
      let* t := Date_now in
      if t - startTime <? timeout then
        let* found := try_ (probe selector visible hidden) in
        match found with
        | Some (Some el) => ret (Some el)
        | _ =>
            wait 100 ;;
            let* t' := Date_now in
            (if Z.rem (t' - startTime) 2000 <? 100
             then (let* _ := getUIHierarchy true in ret tt)
             else ret tt) ;;
            wait_loop fuel' selector timeout visible hidden startTime
        end
      else throw (not_found selector timeout)
  end.

Definition waitForSelector (fuel : nat) (selector : selector) (options : Options)
    : M (option Element.AndroidElement) :=
  let timeout := timeout_of options in
  let visible := negb (strict_eq (visible options) (Bool false)) in
  let hidden := strict_eq (hidden options) (Bool true) in
  let* startTime := Date_now in
  wait_loop fuel selector timeout visible hidden startTime.

(** *** src/Selector.js: [findByXPath], [findElementsWithText] *)

Definition findByXPath (xpath : string) : M (list Element.AndroidElement) :=
  let* uiHierarchy := getUIHierarchy false in
  let* elements := lift (Selector._evaluateXPath uiHierarchy xpath) in
  lift (construct_all elements).

Definition findElementsWithText : M (list Element.AndroidElement) :=
  let* uiHierarchy := getUIHierarchy false in
  let* elements := lift (Selector._findElementsWithTextRecursive uiHierarchy []) in
  lift (construct_all elements).

(** *** src/Page.js: [getAllText], [getElementCount], [waitForFunction] *)

(** [texts.filter(text => text.trim().length > 0)] *)
Fixpoint keep_not_blank (texts : list val) : Res (list val) :=
  match texts with
  | [] => Ok []
  | t :: texts' =>
      match t with
      | Str s =>
          match keep_not_blank texts' with
          | Ok r => Ok (if negb (String.eqb (trim s) "") then t :: r else r)
          | Throw e => Throw e
          end
      | Undefined | Null => Throw (TypeError "Cannot read properties of undefined (reading 'trim')")
      | _ => not_a_function "text.trim"
      end
  end.

Definition getAllText : M (list val) :=
  let* elements := findElementsWithText in
  lift (keep_not_blank (map Element.text elements)).

Definition getElementCount (selector : selector) : M nat :=
  let* elements := findElements selector in
  ret (length elements).

(** [evaluate(pageFunction)]: the function is applied to the hierarchy. *)
Definition evaluate (pageFunction : node -> Res val) : M val :=
  let* uiHierarchy := getUIHierarchy false in
  lift (pageFunction uiHierarchy).

Definition not_truthy (timeout : Z) : exn :=
  Error ("Function did not return truthy value after " +:+ string_of_Z timeout +:+ "ms").

(** The [while] loop of [waitForFunction], unrolled at most [fuel]
    times; [None] is the answer of a loop that was cut short. *)
Fixpoint function_loop (fuel : nat) (pageFunction : node -> Res val) (timeout polling : Z)
    (startTime : Z) : M (option val) :=
  match fuel with
  | O => ret None
  | S fuel' =>
      let* t := Date_now in
      if t - startTime <? timeout then
        let* result := try_ (evaluate pageFunction) in
        match result with
        | Some v =>
            if truthy v then ret (Some v)
            else (wait polling ;;
                  function_loop fuel' pageFunction timeout polling startTime)
        | None =>
            wait polling ;;
            function_loop fuel' pageFunction timeout polling startTime
        end
      else throw (not_truthy timeout)
  end.

(** [timeout] and [polling] are [options.timeout] and [options.polling]
    when they are numbers. *)
Definition waitForFunction (fuel : nat) (pageFunction : node -> Res val)
    (timeout polling : option Z) : M (option val) :=
  let timeout := timeout_of {| timeout := timeout; visible := Undefined; hidden := Undefined |} in
  let polling := match polling with
                 | Some p => if p =? 0 then 100 else p
                 | None => 100
                 end in
  let* startTime := Date_now in
  function_loop fuel pageFunction timeout polling startTime.
End WithEnv.

(** *** src/Device.js: reading what the shell printed *)

(** [s.split(c)] for a one-character separator *)
Fixpoint split_chars (c : ascii) (l : list ascii) : list (list ascii) :=
  match l with
  | [] => [[]]
  | x :: l' =>
      if Ascii.eqb x c then [] :: split_chars c l'
      else match split_chars c l' with
           | line :: lines => (x :: line) :: lines
           | [] => [[x]]
           end
  end.

(** [line.replace(needle, '')]: the first occurrence is taken out. *)
Fixpoint replace_first (needle l : list ascii) : list ascii :=
  if bool_decide (needle `prefix_of` l) then drop (length needle) l
  else match l with
       | [] => []
       | x :: l' => x :: replace_first needle l'
       end.

Definition newline : ascii := ascii_of_nat 10.

(** [getInstalledApps()] after the [await]: [packages] is what
    [pm list packages -3] printed. *)
Definition getInstalledApps (packages : string) : list string :=
  filter (fun pkg => pkg <> "")
         (map (fun line => str (replace_first (chars "package:") line))
              (split_chars newline (chars packages))).

(** [/level: (\d+)/] *)
Definition level_re : list Regex.item :=
  Regex.lits "level: " ++ [Regex.Cap is_digit].

(** [getBatteryLevel()] after the [await]; [None] is [null]. *)
Definition getBatteryLevel (result : string) : option Z :=
  match Regex.exec level_re result with
  | Some [level] => Some (parseInt level)
  | _ => None
  end.

End Device.

(** ** src/Page.js: selectors with regular expressions that keep a position

    [re.test(s)] for an expression with the [g] or the [y] flag starts at
    [re.lastIndex] and moves it, so what a selector with such an expression
    accepts depends on what it was tested on before.  Here are the object
    matcher, the search and the finders once more, for selectors that may
    hold such expressions, with the positions threaded through them.  On the
    other values they are the functions of [Selector] and [Device]. *)

Module Sticky.
Import JS Model.

(** An expression with [g] or [y]: what [String()] makes of it, and the
    end of the match that [exec] finds in [s] from the position [i] on
    (for [y]: at the position [i]), if there is one. *)
Record regexp := {
  repr : string;
  scan : string -> nat -> option nat
}.

(** [lastIndex] of each such object, by its reference; [0] until the
    object has been tested. *)
Definition positions : Type := gmap nat nat.

Definition lastIndex (σ : positions) (r : nat) : nat := default 0%nat (σ !! r).

(** [re.test(s)] for the object [r]: a [lastIndex] beyond the end of
    [s] fails; a match moves [lastIndex] to its end, a failure to [0]. *)
Definition test (r : nat) (re : regexp) (s : string) (σ : positions) : bool * positions :=
  let i := lastIndex σ r in
  match (if (String.length s <? i)%nat then None else scan re s i) with
  | Some j => (true, <[r := j]> σ)
  | None => (false, <[r := 0%nat]> σ)
  end.

(** A value of an object selector: a value of [JS.val], or the object
    [r], an expression that keeps a position. *)
Inductive value : Type :=
| Plain (v : val)
| Keeps (r : nat) (re : regexp).

(** A selector: an object that may hold such expressions, or any
    selector of [Model.selector]. *)
Inductive query : Type :=
| Entries (entries : list (string * value))
| Stateless (s : Model.selector).

(** The expression where the code does not call [test]: there it is an
    object like any other, known by what [String()] makes of it. *)
Definition as_val (re : regexp) : val :=
  RegExp (repr re) (fun s => bool_decide (is_Some (scan re s 0%nat))).

(** The property of the node that the [case] of [key] tests a regular
    expression on, for the cases that test one. *)
Definition tested (key : string) : option string :=
  if String.eqb key "text" then Some "text"
  else if String.eqb key "textContains" || String.eqb key "contains" then None
  else if String.eqb key "textMatches" then None
  else if String.eqb key "resourceId" || String.eqb key "id" then Some "resource-id"
  else if String.eqb key "className" || String.eqb key "class" then Some "class"
  else if String.eqb key "contentDesc" || String.eqb key "description" then Some "content-desc"
  else None.

Section WithHost.
Context (host : Host).

(** One [case] of the [switch] of [_matchObjectSelector]. *)
Definition match_entry_at (node : Model.node) (key : string) (value : value) (σ : positions)
    : Res bool * positions :=
  match value with
  | Plain v => (Selector.match_entry host node key v, σ)
  | Keeps r re =>
      match tested key with
      | Some k =>
          let '(b, σ') := test r re (ToString (or_else (get node k) (Str ""))) σ in
          (Ok b, σ')
      | None => (Selector.match_entry host node key (as_val re), σ)
      end
  end.

(** The loop over [Object.entries(selector)]. *)
Fixpoint match_entries_at (node : Model.node) (entries : list (string * value)) (σ : positions)
    : Res bool * positions :=
  match entries with
  | [] => (Ok true, σ)
  | (key, value) :: entries' =>
      match match_entry_at node key value σ with
      | (Ok true, σ') => match_entries_at node entries' σ'
      | (Ok false, σ') => (Ok false, σ')
      | (Throw e, σ') => (Throw e, σ')
      end
  end.

Definition _matchObjectSelector_at (node : Model.node) (selector : list (string * value))
    (σ : positions) : Res bool * positions :=
  match_entries_at node selector σ.

Definition _matchesSelector_at (node : Model.node) (selector : query) (σ : positions)
    : Res bool * positions :=
  match selector with
  | Entries entries => _matchObjectSelector_at node entries σ
  | Stateless s => (Selector._matchesSelector host node s, σ)
  end.

Fixpoint _searchElements_at (node : Model.node) (selector : query)
    (results : list Model.node) (σ : positions) : Res (list Model.node) * positions :=
  match _matchesSelector_at node selector σ with
  | (Throw e, σ') => (Throw e, σ')
  | (Ok found, σ') =>
      let results := if found then results ++ [node] else results in
      (fix each (l : list Model.node) (results : list Model.node) (σ : positions)
           : Res (list Model.node) * positions :=
         match l with
         | [] => (Ok results, σ)
         | child :: l' =>
             match _searchElements_at child selector results σ with
             | (Ok results, σ') => each l' results σ'
             | (Throw e, σ') => (Throw e, σ')
             end
         end) (children node) results σ'
  end.

(** [findElements] and [findElement] on a device: the outcome, the
    positions and the world they leave. *)
Definition findElements_at (env : Device.Env) (selector : query) (σ : positions)
    (w : Device.World) : Res (list Element.AndroidElement) * positions * Device.World :=
  match Device.getUIHierarchy host env false w with
  | (Throw e, w') => (Throw e, σ, w')
  | (Ok uiHierarchy, w') =>
      match _searchElements_at uiHierarchy selector [] σ with
      | (Throw e, σ') => (Throw e, σ', w')
      | (Ok elements, σ') => (Device.construct_all elements, σ', w')
      end
  end.

Definition findElement_at (env : Device.Env) (selector : query) (σ : positions)
    (w : Device.World) : Res (option Element.AndroidElement) * positions * Device.World :=
  match findElements_at env selector σ w with
  | (Ok elements, σ', w') => (Ok (head elements), σ', w')
  | (Throw e, σ', w') => (Throw e, σ', w')
  end.
End WithHost.

End Sticky.

(** ** src/utils/adb.js: the commands *)

Module ADB.
Import JS.

(** [s.replace(/c/g, by)] for one character [c] *)
Definition replace_char (c : ascii) (by_ : list ascii) (l : list ascii) : list ascii :=
  flat_map (fun x => if Ascii.eqb x c then by_ else [x]) l.

Definition backslash : ascii := ascii_of_nat 92.

(** The four replacements of [type(text)], in their order. *)
Definition escape_text (text : string) : string :=
  str (replace_char "$"%char [backslash; "$"%char]
         (replace_char "&"%char [backslash; "&"%char]
            (replace_char " "%char (chars "%s")
               (replace_char squote [backslash; squote] (chars text))))).

(** The command [type(text)] hands to [shell]. *)
Definition type_command (text : string) : string :=
  "input text " +:+ str [squote] +:+ escape_text text +:+ str [squote].

(** The command [shell(command)] hands to [execute]. *)
Definition shell_command (command : string) : string :=
  "shell " +:+ str [dquote] +:+ XmlParser.escape_quotes command +:+ str [dquote].

(** [this.prefix]; a device id that is [null] or empty gives plain [adb]. *)
Definition prefix (deviceId : option string) : string :=
  match deviceId with
  | Some d => if String.eqb d "" then "adb" else "adb -s " +:+ d
  | None => "adb"
  end.

(** The line [execute(command)] runs. *)
Definition fullCommand (deviceId : option string) (command : string) : string :=
  prefix deviceId +:+ " " +:+ command.

Definition warnings : list string :=
  [ "Warning:"; "adb: failed to install"; "* daemon not running";
    "* daemon started successfully" ].

Definition _isWarning (stderr : string) : bool :=
  existsb (fun warning => includes stderr warning) warnings.

(** [/(\d+)x(\d+)/] *)
Definition size_re : list Regex.item :=
  [ Regex.Cap is_digit; Regex.Lit "x"%char; Regex.Cap is_digit ].

(** [getScreenSize()] after the [await]: [output] is what [wm size]
    printed. *)
Definition getScreenSize (output : string) : Res (Z * Z) :=
  match Regex.exec size_re output with
  | Some [w; h] => Ok (parseInt w, parseInt h)
  | _ => Throw (Error "Could not determine screen size")
  end.

End ADB.

(** * The vocabulary of the properties *)

Module Props.
Import JS Model.

(** ** Trees *)

(** Depth first, a node before its children, children in their order. *)
Fixpoint preorder (n : node) : list node :=
  n :: (fix each (l : list node) : list node :=
          match l with
          | [] => []
          | child :: l' => preorder child ++ each l'
          end) (children n).

(** The number of [node] elements of a dump, below and including [x]. *)
Fixpoint xsize (x : xelem) : nat :=
  S ((fix each (l : list xelem) : nat :=
        match l with
        | [] => O
        | child :: l' => (xsize child + each l')%nat
        end) (x_node x)).

(** The node reached from [n] by taking, at each step, the child of the
    given position. *)
Fixpoint at_path (n : node) (p : list nat) : option node :=
  match p with
  | [] => Some n
  | i :: p' =>
      match children n !! i with
      | Some child => at_path child p'
      | None => None
      end
  end.

(** ** Parsed nodes *)

(** The attribute fields of a node and the value each takes when the
    dump does not give one. *)
Definition field_defaults : list (string * string) :=
  [ ("class", "android.view.View"); ("resource-id", ""); ("text", "");
    ("content-desc", ""); ("bounds", "[0,0][0,0]"); ("index", "0");
    ("package", ""); ("clickable", "false"); ("long-clickable", "false");
    ("enabled", "true"); ("selected", "false"); ("focused", "false");
    ("focusable", "false"); ("scrollable", "false"); ("checkable", "false");
    ("checked", "false"); ("password", "false"); ("visible-to-user", "true") ].

(** The boolean flags among them. *)
Definition flag_fields : list string :=
  [ "clickable"; "long-clickable"; "enabled"; "selected"; "focused"; "focusable";
    "scrollable"; "checkable"; "checked"; "password"; "visible-to-user" ].

(** The attribute object [processNode] reads: [node.$ || {}]. *)
Definition attrs_of (x : xelem) : gmap string string := default ∅ (x_attrs x).

(** The children of a parsed node, as a map over the child elements. *)
Definition process_children (l : list xelem) (childId : Z) : list node :=
  imap (fun j child => XmlParser.processNode child (childId + Z.of_nat j)) l.

(** What the parser can return, at the root or below it. *)
Definition from_parser (n : node) : Prop :=
  n = XmlParser.fallback \/ exists x id, n = XmlParser.processNode x id.

(** [n] renders the element [x]: each attribute field of [n] is the
    attribute of [x] when [x] has it with a value that is not empty, and
    the default of the field otherwise; and the children of [n] render the
    child elements of [x], one for one and in order. *)
Inductive mirrors : xelem -> node -> Prop :=
| mirrors_node (x : xelem) (n : node) :
    (forall k d, (k, d) ∈ field_defaults ->
       get n k = Str (match attrs_of x !! k with
                      | Some v => if String.eqb v "" then d else v
                      | None => d
                      end)) ->
    Forall2 mirrors (x_node x) (children n) ->
    mirrors x n.

(** The degraded answer: one node, no children, and the marker in its
    text and description. *)
Definition degraded (n : node) : Prop :=
  children n = [] /\
  get n "text" = Str "UI Parsing Failed - Please refresh" /\
  get n "content-desc" = Str "UI hierarchy could not be parsed".

(** A dump for the identifier scheme: a root with 1001 children, the
    first of which has a child of its own. *)
Definition leaf : xelem := XElem (Some {[ "class" := "android.view.View" ]}) [].
Definition first_child : xelem :=
  XElem (Some {[ "class" := "android.widget.LinearLayout" ]}) [leaf].
Definition wide_dump : xelem :=
  XElem (Some {[ "class" := "android.widget.FrameLayout" ]})
        (first_child :: replicate 1000 leaf).

(** ** Searching *)

(** The nodes of [l] that the selector accepts, in the order of [l]; the
    first exception of a match, if one throws. *)
Fixpoint select (host : Host) (selector : selector) (l : list node) : Res (list node) :=
  match l with
  | [] => Ok []
  | n :: l' =>
      match Selector._matchesSelector host n selector with
      | Throw e => Throw e
      | Ok found =>
          match select host selector l' with
          | Throw e => Throw e
          | Ok r => Ok (if found then n :: r else r)
          end
      end
  end.

Definition accepts (host : Host) (selector : selector) (n : node) : bool :=
  match Selector._matchesSelector host n selector with
  | Ok true => true
  | _ => false
  end.

(** The shorthand [[attr*=v]] *)
Definition shorthand (attr v : string) : string := "[" +:+ attr +:+ "*=" +:+ v +:+ "]".

(** ** Flags *)

Definition flag_string (v : val) : Prop := v = Str "true" \/ v = Str "false".

(** An object selector of [clickable] and [enabled] entries with boolean
    values. *)
Definition boolean_flags (entries : list (string * val)) : Prop :=
  Forall (fun e => (e.1 = "clickable" \/ e.1 = "enabled") /\ exists b, e.2 = Bool b) entries.

(** ** Waiting *)

(** What one poll answers on the hierarchy [h]: the part of [probe]
    after the hierarchy is there. *)
Definition answer (host : Host) (selector : selector) (visible hidden : bool) (h : node)
    : Res (option Element.AndroidElement) :=
  match Selector._searchElements host h selector [] with
  | Throw e => Throw e
  | Ok elements =>
      match Device.construct_all elements with
      | Throw e => Throw e
      | Ok els =>
          match head els with
          | None => Ok None
          | Some el =>
              if hidden then (if negb (Element.isVisible el) then Ok (Some el) else Ok None)
              else if negb visible || Element.isVisible el then Ok (Some el)
              else Ok None
          end
      end
  end.

(** The hierarchies a wait can meet from the world [w] on: the cached
    one and the parse of any capture. *)
Definition met (host : Host) (env : Device.Env) (w : Device.World) (h : node) : Prop :=
  Device._uiHierarchy w = Some h \/
  exists k, XmlParser.parseUIHierarchy host (Str (Device.dump env k)) = Ok h.

(** One poll on [h] hands nothing back. *)
Definition unanswered (host : Host) (selector : selector) (visible hidden : bool)
    (h : node) : Prop :=
  forall el, answer host selector visible hidden h <> Ok (Some el).

(** The cache holds nothing that a poll would hand back. *)
Definition calm (host : Host) (selector : selector) (visible hidden : bool)
    (w : Device.World) : Prop :=
  forall h, Device._uiHierarchy w = Some h -> unanswered host selector visible hidden h.

(** The condition of the wait never becomes satisfied. *)
Definition never_satisfied (host : Host) (env : Device.Env) (w : Device.World)
    (selector : selector) (options : Device.Options) : Prop :=
  forall h, met host env w h ->
  unanswered host selector
    (negb (strict_eq (Device.visible options) (Bool false)))
    (strict_eq (Device.hidden options) (Bool true)) h.

(** The world after a capture that started at [w] and stored [h]. *)
Definition refreshed (env : Device.Env) (w : Device.World) (h : node) : Device.World :=
  {| Device.now := Device.now w + Device.capture_ms env (Device.captures w);
     Device.captures := S (Device.captures w);
     Device.timers := Device.timers w;
     Device._uiHierarchy := Some h;
     Device._lastUIUpdate := Device.now w |}.

(** Captures take between [0] and [c] milliseconds and timers overshoot
    by between [0] and [l]. *)
Definition paced (env : Device.Env) (c l : Z) : Prop :=
  forall k, 0 <= Device.capture_ms env k <= c /\ 0 <= Device.timer_lag env k <= l.

(** ** Sample hosts, devices and nodes *)

(** A host whose XML parser rejects every text. *)
Definition deaf_host : Host :=
  {| xml2js_parseString := fun _ => XErr "Unexpected end";
     toLowerCase := fun s => s;
     RegExp_i := fun _ => Throw (SyntaxError "Invalid regular expression");
     JSON_stringify := fun _ => "{}" |}.

(** A host whose XML parser reads every text as a hierarchy with the
    one [button] below. *)
Definition button_host (button : xelem) : Host :=
  {| xml2js_parseString := fun _ =>
       XResult (Some {| hierarchy := Some {| h_node := [button] |} |});
     toLowerCase := fun s => s;
     RegExp_i := fun _ => Throw (SyntaxError "Invalid regular expression");
     JSON_stringify := fun _ => "{}" |}.

(** A device that answers at once, and one whose captures take five
    seconds. *)
Definition instant : Device.Env :=
  {| Device.dump := fun _ => "<hierarchy"; Device.capture_ms := fun _ => 0;
     Device.timer_lag := fun _ => 0 |}.
Definition slow : Device.Env :=
  {| Device.dump := fun _ => "<hierarchy"; Device.capture_ms := fun _ => 5000;
     Device.timer_lag := fun _ => 0 |}.

Definition half_second : Device.Options :=
  {| Device.timeout := Some 500; Device.visible := Undefined; Device.hidden := Undefined |}.

(** A button of the dump, with the text [foobar]. *)
Definition button : xelem :=
  XElem (Some (list_to_map [ ("class", "android.widget.Button"); ("text", "foobar");
                             ("resource-id", "com.app:id/ok"); ("index", "2");
                             ("bounds", "[0,0][100,50]") ])) [].

(** Three buttons under one root, with the texts OK, Cancel, OK. *)
Definition labelled (text : string) : xelem :=
  XElem (Some (list_to_map [ ("class", "android.widget.Button"); ("text", text) ])) [].
Definition three_buttons : xelem :=
  XElem (Some {[ "class" := "android.widget.LinearLayout" ]})
        [labelled "OK"; labelled "Cancel"; labelled "OK"].

(** An element whose [class] attribute is there and empty. *)
Definition unnamed : xelem := XElem (Some {[ "class" := "" ]}) [].

End Props.

(** * The vocabulary of the further properties *)

Module Terms.
Import JS Model Props.

Definition quote_marks : list string := [""; str [dquote]; str [squote]].

(** The nodes of [l] that pass [test], in the order of [l]; the first
    exception of a test, if one throws. *)
Fixpoint keep (test : node -> Res bool) (l : list node) : Res (list node) :=
  match l with
  | [] => Ok []
  | n :: l' =>
      match test n with
      | Throw e => Throw e
      | Ok found =>
          match keep test l' with
          | Throw e => Throw e
          | Ok r => Ok (if found then n :: r else r)
          end
      end
  end.

Definition passes (test : node -> Res bool) (n : node) : bool :=
  match test n with Ok true => true | _ => false end.

(** The test of one step of a path query. *)
Definition step_test (step : string) (n : node) : Res bool :=
  Selector._matchesXPathElement n (Selector.split_step step).1 (Selector.split_step step).2.

(** Whether a step named [name] takes a node by its class. *)
Definition named (name : string) (n : node) : bool :=
  String.eqb name "*" ||
  match get n "class" with
  | Str c => includes c name
  | _ => false
  end.

(** The predicate [@text="v"] *)
Definition text_is (v : string) : string :=
  "@text=" +:+ str [dquote] +:+ v +:+ str [dquote].

(** The text [[a,b][c,d]] *)
Definition bounds_text (a b c d : N) : string :=
  "[" +:+ string_of_N a +:+ "," +:+ string_of_N b +:+ "][" +:+
  string_of_N c +:+ "," +:+ string_of_N d +:+ "]".

(** A string selector that both matchers read the same way: an id, a
    class part, or a text without dot that is not in brackets. *)
Definition plain (s : string) : Prop :=
  startsWith s "#" = true \/ startsWith s "." = true \/
  (includes s "." = false /\ (startsWith s "[" && endsWith s "]") = false).

(** Whether a node shows a text: its text is a string with something
    else than white space in it. *)
Definition shown (n : node) : bool :=
  match get n "text" with
  | Str s => negb (String.eqb (trim s) "")
  | _ => false
  end.

(** What a wait promises about the element it returns. *)
Definition wanted (host : Host) (sel : selector) (visible hidden : bool)
    (el : Element.AndroidElement) : Prop :=
  Selector._matchesSelector host (Element._data el) sel = Ok true /\
  (hidden = true -> Element.isVisible el = false) /\
  (hidden = false -> visible = true -> Element.isVisible el = true).

(** Every ampersand of [l] is followed by the rest of an entity. *)
Fixpoint amps_escaped (l : list ascii) : bool :=
  match l with
  | [] => true
  | c :: l' =>
      (if Ascii.eqb c "&"%char then XmlParser.entity_ahead l' else true) && amps_escaped l'
  end.

(** No element below and including [x] has more than 999 child
    elements. *)
Fixpoint narrow (x : xelem) : bool :=
  (length (x_node x) <=? 999)%nat &&
  (fix each (l : list xelem) : bool :=
     match l with
     | [] => true
     | child :: l' => narrow child && each l'
     end) (x_node x).

(** The identifier the parser gives to the node at the end of the path
    [p] from a node of identifier [id]. *)
Definition path_id (id : Z) (p : list nat) : Z :=
  fold_left (fun d i => d * 1000 + 1 + Z.of_nat i) p id.

(** The characters [type] rewrites. *)
Definition rewritten : list ascii := [squote; " "; "&"; "$"]%char.

(** What [pm list packages] prints for the packages [names], one line
    each. *)
Fixpoint listing (names : list string) : string :=
  match names with
  | [] => ""
  | [name] => "package:" +:+ name
  | name :: names' => "package:" +:+ name +:+ str [Device.newline] +:+ listing names'
  end.

(** ** Regular expressions and their flags *)

(** The flags of a regular expression, read off what [String()] makes
    of it: what follows the last slash. *)
Fixpoint before_slash (l : list ascii) : list ascii :=
  match l with
  | [] => []
  | c :: l' => if Ascii.eqb c "/"%char then [] else c :: before_slash l'
  end.

Definition flags (repr : string) : list ascii := rev (before_slash (rev (chars repr))).

(** A regular expression with the [g] or the [y] flag. *)
Definition keeps_position (v : val) : bool :=
  match v with
  | RegExp repr _ =>
      existsb (fun c => Ascii.eqb c "g"%char || Ascii.eqb c "y"%char) (flags repr)
  | _ => false
  end.

(** A selector that holds no such expression: what it accepts does not
    depend on what it was asked before. *)
Definition stateless (sel : selector) : Prop :=
  match sel with
  | SelObject entries => Forall (fun e => keeps_position e.2 = false) entries
  | _ => True
  end.

(** An object selector of [Model] among the selectors of [Sticky]. *)
Definition plain_entries (entries : list (string * val)) : list (string * Sticky.value) :=
  (fun e => (e.1, Sticky.Plain e.2)) <$> entries.

(** Where the first occurrence of [needle] in [l] starts, if there is
    one. *)
Fixpoint first_at (needle l : list ascii) : option nat :=
  if bool_decide (needle `prefix_of` l) then Some O
  else match l with
       | [] => None
       | _ :: l' => S <$> first_at needle l'
       end.

(** The expression [/Button/g]: it finds the next [Button] from the
    position on. *)
Definition Button_g : Sticky.regexp :=
  {| Sticky.repr := "/Button/g";
     Sticky.scan := fun s i =>
       (fun p => (i + p + 6)%nat) <$> first_at (chars "Button") (drop i (chars s)) |}.

(** ** Dumps *)

(** The number of [node] elements of a dump. *)
Definition elements (h : xhierarchy) : nat := list_sum (xsize <$> h_node h).

(** A host whose XML parser reads every text as a hierarchy with the
    elements [roots] below it. *)
Definition roots_host (roots : list xelem) : Host :=
  {| xml2js_parseString := fun _ =>
       XResult (Some {| hierarchy := Some {| h_node := roots |} |});
     toLowerCase := fun s => s;
     RegExp_i := fun _ => Throw (SyntaxError "Invalid regular expression");
     JSON_stringify := fun _ => "{}" |}.

(** An element with the index [2 ^ 53 - 1]. *)
Definition far_sibling : xelem :=
  XElem (Some {[ "index" := "9007199254740991" ]}) [].

(** ** Waiting for a function *)

(** [h] was in the cache of the world [w], or is the parse of a capture
    made between [w] and [w']. *)
Definition read_between (host : Host) (env : Device.Env) (w w' : Device.World) (h : node)
    : Prop :=
  Device._uiHierarchy w = Some h \/
  exists k, (Device.captures w <= k < Device.captures w')%nat /\
            XmlParser.parseUIHierarchy host (Str (Device.dump env k)) = Ok h.

End Terms.

(** * Properties *)

(** ** Strings *)

Module StringFacts.
Import JS.

Lemma chars_app (a b : string) : chars (a +:+ b) = chars a ++ chars b.
Proof. induction a as [|c a IH]; simpl; [done | by rewrite <- IH]. Qed.

Lemma str_chars (s : string) : str (chars s) = s.
Proof. apply String.string_of_list_ascii_of_string. Qed.

Lemma chars_str (l : list ascii) : chars (str l) = l.
Proof. apply String.list_ascii_of_string_of_list_ascii. Qed.

Lemma chars_inj (a b : string) : chars a = chars b -> a = b.
Proof. intros H. rewrite <- (str_chars a), <- (str_chars b). by rewrite H. Qed.

Lemma str_app (a b : list ascii) : str (a ++ b) = str a +:+ str b.
Proof. apply chars_inj. by rewrite chars_app, !chars_str. Qed.

(** [endsWith] is: some string followed by the suffix. *)
Lemma endsWith_spec (s x : string) :
  endsWith s x = true <-> exists p, s = p +:+ x.
Proof.
  unfold endsWith. rewrite bool_decide_eq_true. split.
  - intros [k Hk]. exists (str k). apply chars_inj.
    by rewrite chars_app, chars_str.
  - intros [p ->]. exists (chars p). apply chars_app.
Qed.

Lemma startsWith_spec (s p : string) :
  startsWith s p = true <-> exists r, s = p +:+ r.
Proof.
  unfold startsWith. rewrite bool_decide_eq_true. split.
  - intros [k Hk]. exists (str k). apply chars_inj.
    by rewrite chars_app, chars_str.
  - intros [r ->]. exists (chars r). apply chars_app.
Qed.

Lemma includes_at_spec (l x : list ascii) :
  includes_at l x = true <-> exists a b, l = a ++ x ++ b.
Proof.
  induction l as [|c l IH]; simpl.
  - rewrite orb_false_r, bool_decide_eq_true. split.
    + intros [k Hk]. by exists [], k.
    + intros (a & b & H). symmetry in H.
      apply app_eq_nil in H as [-> H]. apply app_eq_nil in H as [-> _].
      by exists [].
  - rewrite orb_true_iff, bool_decide_eq_true, IH. split.
    + intros [[k Hk] | (a & b & ->)].
      * by exists [], k.
      * by exists (c :: a), b.
    + intros (a & b & H). destruct a as [|c' a]; simpl in H.
      * left. by exists b.
      * right. injection H as _ ->. by exists a, b.
Qed.

(** [includes] is: the needle with something before and something after. *)
Lemma includes_spec (s x : string) :
  includes s x = true <-> exists a b, s = a +:+ x +:+ b.
Proof.
  unfold includes. rewrite includes_at_spec. split.
  - intros (a & b & H). exists (str a), (str b). apply chars_inj.
    by rewrite !chars_app, !chars_str.
  - intros (a & b & ->). exists (chars a), (chars b). by rewrite !chars_app.
Qed.

Lemma strict_eq_Str (v : val) (s : string) :
  strict_eq v (Str s) = true <-> v = Str s.
Proof.
  destruct v; simpl; try (split; [discriminate | discriminate]).
  rewrite String.eqb_eq. split; [by intros -> | by intros [= ->]].
Qed.

End StringFacts.

(** ** The parser *)

Module ParserFacts.
Import JS Model XmlParser StringFacts Props.

Lemma own_processNode (x : xelem) (id : Z) :
  own (processNode x id) =
  <["selector" := Str (generateSelector (list_to_map (processed_fields (attrs_of x) id)))]>
    (list_to_map (processed_fields (attrs_of x) id)).
Proof. by destruct x. Qed.

Lemma processed_fields_NoDup (a : gmap string string) (id : Z) :
  NoDup (processed_fields a id).*1.
Proof. apply (bool_decide_unpack _). by vm_compute. Qed.

Lemma processed_fields_lookup (a : gmap string string) (id : Z) (k d : string) :
  (k, d) ∈ field_defaults ->
  (k, Str (attr_or a k d)) ∈ processed_fields a id /\ k <> "selector".
Proof.
  intros H. unfold field_defaults in H.
  repeat (apply elem_of_cons in H as [[= -> ->] | H];
          [split; [unfold processed_fields;
                   repeat first [apply list_elem_of_here | apply list_elem_of_further]
                  | discriminate] |]).
  by apply elem_of_nil in H.
Qed.

(** Every attribute field of a parsed node is a string: the attribute of
    the dump when it has one that is not empty, the default otherwise. *)
Lemma processNode_field (x : xelem) (id : Z) (k d : string) :
  (k, d) ∈ field_defaults ->
  get (processNode x id) k = Str (attr_or (attrs_of x) k d).
Proof.
  intros H. apply (processed_fields_lookup (attrs_of x) id) in H as [H Hk].
  unfold get. rewrite own_processNode, lookup_insert_ne by done.
  by rewrite (elem_of_list_to_map_1 _ _ _ (processed_fields_NoDup _ _) H).
Qed.

Lemma processNode_id (x : xelem) (id : Z) : get (processNode x id) "id" = Num id.
Proof.
  unfold get. rewrite own_processNode. unfold processed_fields.
  rewrite lookup_insert_ne by done. by rewrite list_to_map_cons, lookup_insert_eq.
Qed.

Lemma processNode_attributes (x : xelem) (id : Z) :
  attributes (processNode x id) = Some (attrs_of x).
Proof. by destruct x. Qed.

(** The children of a parsed node are the parsed children of the
    element, numbered from [id * 1000 + 1] on. *)
Lemma processNode_children (x : xelem) (id : Z) :
  children (processNode x id) = process_children (x_node x) (id * 1000 + 1).
Proof.
  destruct x as [a l]. simpl. unfold process_children.
  generalize (id * 1000 + 1). induction l as [|c l IH]; intros z; simpl; [done|].
  rewrite Z.add_0_r. f_equal. rewrite IH. apply imap_ext. intros j y _. simpl.
  f_equal. lia.
Qed.

(** Every node the parser builds has a string for its resource id. *)
Lemma parsed_resource_id (n : node) :
  from_parser n -> exists rid, get n "resource-id" = Str rid.
Proof.
  intros [-> | (x & id & ->)]; [by exists "" |].
  eexists. apply (processNode_field x id "resource-id" "").
  unfold field_defaults. apply list_elem_of_further, list_elem_of_here.
Qed.

End ParserFacts.

Module TreeFacts.
Import JS Model XmlParser Props ParserFacts.

(** Induction over a dump, with the property at hand for every child. *)
Lemma xelem_forall_ind (P : xelem -> Prop) :
  (forall a l, Forall P l -> P (XElem a l)) -> forall x, P x.
Proof.
  intros step. fix IH 1. intros [a l]. apply step.
  induction l as [|c l IHl]; constructor; [apply IH | exact IHl].
Qed.

Lemma node_forall_ind (P : node -> Prop) :
  (forall o a b l, Forall P l -> P (Node o a b l)) -> forall n, P n.
Proof.
  intros step. fix IH 1. intros [o a b l]. apply step.
  induction l as [|c l IHl]; constructor; [apply IH | exact IHl].
Qed.

Lemma preorder_unfold (n : node) :
  preorder n = n :: flat_map preorder (children n).
Proof.
  by destruct n.
Qed.

Lemma xsize_unfold (x : xelem) :
  xsize x = S (list_sum (xsize <$> x_node x)).
Proof.
  destruct x as [a l]. simpl. f_equal.
  induction l as [|c l IH]; simpl; [done | by rewrite IH].
Qed.

Lemma process_children_cons (c : xelem) (l : list xelem) (z : Z) :
  process_children (c :: l) z = processNode c z :: process_children l (z + 1).
Proof.
  unfold process_children. simpl. rewrite Z.add_0_r. f_equal.
  apply imap_ext. intros j y _. simpl. f_equal. lia.
Qed.

Lemma processNode_child (x : xelem) (id : Z) (j : nat) :
  children (processNode x id) !! j =
  (fun c => processNode c (id * 1000 + 1 + Z.of_nat j)) <$> x_node x !! j.
Proof. rewrite processNode_children. apply list_lookup_imap. Qed.

Lemma at_path_step (n c : node) (i : nat) (p : list nat) :
  children n !! i = Some c -> at_path n (i :: p) = at_path c p.
Proof. intros H. simpl. by rewrite H. Qed.

Lemma mirrors_children (l : list xelem) :
  Forall (fun c => forall id, mirrors c (processNode c id)) l ->
  forall z, Forall2 mirrors l (process_children l z).
Proof.
  induction 1 as [|c l Hc _ IH]; intros z; [constructor|].
  rewrite process_children_cons. constructor; [apply Hc | apply IH].
Qed.

Lemma processNode_mirrors (x : xelem) : forall id, mirrors x (processNode x id).
Proof.
  induction x as [a l IH] using xelem_forall_ind. intros id. constructor.
  - intros k d Hk. rewrite (processNode_field _ _ _ _ Hk). done.
  - rewrite processNode_children. by apply mirrors_children.
Qed.

Lemma size_children (l : list xelem) :
  Forall (fun c => forall id, length (preorder (processNode c id)) = xsize c) l ->
  forall z, length (flat_map preorder (process_children l z)) = list_sum (xsize <$> l).
Proof.
  induction 1 as [|c l Hc _ IH]; intros z; [done|].
  rewrite process_children_cons. simpl. rewrite length_app, Hc, IH. done.
Qed.

Lemma processNode_size (x : xelem) :
  forall id, length (preorder (processNode x id)) = xsize x.
Proof.
  induction x as [a l IH] using xelem_forall_ind. intros id.
  rewrite preorder_unfold, xsize_unfold, processNode_children. simpl.
  f_equal. by apply size_children.
Qed.

(** Whatever the parser returns is a parsed node, all the way down. *)
Lemma from_parser_children (n : node) :
  from_parser n -> Forall from_parser (children n).
Proof.
  intros [-> | (x & id & ->)]; [constructor|].
  rewrite processNode_children. unfold process_children.
  apply list.Forall_forall. intros c Hc.
  apply list_elem_of_lookup in Hc as [j Hj].
  apply list_lookup_imap_Some in Hj as (y & _ & ->).
  right. eauto.
Qed.

Lemma from_parser_preorder (n : node) :
  from_parser n -> Forall from_parser (preorder n).
Proof.
  induction n as [o a b l IH] using node_forall_ind. intros Hn.
  rewrite preorder_unfold. constructor; [done|].
  pose proof (from_parser_children _ Hn) as Hc. simpl in *. clear Hn.
  induction IH as [|c l Hc1 _ IHl]; simpl; [constructor|].
  inversion Hc; subst. apply Forall_app. split; [by apply Hc1 | by apply IHl].
Qed.

End TreeFacts.

(** ** The selector engine *)

Module SelectorFacts.
Import JS Model Props StringFacts TreeFacts.

Lemma select_app (host : Host) (sel : selector) (l1 l2 : list node) :
  select host sel (l1 ++ l2) =
  match select host sel l1 with
  | Throw e => Throw e
  | Ok r1 => match select host sel l2 with
             | Throw e => Throw e
             | Ok r2 => Ok (r1 ++ r2)
             end
  end.
Proof.
  induction l1 as [|n l1 IH]; simpl.
  - by destruct (select host sel l2).
  - destruct (Selector._matchesSelector host n sel) as [found|e]; [|done].
    rewrite IH. destruct (select host sel l1) as [r1|e]; [|done].
    destruct (select host sel l2) as [r2|e]; [|done].
    by destruct found.
Qed.

(** When no match throws, [select] is the filter. *)
Lemma select_filter (host : Host) (sel : selector) (l r : list node) :
  select host sel l = Ok r -> r = filter (fun n => accepts host sel n = true) l.
Proof.
  revert r. induction l as [|n l IH]; intros r H; simpl in H.
  - by injection H as <-.
  - destruct (Selector._matchesSelector host n sel) as [found|e] eqn:E; [|done].
    destruct (select host sel l) as [r'|e]; [|done].
    injection H as <-. rewrite (IH r' eq_refl).
    destruct found.
    + rewrite filter_cons_True; [done|]. unfold accepts. by rewrite E.
    + rewrite filter_cons_False; [done|]. unfold accepts. by rewrite E.
Qed.

(** The loop over the children inside [_searchElements]. *)
Lemma search_children (host : Host) (sel : selector) (l : list node) :
  Forall (fun c => forall results,
            Selector._searchElements host c sel results =
            (fun r => results ++ r) <$> select host sel (preorder c)) l ->
  forall results,
    (fix each (l : list node) (results : list node) : Res (list node) :=
       match l with
       | [] => Ok results
       | child :: l' =>
           match Selector._searchElements host child sel results with
           | Ok results => each l' results
           | Throw e => Throw e
           end
       end) l results =
    (fun r => results ++ r) <$> select host sel (flat_map preorder l).
Proof.
  induction 1 as [|c l Hc _ IH]; intros results; simpl.
  - by rewrite app_nil_r.
  - rewrite Hc, select_app.
    destruct (select host sel (preorder c)) as [r1|e]; simpl; [|done].
    rewrite IH. destruct (select host sel (flat_map preorder l)) as [r2|e]; simpl; [|done].
    by rewrite app_assoc.
Qed.

(** [_searchElements] appends to [results] the accepted nodes of the
    tree in pre-order, or throws what the first throwing match throws. *)
Lemma _searchElements_preorder (host : Host) (sel : selector) (n : node) :
  forall results,
    Selector._searchElements host n sel results =
    (fun r => results ++ r) <$> select host sel (preorder n).
Proof.
  induction n as [o a b l IH] using node_forall_ind. intros results.
  rewrite preorder_unfold. simpl.
  destruct (Selector._matchesSelector host (Node o a b l) sel) as [found|e]; [|done].
  rewrite (search_children host sel l IH).
  destruct (select host sel (flat_map preorder l)) as [r|e]; simpl; [|done].
  destruct found; [by rewrite <- app_assoc | done].
Qed.

Lemma construct_all_data (l : list node) (els : list Element.AndroidElement) :
  Device.construct_all l = Ok els -> Element._data <$> els = l.
Proof.
  revert els. induction l as [|n l IH]; simpl; intros els H.
  - by injection H as <-.
  - unfold Element.construct in H.
    destruct (Element._parseBounds _) as [r|e]; [|done].
    destruct (Device.construct_all l) as [els'|e]; [|done].
    injection H as <-. rewrite fmap_cons. by rewrite (IH els' eq_refl).
Qed.

(** The [resourceId] case of the object matcher. *)
Lemma match_resourceId (host : Host) (n : node) (x : string) :
  Selector._matchObjectSelector host n [("resourceId", Str x)] =
  if strict_eq (get n "resource-id") (Str x) then Ok true
  else (fun b : bool => b) <$> opt_endsWith (get n "resource-id") (":id/" +:+ x).
Proof.
  unfold Selector._matchObjectSelector. simpl.
  change (Selector.match_entry host n "resourceId" (Str x))
    with (if strict_eq (get n "resource-id") (Str x) then Ok true
          else opt_endsWith (get n "resource-id") (":id/" +:+ x)).
  destruct (strict_eq _ _); [done|].
  by destruct (opt_endsWith _ _) as [[]|].
Qed.

(** Scenario: three buttons OK, Cancel, OK. The selector [{text: "OK"}]
    finds the first and the third, in that order. *)
Example find_all_OK :
  match Selector._searchElements deaf_host (XmlParser.processNode three_buttons 0)
          (SelObject [("text", Str "OK")]) [] with
  | Ok found => Some (map (fun n => get n "id") found)
  | Throw _ => None
  end = Some [Num 1; Num 3].
Proof. by vm_compute. Qed.

End SelectorFacts.

(** ** The device *)

Module DeviceFacts.
Import JS Model Props StringFacts ParserFacts TreeFacts Device.

(** On a string the parser always returns, and returns a parsed node. *)
Lemma parse_total (host : Host) (s : string) :
  exists n, XmlParser.parseUIHierarchy host (Str s) = Ok n /\ from_parser n.
Proof.
  unfold XmlParser.parseUIHierarchy.
  destruct (XmlParser.parse_attempt host (Str s)) as [n|e] eqn:E; simpl.
  - exists n. split; [done|]. right.
    unfold XmlParser.parse_attempt in E.
    destruct (XmlParser.cleanXMLString (Str s)) as [c|]; simpl in E; [|done].
    destruct (xml2js_parseString host c) as [m|r]; [done|].
    destruct (r ≫= hierarchy) as [[[|root l]]|]; try done.
    injection E as <-. eauto.
  - exists XmlParser.fallback. split; [done | by left].
Qed.

Lemma refresh_spec (host : Host) (env : Env) (w : World) :
  exists h, XmlParser.parseUIHierarchy host (Str (dump env (captures w))) = Ok h /\
            from_parser h /\
            refresh host env (now w) w = (Ok h, refreshed env w h).
Proof.
  destruct (parse_total host (dump env (captures w))) as (h & Hh & Hp).
  exists h. split; [done|]. split; [done|].
  unfold refresh, bind, adb_getUIHierarchy, lift, store, ret. simpl.
  by rewrite Hh.
Qed.

Lemma stale_spec (forceRefresh : bool) (w : World) :
  stale forceRefresh (now w) w = true <->
  _uiHierarchy w = None \/ forceRefresh = true \/ 1000 < now w - _lastUIUpdate w.
Proof.
  unfold stale. rewrite !orb_true_iff, negb_true_iff, bool_decide_eq_false, Z.ltb_lt.
  rewrite <- eq_None_not_Some. tauto.
Qed.

(** [getUIHierarchy] either captures and stores, or hands out the cache
    and leaves the world alone. *)
Lemma getUIHierarchy_spec (host : Host) (env : Env) (forceRefresh : bool) (w : World) :
  (stale forceRefresh (now w) w = true /\
   exists h, XmlParser.parseUIHierarchy host (Str (dump env (captures w))) = Ok h /\
             from_parser h /\
             getUIHierarchy host env forceRefresh w = (Ok h, refreshed env w h)) \/
  (stale forceRefresh (now w) w = false /\
   exists h, _uiHierarchy w = Some h /\
             getUIHierarchy host env forceRefresh w = (Ok h, w)).
Proof.
  unfold getUIHierarchy, bind, Date_now.
  destruct (stale forceRefresh (now w) w) eqn:E.
  - left. split; [done|]. destruct (refresh_spec host env w) as (h & ? & ? & ?). eauto.
  - right. split; [done|]. unfold stale in E.
    destruct (_uiHierarchy w) as [h|]; [eauto | done].
Qed.

End DeviceFacts.

(** ** Path-query predicates *)

Module PredicateFacts.
Import JS Model Props StringFacts.

Lemma uint_digits (d : Decimal.uint) :
  Forall (fun c => is_digit c = true) (chars (NilEmpty.string_of_uint d)).
Proof. induction d; simpl; by constructor. Qed.

Lemma decimal_written (n : N) : decimal (string_of_N n) = Z.of_N n.
Proof.
  unfold decimal, string_of_N. by rewrite NilEmpty.usu, DecimalN.Unsigned.of_to.
Qed.

(** Up to [2 ^ 53] in size an integer is a double: nothing is rounded. *)
Lemma to_double_exact (z : Z) : Z.abs z <= 2 ^ 53 -> to_double z = z.
Proof.
  intros H. unfold to_double.
  destruct (Z.eq_dec (Z.abs z) (2 ^ 53)) as [E | N].
  - destruct (Z.abs_spec z) as [[_ A] | [_ A]]; rewrite A in E.
    + by subst z.
    + by assert (z = - 2 ^ 53) as -> by lia.
  - assert (Z.log2 (Z.abs z) - 52 <= 0) as L.
    { destruct (Z.eq_dec (Z.abs z) 0) as [-> | N0]; [simpl; lia|].
      assert (Z.log2 (Z.abs z) < 53); [|lia].
      apply Z.log2_lt_pow2; lia. }
    apply Z.leb_le in L. cbv zeta. by rewrite L.
Qed.

Lemma read_written (n : N) : (n <= 2 ^ 53)%N -> parseInt (string_of_N n) = Z.of_N n.
Proof.
  intros H. unfold parseInt. rewrite decimal_written. apply to_double_exact. lia.
Qed.

Lemma written_nonempty (p : positive) : chars (string_of_N (Npos p)) <> [].
Proof.
  intros H. pose proof (decimal_written (Npos p)) as R.
  assert (string_of_N (Npos p) = "") as E by (apply chars_inj; by rewrite H).
  rewrite E in R. by vm_compute in R.
Qed.

Lemma all_digits_written (p : positive) : Regex.all_digits (string_of_N (Npos p)) = true.
Proof.
  unfold Regex.all_digits.
  pose proof (written_nonempty p) as Hne. pose proof (uint_digits (N.to_uint (Npos p))) as Hd.
  fold (string_of_N (Npos p)) in Hd.
  destruct (chars (string_of_N (Npos p))) as [|c l]; [done|].
  apply forallb_forall. intros x Hx. rewrite <- list_elem_of_In in Hx.
  by apply (proj1 (list.Forall_forall _ _) Hd).
Qed.

(** A needle with a character that is no digit does not occur in a run
    of digits. *)
Lemma digits_exclude (s x : string) (c : ascii) :
  Forall (fun c => is_digit c = true) (chars s) ->
  c ∈ chars x -> is_digit c = false ->
  includes s x = false.
Proof.
  intros Hd Hc Hn. apply not_true_is_false. rewrite includes_spec.
  intros (a & b & ->). rewrite !chars_app in Hd.
  apply Forall_app in Hd as [_ Hd]. apply Forall_app in Hd as [Hd _].
  rewrite (proj1 (list.Forall_forall _ _) Hd c Hc) in Hn. done.
Qed.

Lemma at_predicate_digits (name : string) (node : node) (s : string) :
  Forall (fun c => is_digit c = true) (chars s) ->
  Selector.at_predicate name node s = None.
Proof.
  intros Hd. unfold Selector.at_predicate.
  rewrite (digits_exclude s _ "@"%char Hd); [done | | done].
  rewrite chars_app. simpl. apply list_elem_of_here.
Qed.

Lemma evaluate_digits (node : node) (s : string) :
  Regex.all_digits s = true ->
  Selector._evaluatePredicate node s =
  strict_eq (get node "index") (Str (string_of_Z (to_double (parseInt s - 1)))).
Proof.
  intros H. unfold Selector._evaluatePredicate.
  assert (Forall (fun c => is_digit c = true) (chars s)) as Hd.
  { unfold Regex.all_digits in H. destruct (chars s) as [|c l]; [done|].
    apply list.Forall_forall. intros x Hx. rewrite list_elem_of_In in Hx.
    by apply (proj1 (forallb_forall _ _) H). }
  rewrite !at_predicate_digits by done. by rewrite H.
Qed.

(** On a run of digits [parseInt] reads a number: the [NaN] of the
    embedding is out of reach of its callers. *)
Lemma digits_are_read (s : string) :
  Forall (fun c => is_digit c = true) (chars s) ->
  exists d, NilEmpty.uint_of_string s = Some d.
Proof.
  induction s as [|c s IH]; intros H; [by eexists|].
  inversion H as [|? ? Hc Hs]; subst. destruct (IH Hs) as [d Hd].
  simpl. rewrite Hd.
  destruct c as [[] [] [] [] [] [] [] []]; try discriminate Hc; by eexists.
Qed.

Lemma until_absent (c : ascii) (l : list ascii) :
  c ∉ l -> Selector.until c l = (l, None).
Proof.
  induction l as [|x l IH]; intros H; [done|]. simpl.
  apply not_elem_of_cons in H as [Hx Hl].
  destruct (Ascii.eqb_spec x c); [congruence|]. by rewrite IH.
Qed.

Lemma until_first (c : ascii) (a b : list ascii) :
  c ∉ a -> Selector.until c (a ++ c :: b) = (a, Some b).
Proof.
  induction a as [|x a IH]; intros H; simpl.
  - by rewrite Ascii.eqb_refl.
  - apply not_elem_of_cons in H as [Hx Ha].
    destruct (Ascii.eqb_spec x c); [congruence|]. by rewrite IH.
Qed.

Lemma digit_not (c : ascii) (l : list ascii) :
  Forall (fun c => is_digit c = true) l -> is_digit c = false -> c ∉ l.
Proof.
  intros Hl Hc Hin. rewrite (proj1 (list.Forall_forall _ _) Hl c Hin) in Hc. done.
Qed.

(** The step [name[digits]] splits into the name and the digits. *)
Lemma split_index_step (name digits : string) :
  "["%char ∉ chars name ->
  Forall (fun c => is_digit c = true) (chars digits) -> digits <> "" ->
  Selector.split_step (name +:+ "[" +:+ digits +:+ "]") = (name, Some digits).
Proof.
  intros Hn Hd Hne. unfold Selector.split_step. rewrite !chars_app.
  change (chars "[") with ["["%char]. change (chars "]") with ["]"%char]. simpl app.
  rewrite until_first by done. rewrite until_absent.
  2:{ apply not_elem_of_app. split; [by apply digit_not|].
      apply not_elem_of_cons. split; [done | apply not_elem_of_nil]. }
  simpl. rewrite str_chars.
  destruct (chars digits ++ ["]"%char]) as [|c0 l0] eqn:E.
  { by destruct (chars digits). }
  rewrite <- E. unfold Selector.remove_first.
  rewrite until_first by (by apply digit_not).
  by rewrite app_nil_r, str_chars.
Qed.

(** In a step the predicate decides once the element name has matched;
    [*] matches every node. *)
Lemma any_element_with_index (node : node) (s : string) :
  Regex.all_digits s = true ->
  Selector._matchesXPathElement node "*" (Some s) = Ok (Selector._evaluatePredicate node s).
Proof.
  intros H. unfold Selector._matchesXPathElement. simpl.
  destruct s as [|c s]; [done | done].
Qed.

End PredicateFacts.

(** ** The element handle *)

Module ElementFacts.
Import JS Model Props StringFacts.

Lemma construct_flags (n : node) (el : Element.AndroidElement) :
  Element.construct n = Ok el ->
  Element.isClickable el = strict_eq (get n "clickable") (Str "true") /\
  Element.isEnabled el = negb (strict_eq (get n "enabled") (Str "false")).
Proof.
  unfold Element.construct. destruct (Element._parseBounds _) as [r|e]; [|done].
  by intros [= <-].
Qed.

Lemma flags_agree (host : Host) (n : node) (el : Element.AndroidElement)
    (k : string) (b : bool) :
  Element.construct n = Ok el ->
  flag_string (get n "clickable") -> flag_string (get n "enabled") ->
  k = "clickable" \/ k = "enabled" ->
  Element.matches_entry host el k (Bool b) = Selector.match_entry host n k (Bool b).
Proof.
  intros Hel Hc He Hk. apply construct_flags in Hel as [Ec Ee].
  destruct Hk as [-> | ->].
  - change (Ok (Bool.eqb (Element.isClickable el) b) =
            Ok (strict_eq (get n "clickable") (Str (ToString (Bool b))))).
    rewrite Ec. by destruct Hc as [-> | ->], b.
  - change (Ok (Bool.eqb (Element.isEnabled el) b) =
            Ok (strict_eq (get n "enabled") (Str (ToString (Bool b))))).
    rewrite Ee. by destruct He as [-> | ->], b.
Qed.

End ElementFacts.

(** ** Waiting *)

Module WaitFacts.
Import JS Model Props StringFacts DeviceFacts Device.

Section Waiting.
Context (host : Host) (env : Env) (sel : selector) (visible hidden : bool).
Context (c l : Z) (pace : paced env c l).
Context (quiet : forall k h, XmlParser.parseUIHierarchy host (Str (dump env k)) = Ok h ->
                             unanswered host sel visible hidden h).

Lemma getUIHierarchy_step (forceRefresh : bool) (w : World) :
  calm host sel visible hidden w ->
  exists h w',
    getUIHierarchy host env forceRefresh w = (Ok h, w') /\
    unanswered host sel visible hidden h /\ calm host sel visible hidden w' /\
    now w <= now w' <= now w + c /\ timers w' = timers w.
Proof.
  intros Hw. destruct (pace (captures w)) as [Hc _].
  destruct (getUIHierarchy_spec host env forceRefresh w)
    as [(_ & h & Hp & _ & Hg) | (_ & h & Hc' & Hg)].
  - exists h, (refreshed env w h). split; [done|].
    split; [by apply (quiet _ _ Hp)|]. split.
    + intros h' [= <-]. by apply (quiet _ _ Hp).
    + simpl. lia.
  - exists h, w. split; [done|]. split; [by apply Hw|]. split; [done|]. lia.
Qed.

(** One poll answers nothing and costs at most one capture. *)
Lemma probe_step (w : World) :
  calm host sel visible hidden w ->
  exists r w',
    try_ (probe host env sel visible hidden) w = (Ok r, w') /\
    (r = None \/ r = Some None) /\ calm host sel visible hidden w' /\
    now w <= now w' <= now w + c /\ timers w' = timers w.
Proof.
  intros Hw. destruct (getUIHierarchy_step false w Hw) as (h & w' & Hg & Hh & Hw' & Ht).
  assert (probe host env sel visible hidden w = (answer host sel visible hidden h, w')) as Hp.
  { unfold probe, findElement, findElements, bind, lift, ret. rewrite Hg.
    unfold answer.
    destruct (Selector._searchElements host h sel []) as [ms|e]; [|done].
    destruct (construct_all ms) as [els|e]; [|done].
    destruct (head els) as [el|]; [|done].
    destruct hidden; [by destruct (negb (Element.isVisible el))|].
    by destruct (negb visible || Element.isVisible el). }
  unfold try_. rewrite Hp.
  destruct (answer host sel visible hidden h) as [[el|]|e] eqn:E.
  - by destruct (Hh el).
  - exists (Some None), w'. auto.
  - exists None, w'. auto.
Qed.

Lemma loop_exit (fuel : nat) (start timeout : Z) (w : World) :
  timeout <= now w - start ->
  wait_loop host env (S fuel) sel timeout visible hidden start w = (Throw (not_found host sel timeout), w).
Proof.
  intros H. simpl. unfold bind, Date_now, throw.
  by rewrite (proj2 (Z.ltb_ge _ _) H).
Qed.

(** One turn of the loop: a poll, a timer of 100 ms and, on some turns,
    a forced capture. *)
Lemma loop_turn (start timeout : Z) (w : World) :
  calm host sel visible hidden w -> now w - start < timeout ->
  exists w',
    (forall fuel, wait_loop host env (S fuel) sel timeout visible hidden start w = wait_loop host env fuel sel timeout visible hidden start w') /\
    calm host sel visible hidden w' /\ now w + 100 <= now w' <= now w + 100 + l + 2 * c.
Proof.
  intros Hw Ht.
  destruct (probe_step w Hw) as (r & w1 & Hp & Hr & Hw1 & Ht1 & Hn1).
  destruct (pace (timers w1)) as [_ Hl].
  set (w2 := {| now := now w1 + 100 + timer_lag env (timers w1);
                captures := captures w1; timers := S (timers w1);
                _uiHierarchy := _uiHierarchy w1; _lastUIUpdate := _lastUIUpdate w1 |}).
  assert (calm host sel visible hidden w2) as Hw2 by done.
  destruct (Z.rem (now w2 - start) 2000 <? 100) eqn:E.
  - destruct (getUIHierarchy_step true w2 Hw2) as (h & w3 & Hg & _ & Hw3 & Ht3 & _).
    exists w3. split; [|split; [done | simpl in Ht3; lia]].
    intros fuel. simpl. unfold bind at 1, Date_now at 1.
    rewrite (proj2 (Z.ltb_lt _ _) Ht). unfold bind at 1. rewrite Hp.
    assert (forall k k', match r with Some (Some el) => k el | _ => k' end = k') as ->
      by (intros; by destruct Hr as [-> | ->]).
    unfold bind at 1. unfold wait at 1. fold w2.
    unfold bind at 1, Date_now at 1. rewrite E.
    unfold bind at 1, bind at 1. rewrite Hg. done.
  - exists w2. split; [|split; [done | simpl; lia]].
    intros fuel. simpl. unfold bind at 1, Date_now at 1.
    rewrite (proj2 (Z.ltb_lt _ _) Ht). unfold bind at 1. rewrite Hp.
    assert (forall k k', match r with Some (Some el) => k el | _ => k' end = k') as ->
      by (intros; by destruct Hr as [-> | ->]).
    unfold bind at 1. unfold wait at 1. fold w2.
    unfold bind at 1, Date_now at 1. rewrite E.
    unfold bind at 1, ret. done.
Qed.

(** With enough turns left, the loop ends by throwing, not before the
    timeout and less than one turn after it. *)
Lemma loop_times_out (start timeout : Z) (fuel : nat) :
  forall w,
    calm host sel visible hidden w -> (0 < fuel)%nat ->
    timeout - (now w - start) <= 100 * (Z.of_nat fuel - 1) ->
    exists w',
      wait_loop host env fuel sel timeout visible hidden start w = (Throw (not_found host sel timeout), w') /\
      timeout <= now w' - start /\
      now w' <= Z.max (now w) (start + timeout + 100 + l + 2 * c - 1).
Proof.
  induction fuel as [|fuel IH]; intros w Hw Hf Hr; [lia|].
  destruct (Z_lt_ge_dec (now w - start) timeout) as [Hlt | Hge].
  - destruct (loop_turn start timeout w Hw Hlt) as (w1 & Hloop & Hw1 & Ht1).
    rewrite Hloop.
    destruct (IH w1 Hw1) as (w' & Hl' & Hlo & Hhi); [lia | lia |].
    exists w'. split; [done|]. split; [done|]. lia.
  - exists w. rewrite loop_exit by lia. split; [done|]. split; lia.
Qed.
End Waiting.

End WaitFacts.

(** ** The bracket shorthands *)

Module ShorthandFacts.
Import JS Model Props StringFacts ParserFacts TreeFacts.

(** A greedy group in front of a run of its class that ends where the
    class ends: the group takes the whole run. *)
Lemma grow_takes_run (p : ascii -> bool) (k : list ascii -> option (list string))
    (run rest : list ascii) (r : list string) :
  Forall (fun c => p c = true) run -> run <> [] ->
  match rest with [] => True | c :: _ => p c = false end ->
  k rest = Some r ->
  forall acc, Regex.grow p k acc (run ++ rest) = Some (str (rev acc ++ run) :: r).
Proof.
  intros Hrun Hne Hrest Hk.
  assert (forall acc, Regex.grow p k acc rest = None) as Hstop.
  { intros acc. destruct rest as [|c rest]; simpl; [done | by rewrite Hrest]. }
  induction Hrun as [|c run Hc Hrun IH]; [done|]. intros acc. simpl. rewrite Hc.
  destruct run as [|c' run].
  - simpl. rewrite Hstop. simpl. by rewrite Hk.
  - rewrite IH by done. simpl. by rewrite <- app_assoc.
Qed.

Lemma lit_step (c : ascii) (re : list Regex.item) (s : list ascii) :
  Regex.match_here (Regex.Lit c :: re) (c :: s) = Regex.match_here re s.
Proof. simpl. by rewrite Ascii.eqb_refl. Qed.

Lemma opt_skip (p : ascii -> bool) (re : list Regex.item) (s : list ascii) :
  match s with [] => True | c :: _ => p c = false end ->
  Regex.match_here (Regex.Opt p :: re) s = Regex.match_here re s.
Proof. destruct s as [|c s]; simpl; [done | by intros ->]. Qed.

Lemma cap_step (p : ascii -> bool) (re : list Regex.item) (s : list ascii) :
  Regex.match_here (Regex.Cap p :: re) s = Regex.grow p (Regex.match_here re) [] s.
Proof. done. Qed.

Lemma search_here (re : list Regex.item) (s : list ascii) (r : list string) :
  Regex.match_here re s = Some r -> Regex.search re s = Some r.
Proof. intros H. destruct s; simpl; by rewrite H. Qed.

Lemma attr_re_reads_contains (attr v : string) :
  Forall (fun c => c <> "="%char) (chars attr) ->
  Forall (fun c => c <> dquote /\ c <> squote /\ c <> "]"%char) (chars v) ->
  v <> "" ->
  Regex.exec Selector.attr_re (shorthand attr v) = Some [attr +:+ "*"; v].
Proof.
  intros Ha Hv Hne. unfold Regex.exec, shorthand.
  rewrite !chars_app.
  change (chars "[") with ["["%char]. change (chars "*=") with ["*"%char; "="%char].
  change (chars "]") with ["]"%char].
  assert (chars v <> []) as Hne'.
  { intros E. apply Hne. apply chars_inj. by rewrite E. }
  assert (match chars v ++ ["]"%char] with
          | [] => True
          | c :: _ => Regex.quote c = false
          end) as Hq.
  { destruct (chars v) as [|c0 l0]; [done|]. simpl.
    inversion Hv as [|? ? (H1 & H2 & _) _]; subst. unfold Regex.quote.
    destruct (Ascii.eqb_spec c0 dquote); [done|].
    destruct (Ascii.eqb_spec c0 squote); done. }
  apply search_here. unfold Selector.attr_re.
  change (["["%char] ++ ?l) with ("["%char :: l).
  rewrite lit_step, cap_step.
  replace (chars attr ++ ["*"%char; "="%char] ++ chars v ++ ["]"%char])
    with ((chars attr ++ ["*"%char]) ++ "="%char :: chars v ++ ["]"%char])
    by (by rewrite <- app_assoc).
  rewrite (grow_takes_run _ _ _ _ [v]).
  - simpl. by rewrite <- (str_chars (attr +:+ "*")), chars_app.
  - apply Forall_app. split; [|by repeat constructor].
    eapply Forall_impl; [exact Ha|]. intros c Hc. unfold Regex.isnt. simpl.
    destruct (Ascii.eqb_spec c "="%char); done.
  - by destruct (chars attr).
  - done.
  - rewrite lit_step, opt_skip by done. rewrite cap_step.
    rewrite (grow_takes_run _ _ _ _ []).
    + simpl. by rewrite str_chars.
    + eapply Forall_impl; [exact Hv|]. intros c (H1 & H2 & H3). unfold Regex.isnt. simpl.
      destruct (Ascii.eqb_spec c dquote); [done|].
      destruct (Ascii.eqb_spec c squote); [done|].
      destruct (Ascii.eqb_spec c "]"%char); done.
    + done.
    + done.
    + rewrite opt_skip by done. by rewrite lit_step.
Qed.

Lemma starred_not_among (l : list string) (key : string) :
  forallb (fun x => negb (endsWith x "*")) l = true ->
  endsWith key "*" = true -> key ∉ l.
Proof.
  intros Hl Hk Hin.
  pose proof (proj1 (forallb_forall _ _) Hl key) as Hl'.
  rewrite <- list_elem_of_In in Hl'. specialize (Hl' Hin). by rewrite Hk in Hl'.
Qed.

(** A parsed node has no property whose name ends with a star. *)
Lemma no_starred_property (n : node) (k : string) :
  from_parser n -> get n (k +:+ "*") = Undefined.
Proof.
  intros Hn.
  assert (endsWith (k +:+ "*") "*" = true) as Hk by (rewrite endsWith_spec; eauto).
  assert (forall l, forallb (fun x => negb (endsWith x "*")) l = true -> k +:+ "*" ∉ l) as Hout
    by (intros l Hl; by apply starred_not_among).
  assert (own n !! (k +:+ "*") = None) as Hown.
  { destruct Hn as [-> | (x & id & ->)].
    - apply not_elem_of_list_to_map_1, Hout. by vm_compute.
    - rewrite own_processNode. rewrite lookup_insert_ne.
      + apply not_elem_of_list_to_map_1, Hout. by vm_compute.
      + intros E. apply (Hout ["selector"]); [done | rewrite <- E; apply list_elem_of_here]. }
  assert (forall lit, negb (endsWith lit "*") = true -> String.eqb (k +:+ "*") lit = false) as Hne.
  { intros lit Hl. apply String.eqb_neq. intros E.
    apply (Hout [lit]); [simpl; by rewrite Hl | rewrite E; apply list_elem_of_here]. }
  unfold get. rewrite Hown, !Hne by done. simpl.
  unfold inherited. rewrite bool_decide_eq_false_2; [done|].
  apply Hout. by vm_compute.
Qed.

Lemma contains_shorthand_is_read_as_equality (n : node) (attr v : string) :
  Forall (fun c => c <> "="%char) (chars attr) ->
  Forall (fun c => c <> dquote /\ c <> squote /\ c <> "]"%char) (chars v) ->
  v <> "" ->
  Selector._matchStringSelector n (shorthand attr v) =
  Ok (strict_eq (get n (attr +:+ "*")) (Str v)).
Proof.
  intros Ha Hv Hne. unfold Selector._matchStringSelector.
  assert (startsWith (shorthand attr v) "#" = false) as ->.
  { apply not_true_is_false. rewrite startsWith_spec. by intros [r [=]]. }
  assert (startsWith (shorthand attr v) "." = false) as ->.
  { apply not_true_is_false. rewrite startsWith_spec. by intros [r [=]]. }
  assert (startsWith (shorthand attr v) "[" = true) as ->.
  { rewrite startsWith_spec. by eexists. }
  assert (endsWith (shorthand attr v) "]" = true) as ->.
  { rewrite endsWith_spec. exists ("[" +:+ attr +:+ "*=" +:+ v). unfold shorthand.
    apply chars_inj. rewrite !chars_app. by rewrite <- !app_assoc. }
  simpl andb. cbv iota. unfold Selector.match_brackets.
  by rewrite attr_re_reads_contains.
Qed.

(** The selector [[attr*=v]] is read by the pattern for [[attr=value]],
    as the attribute [attr*] with the value [v]; no parsed node has such
    an attribute, so the selector rejects every parsed node, whatever its
    attribute [attr] contains. *)
Lemma contains_shorthand_rejects_parsed_nodes (n : node) (attr v : string) :
  from_parser n ->
  Forall (fun c => c <> "="%char) (chars attr) ->
  Forall (fun c => c <> dquote /\ c <> squote /\ c <> "]"%char) (chars v) ->
  v <> "" ->
  Selector._matchStringSelector n (shorthand attr v) = Ok false.
Proof.
  intros Hn Ha Hv Hne.
  rewrite contains_shorthand_is_read_as_equality by done.
  by rewrite no_starred_property.
Qed.

End ShorthandFacts.

(** ** Selectors without an expression that keeps a position *)

Module StickyFacts.
Import JS Model Props Terms TreeFacts.

Section Agreement.
Context (host : Host) (ssel : Sticky.query) (sel : selector).
Hypothesis same : forall n σ,
  Sticky._matchesSelector_at host n ssel σ = (Selector._matchesSelector host n sel, σ).

Lemma search_agrees_children (l : list node) :
  Forall (fun c => forall results σ,
            Sticky._searchElements_at host c ssel results σ =
            (Selector._searchElements host c sel results, σ)) l ->
  forall results σ,
    (fix each (l : list node) (results : list node) (σ : Sticky.positions)
         : Res (list node) * Sticky.positions :=
       match l with
       | [] => (Ok results, σ)
       | child :: l' =>
           match Sticky._searchElements_at host child ssel results σ with
           | (Ok results, σ') => each l' results σ'
           | (Throw e, σ') => (Throw e, σ')
           end
       end) l results σ =
    ((fix each (l : list node) (results : list node) : Res (list node) :=
        match l with
        | [] => Ok results
        | child :: l' =>
            match Selector._searchElements host child sel results with
            | Ok results => each l' results
            | Throw e => Throw e
            end
        end) l results, σ).
Proof.
  induction 1 as [|c l Hc _ IH]; intros results σ; [done|].
  rewrite Hc. destruct (Selector._searchElements host c sel results) as [r|e]; [|done].
  apply IH.
Qed.

(** Such a selector is searched for as in [Selector], and no position
    moves. *)
Lemma search_agrees (n : node) :
  forall results σ,
    Sticky._searchElements_at host n ssel results σ =
    (Selector._searchElements host n sel results, σ).
Proof.
  induction n as [o a b l IH] using node_forall_ind. intros results σ.
  simpl. rewrite same.
  destruct (Selector._matchesSelector host (Node o a b l) sel) as [found|e]; [|done].
  apply (search_agrees_children l IH).
Qed.

Lemma findElements_agrees (env : Device.Env) (σ : Sticky.positions) (w : Device.World) :
  Sticky.findElements_at host env ssel σ w =
  ((Device.findElements host env sel w).1, σ, (Device.findElements host env sel w).2).
Proof.
  unfold Sticky.findElements_at, Device.findElements, Device.bind, Device.lift.
  destruct (Device.getUIHierarchy host env false w) as [[h|e] w']; [|done].
  rewrite search_agrees.
  by destruct (Selector._searchElements host h sel []) as [ms|e].
Qed.
End Agreement.

Lemma plain_match_entries (host : Host) (n : node) (entries : list (string * val))
    (σ : Sticky.positions) :
  Sticky.match_entries_at host n (plain_entries entries) σ =
  (Selector.match_entries host n entries, σ).
Proof.
  induction entries as [|[k v] entries IH]; [done|]. simpl.
  destruct (Selector.match_entry host n k v) as [[]|]; [apply IH | done | done].
Qed.

(** The selectors of [Model] are found by [Sticky.findElements_at] as they
    are by [Device.findElements]. *)
Lemma plain_findElements (host : Host) (env : Device.Env) (sel : selector)
    (σ : Sticky.positions) (w : Device.World) :
  Sticky.findElements_at host env (Sticky.Stateless sel) σ w =
  ((Device.findElements host env sel w).1, σ, (Device.findElements host env sel w).2).
Proof. by apply findElements_agrees. Qed.

Lemma plain_object_findElements (host : Host) (env : Device.Env)
    (entries : list (string * val)) (σ : Sticky.positions) (w : Device.World) :
  Sticky.findElements_at host env (Sticky.Entries (plain_entries entries)) σ w =
  ((Device.findElements host env (SelObject entries) w).1, σ,
   (Device.findElements host env (SelObject entries) w).2).
Proof. apply findElements_agrees. intros n σ'. apply plain_match_entries. Qed.

End StickyFacts.

(** * The claims *)

Module Claims.
Import JS Model XmlParser Props Terms StringFacts ParserFacts TreeFacts SelectorFacts DeviceFacts PredicateFacts ElementFacts WaitFacts.

(** C1. For every input string, [parseUIHierarchy] returns and never
    throws: it returns the parsed root when the attempt succeeds, and
    otherwise the degraded single node, which has no children and carries
    the marker in its text and description.  In particular the empty
    string, a text that xml2js rejects (as one cut off inside an element)
    and a document without the root tag or without a node under it all
    give the degraded node. *)
Theorem parseUIHierarchy_never_raises (host : Host) (s : string) :
  (exists n, parseUIHierarchy host (Str s) = Ok n /\
     (parse_attempt host (Str s) = Ok n \/
      (n = fallback /\ exists e, parse_attempt host (Str s) = Throw e))) /\
  degraded fallback /\
  parseUIHierarchy host (Str "") = Ok fallback /\
  (forall cleaned m,
     cleanXMLString (Str s) = Ok cleaned ->
     xml2js_parseString host cleaned = XErr m ->
     parseUIHierarchy host (Str s) = Ok fallback) /\
  (forall cleaned result,
     cleanXMLString (Str s) = Ok cleaned ->
     xml2js_parseString host cleaned = XResult result ->
     (result ≫= hierarchy) ≫= (fun h => head (h_node h)) = None ->
     parseUIHierarchy host (Str s) = Ok fallback).
Proof.
  repeat split.
  - unfold parseUIHierarchy. destruct (parse_attempt host (Str s)) as [n|e] eqn:E.
    + exists n. auto.
    + exists fallback. simpl. eauto.
  - unfold parseUIHierarchy, parse_attempt. intros c m Hc Hm.
    rewrite Hc. simpl. by rewrite Hm.
  - unfold parseUIHierarchy, parse_attempt. intros c r Hc Hr Hnone.
    rewrite Hc. simpl. rewrite Hr.
    destruct r as [[[[[|root l]]|]]|]; simpl in *; done.
Qed.

(** C2. On a node whose resource id is the string [rid], the selector
    [{resourceId: x}] is answered without an exception, and it accepts
    the node exactly when [rid] is [x] or ends with [":id/" + x]. *)
Theorem resourceId_suffix_rule (host : Host) (n : node) (x rid : string) :
  get n "resource-id" = Str rid ->
  exists b, Selector._matchesSelector host n (SelObject [("resourceId", Str x)]) = Ok b /\
            (b = true <-> rid = x \/ exists p, rid = p +:+ ":id/" +:+ x).
Proof.
  intros H. unfold Selector._matchesSelector. rewrite match_resourceId, H. simpl.
  destruct (String.eqb rid x) eqn:E.
  - exists true. split; [done|]. apply String.eqb_eq in E. tauto.
  - exists (endsWith rid (":id/" +:+ x)). split; [done|].
    rewrite endsWith_spec. apply String.eqb_neq in E. tauto.
Qed.

(** An instance: the button [com.app:id/ok] and the short name [ok]. *)
Lemma resourceId_suffix_rule_witness :
  get (processNode button 0) "resource-id" = Str "com.app:id/ok" /\
  exists b, Selector._matchesSelector deaf_host (processNode button 0)
              (SelObject [("resourceId", Str "ok")]) = Ok b /\
            (b = true <-> "com.app:id/ok" = "ok" \/
                          exists p, "com.app:id/ok" = p +:+ ":id/" +:+ "ok").
Proof.
  split; [by vm_compute|].
  apply (resourceId_suffix_rule deaf_host (processNode button 0) "ok" "com.app:id/ok").
  by vm_compute.
Defined.

(** C3, as the code has it. For a selector that holds no regular
    expression with the [g] or the [y] flag, [findElements] reads the
    hierarchy [h] from the device and answers with the handles of the
    nodes of [h] that the selector accepts, in pre-order; [findElement]
    answers with the first of them, or with [null] when there is none.
    When a match throws (a selector whose value has the wrong type), both
    throw what the first throwing match in pre-order throws. *)
Theorem find_in_preorder (host : Host) (env : Device.Env) (sel : selector)
    (w : Device.World) :
  stateless sel ->
  exists h w',
    Device.getUIHierarchy host env false w = (Ok h, w') /\
    let found := match select host sel (preorder h) with
                 | Ok ms => Device.construct_all ms
                 | Throw e => Throw e
                 end in
    Device.findElements host env sel w = (found, w') /\
    Device.findElement host env sel w = (head <$> found, w') /\
    (forall ms, select host sel (preorder h) = Ok ms ->
                ms = filter (fun n => accepts host sel n = true) (preorder h)) /\
    (forall ms els, Device.construct_all ms = Ok els -> Element._data <$> els = ms).
Proof.
  intros _.
  assert (exists h w', Device.getUIHierarchy host env false w = (Ok h, w')) as (h & w' & Hg).
  { destruct (getUIHierarchy_spec host env false w) as [(_ & h & _ & _ & H) | (_ & h & _ & H)];
      eauto. }
  exists h, w'. split; [done|]. cbv zeta.
  assert (Device.findElements host env sel w =
          (match select host sel (preorder h) with
           | Ok ms => Device.construct_all ms
           | Throw e => Throw e
           end, w')) as Hf.
  { unfold Device.findElements, Device.bind, Device.lift. rewrite Hg.
    rewrite _searchElements_preorder.
    by destruct (select host sel (preorder h)). }
  split; [done|]. split.
  - unfold Device.findElement, Device.bind, Device.ret. rewrite Hf.
    by destruct (match select host sel (preorder h) with Ok ms => _ | Throw e => _ end).
  - split; [apply select_filter | apply construct_all_data].
Qed.

(** An instance: the class tested with [/Button/], on a new device that
    shows the three buttons. *)
Lemma find_in_preorder_witness :
  stateless (SelObject [("className", RegExp "/Button/" (fun s => includes s "Button"))]) /\
  exists h w',
    Device.getUIHierarchy (button_host three_buttons) instant false (Device.fresh 0) =
      (Ok h, w') /\
    let found :=
      match select (button_host three_buttons)
              (SelObject [("className", RegExp "/Button/" (fun s => includes s "Button"))])
              (preorder h) with
      | Ok ms => Device.construct_all ms
      | Throw e => Throw e
      end in
    Device.findElements (button_host three_buttons) instant
      (SelObject [("className", RegExp "/Button/" (fun s => includes s "Button"))])
      (Device.fresh 0) = (found, w') /\
    Device.findElement (button_host three_buttons) instant
      (SelObject [("className", RegExp "/Button/" (fun s => includes s "Button"))])
      (Device.fresh 0) = (head <$> found, w') /\
    (forall ms,
       select (button_host three_buttons)
         (SelObject [("className", RegExp "/Button/" (fun s => includes s "Button"))])
         (preorder h) = Ok ms ->
       ms = filter (fun n => accepts (button_host three_buttons)
                               (SelObject [("className", RegExp "/Button/"
                                              (fun s => includes s "Button"))]) n = true)
                   (preorder h)) /\
    (forall ms els, Device.construct_all ms = Ok els -> Element._data <$> els = ms).
Proof.
  assert (stateless (SelObject [("className", RegExp "/Button/" (fun s => includes s "Button"))]))
    as H by (repeat constructor).
  split; [exact H|].
  apply (find_in_preorder (button_host three_buttons) instant
           (SelObject [("className", RegExp "/Button/" (fun s => includes s "Button"))])
           (Device.fresh 0) H).
Defined.

(** C3, as stated, fails on a selector with the expression [/Button/g]
    for the class.  On a new device that shows the three buttons under
    their root, [findElements] answers with the first and the third button
    only.  The second button is one the selector accepts when asked about
    it first; in the search, the test of the first button has left the
    position at the end of its class, and there the test of the second
    starts. *)
Lemma global_flag_skips_a_match :
  match Sticky.findElements_at (button_host three_buttons) instant
          (Sticky.Entries [("className", Sticky.Keeps 0 Button_g)]) ∅ (Device.fresh 0) with
  | (Ok els, _, _) => Element.id <$> els = [Num 1; Num 3]
  | (Throw _, _, _) => False
  end /\
  exists n,
    preorder (processNode three_buttons 0) !! 2%nat = Some n /\
    get n "id" = Num 2 /\
    (Sticky._matchesSelector_at (button_host three_buttons) n
       (Sticky.Entries [("className", Sticky.Keeps 0 Button_g)]) ∅).1 = Ok true.
Proof.
  split; [by vm_compute|].
  exists (processNode (labelled "Cancel") 2). repeat split; by vm_compute.
Qed.




(** C5, at the failing input. The text of the button contains [foo],
    yet the selector [[text*=foo]] rejects it: the pattern for
    [[attr=value]] is tried first and reads the selector as the attribute
    [text*] with the value [foo]. *)
Lemma contains_shorthand_misses_substring :
  get (processNode button 0) "text" = Str "foobar" /\
  includes "foobar" "foo" = true /\
  Regex.exec Selector.attr_re "[text*=foo]" = Some ["text*"; "foo"] /\
  Selector._matchStringSelector (processNode button 0) "[text*=foo]" = Ok false.
Proof. repeat split; by vm_compute. Qed.

(** C6, as the code has it. For a positive integer [n] up to [2 ^ 53],
    written in decimal as the predicate of a step, the predicate accepts a
    node exactly when the node's [index] is the decimal writing of
    [n - 1]. *)
Theorem index_predicate_is_one_based (node : node) (n : Z) :
  1 <= n <= 2 ^ 53 ->
  Selector._evaluatePredicate node (string_of_Z n) =
  strict_eq (get node "index") (Str (string_of_Z (n - 1))).
Proof.
  intros [H Hn]. destruct n as [|p|p]; try lia.
  rewrite evaluate_digits by apply all_digits_written.
  simpl string_of_Z. rewrite read_written by lia.
  by rewrite to_double_exact by lia.
Qed.

(** An instance: the predicate [3] on the button of index 2. *)
Lemma index_predicate_is_one_based_witness :
  1 <= 3 <= 2 ^ 53 /\
  Selector._evaluatePredicate (processNode button 0) (string_of_Z 3) =
  strict_eq (get (processNode button 0) "index") (Str (string_of_Z (3 - 1))).
Proof.
  split; [lia|]. apply (index_predicate_is_one_based (processNode button 0) 3). lia.
Defined.

(** C6, as stated, fails above [2 ^ 53]: the predicate [2 ^ 53 + 1] is
    read as the double [2 ^ 53], so it accepts the node of index
    [2 ^ 53 - 1] and not the one of index [2 ^ 53]. *)
Lemma large_index_is_rounded :
  get (processNode far_sibling 0) "index" = Str "9007199254740991" /\
  string_of_Z (9007199254740993 - 1) = "9007199254740992" /\
  Selector._evaluatePredicate (processNode far_sibling 0) (string_of_Z 9007199254740993) = true /\
  strict_eq (get (processNode far_sibling 0) "index")
            (Str (string_of_Z (9007199254740993 - 1))) = false.
Proof. repeat split; by vm_compute. Qed.

(** C7. [getUIHierarchy(forceRefresh)] at the world [w]: when nothing is
    cached, or [forceRefresh] is set, or more than 1000 ms have passed
    since the time stored with the cache, it captures once, parses the
    capture, stores the parse with the time read at entry, and returns
    it; otherwise it returns the cached hierarchy and changes nothing, and
    in particular does not capture. *)
Theorem getUIHierarchy_cache (host : Host) (env : Device.Env) (forceRefresh : bool)
    (w : Device.World) :
  if decide (Device._uiHierarchy w = None \/ forceRefresh = true \/
             1000 < Device.now w - Device._lastUIUpdate w)
  then exists h,
         parseUIHierarchy host (Str (Device.dump env (Device.captures w))) = Ok h /\
         Device.getUIHierarchy host env forceRefresh w =
           (Ok h, {| Device.now := Device.now w + Device.capture_ms env (Device.captures w);
                     Device.captures := S (Device.captures w);
                     Device.timers := Device.timers w;
                     Device._uiHierarchy := Some h;
                     Device._lastUIUpdate := Device.now w |})
  else exists h,
         Device._uiHierarchy w = Some h /\
         Device.getUIHierarchy host env forceRefresh w = (Ok h, w).
Proof.
  destruct (getUIHierarchy_spec host env forceRefresh w)
    as [(Hs & h & Hp & _ & Hg) | (Hs & h & Hc & Hg)].
  - apply stale_spec in Hs. rewrite decide_True by done. eauto.
  - rewrite decide_False; [eauto|].
    rewrite <- stale_spec. by rewrite Hs.
Qed.




(** C9. The identifiers are not free of collisions: in the parse of a
    dump whose root has 1001 children, the last child of the root and the
    child of its first child are two places of the tree with the same id,
    1001. *)
Theorem node_ids_collide :
  exists (dump : xelem) (p q : list nat) (a b : node),
    p <> q /\
    at_path (processNode dump 0) p = Some a /\
    at_path (processNode dump 0) q = Some b /\
    get a "id" = Num 1001 /\ get b "id" = Num 1001.
Proof.
  exists wide_dump, [1000%nat], [0%nat; 0%nat],
         (processNode leaf 1001), (processNode leaf 1001).
  split; [done|]. rewrite !processNode_id.
  split; [|split; [|done]].
  - rewrite (at_path_step _ (processNode leaf 1001)); [done|].
    rewrite processNode_child. unfold wide_dump.
    change (x_node _) with (first_child :: replicate 1000 leaf).
    rewrite lookup_cons. simpl Nat.pred.
    by rewrite lookup_replicate_2 by lia.
  - rewrite (at_path_step _ (processNode first_child 1)); [|by rewrite processNode_child].
    rewrite (at_path_step _ (processNode leaf 1001)); [done|].
    by rewrite processNode_child.
Qed.

(** C10, as the code has it. On a node whose [clickable] and [enabled]
    are the strings ["true"] or ["false"], and for an object selector
    made of [clickable] and [enabled] entries with boolean values, the
    handle's [matches] and the engine's matcher give the same answer. *)
Theorem matchers_agree_on_boolean_flags (host : Host) (n : node)
    (el : Element.AndroidElement) (entries : list (string * val)) :
  Element.construct n = Ok el ->
  flag_string (get n "clickable") ->
  flag_string (get n "enabled") ->
  boolean_flags entries ->
  Element.matches host el (SelObject entries) =
  Selector._matchesSelector host n (SelObject entries).
Proof.
  intros Hel Hc He Hb. simpl. unfold Selector._matchObjectSelector.
  induction Hb as [|[k v] entries [Hk [b Hv]] _ IH]; [done|].
  simpl in Hk, Hv. subst v. simpl.
  rewrite (flags_agree host n el k b Hel Hc He Hk).
  destruct (Selector.match_entry host n k (Bool b)) as [[]|]; [apply IH | done | done].
Qed.

(** An instance: the button and [{clickable: false, enabled: true}]. *)
Lemma matchers_agree_on_boolean_flags_witness :
  exists el,
    Element.construct (processNode button 0) = Ok el /\
    flag_string (get (processNode button 0) "clickable") /\
    flag_string (get (processNode button 0) "enabled") /\
    boolean_flags [("clickable", Bool false); ("enabled", Bool true)] /\
    Element.matches deaf_host el (SelObject [("clickable", Bool false); ("enabled", Bool true)]) =
    Selector._matchesSelector deaf_host (processNode button 0)
      (SelObject [("clickable", Bool false); ("enabled", Bool true)]).
Proof.
  destruct (Element.construct (processNode button 0)) as [el|e] eqn:E;
    [|by vm_compute in E].
  exists el.
  assert (flag_string (get (processNode button 0) "clickable")) as Hc
    by (right; by vm_compute).
  assert (flag_string (get (processNode button 0) "enabled")) as He
    by (left; by vm_compute).
  assert (boolean_flags [("clickable", Bool false); ("enabled", Bool true)]) as Hb.
  { apply Forall_cons_2; [split; [by left | by exists false]|].
    apply Forall_cons_2; [split; [by right | by exists true]|].
    apply Forall_nil_2. }
  split; [done|]. split; [done|]. split; [done|]. split; [done|].
  exact (matchers_agree_on_boolean_flags deaf_host (processNode button 0) el _ E Hc He Hb).
Defined.

(** C10, as stated, fails: with the string ["false"] as the value of
    [clickable], the engine accepts a node that is not clickable and the
    handle of the same node rejects it; with the boolean [false] as the
    value of [scrollable], a flag the handle has no case for, the same. *)
Lemma matchers_disagree_on_string_flag :
  exists el,
    Element.construct (processNode button 0) = Ok el /\
    Selector._matchesSelector deaf_host (processNode button 0)
      (SelObject [("clickable", Str "false")]) = Ok true /\
    Element.matches deaf_host el (SelObject [("clickable", Str "false")]) = Ok false /\
    Selector._matchesSelector deaf_host (processNode button 0)
      (SelObject [("scrollable", Bool false)]) = Ok true /\
    Element.matches deaf_host el (SelObject [("scrollable", Bool false)]) = Ok false.
Proof.
  destruct (Element.construct (processNode button 0)) as [el|e] eqn:E;
    [|by vm_compute in E].
  exists el. split; [done|]. split; [by vm_compute|].
  vm_compute in E. injection E as <-. repeat split; by vm_compute.
Qed.

End Claims.
(** * Further properties *)

Module Further.
Import JS Model Props Terms StringFacts ParserFacts TreeFacts SelectorFacts DeviceFacts PredicateFacts ElementFacts WaitFacts ShorthandFacts.
Import Device.

Lemma match_entries_app (host : Host) (n : node) (l1 l2 : list (string * val)) :
  Selector.match_entries host n (l1 ++ l2) =
  match Selector.match_entries host n l1 with
  | Ok true => Selector.match_entries host n l2
  | r => r
  end.
Proof.
  induction l1 as [|[k v] l1 IH]; simpl; [done|].
  by destruct (Selector.match_entry host n k v) as [[]|].
Qed.

Lemma select_filter_total (host : Host) (sel : selector) (l : list node) :
  (forall n, n ∈ l -> exists b, Selector._matchesSelector host n sel = Ok b) ->
  select host sel l = Ok (filter (fun n => accepts host sel n = true) l).
Proof.
  induction l as [|n l IH]; intros H; [done|].
  destruct (H n) as [b Hb]; [apply list_elem_of_here|].
  simpl. rewrite Hb, IH by (intros m Hm; apply H; by apply list_elem_of_further).
  destruct b.
  - rewrite filter_cons_True; [done|]. unfold accepts. by rewrite Hb.
  - rewrite filter_cons_False; [done|]. unfold accepts. by rewrite Hb.
Qed.

(** X1. An object selector that holds no regular expression with the
    [g] or the [y] flag is the conjunction of its entries: a node is
    accepted by the entries [l1 ++ l2] exactly when it is accepted by
    [l1] and by [l2], so selecting with all the entries is selecting with
    [l1] and then, among the nodes found, with [l2]. *)
Theorem object_selector_is_a_conjunction (host : Host) (l1 l2 : list (string * val)) :
  stateless (SelObject (l1 ++ l2)) ->
  (forall n, accepts host (SelObject (l1 ++ l2)) n =
             accepts host (SelObject l1) n && accepts host (SelObject l2) n) /\
  (forall l : list node,
     filter (fun n => accepts host (SelObject (l1 ++ l2)) n = true) l =
     filter (fun n => accepts host (SelObject l2) n = true)
            (filter (fun n => accepts host (SelObject l1) n = true) l)).
Proof.
  intros _.
  assert (forall n, accepts host (SelObject (l1 ++ l2)) n =
                    accepts host (SelObject l1) n && accepts host (SelObject l2) n) as H.
  { intros n. unfold accepts. simpl. unfold Selector._matchObjectSelector.
    rewrite match_entries_app.
    by destruct (Selector.match_entries host n l1) as [[]|]. }
  split; [done|]. intros l. rewrite list_filter_filter.
  apply list_filter_iff. intros n. rewrite H, andb_true_iff. tauto.
Qed.

(** An instance: a class tested with [/Button/] and a text. *)
Lemma object_selector_is_a_conjunction_witness :
  (forall n,
     accepts deaf_host
       (SelObject ([("className", RegExp "/Button/" (fun s => includes s "Button"))] ++
                   [("text", Str "OK")])) n =
     accepts deaf_host
       (SelObject [("className", RegExp "/Button/" (fun s => includes s "Button"))]) n &&
     accepts deaf_host (SelObject [("text", Str "OK")]) n) /\
  (forall l : list node,
     filter (fun n => accepts deaf_host
               (SelObject ([("className", RegExp "/Button/" (fun s => includes s "Button"))] ++
                           [("text", Str "OK")])) n = true) l =
     filter (fun n => accepts deaf_host (SelObject [("text", Str "OK")]) n = true)
            (filter (fun n => accepts deaf_host
                       (SelObject [("className", RegExp "/Button/"
                                      (fun s => includes s "Button"))]) n = true) l)).
Proof.
  apply (object_selector_is_a_conjunction deaf_host
           [("className", RegExp "/Button/" (fun s => includes s "Button"))]
           [("text", Str "OK")]).
  repeat constructor.
Defined.

Lemma _getAllElements_preorder (n : node) :
  forall results, Selector._getAllElements n results = results ++ preorder n.
Proof.
  induction n as [o a b l IH] using node_forall_ind. intros results.
  rewrite preorder_unfold. simpl.
  assert (forall acc,
    (fix each (l0 results0 : list node) {struct l0} : list node :=
       match l0 with
       | [] => results0
       | child :: l' => each l' (Selector._getAllElements child results0)
       end) l acc = acc ++ flat_map preorder l) as ->.
  { induction IH as [|c l Hc _ IHl]; intros acc; simpl; [by rewrite app_nil_r|].
    rewrite IHl, Hc. by rewrite <- app_assoc. }
  by rewrite <- app_assoc.
Qed.

(** X2. The empty object selector and the path [//*] both list every
    node of the hierarchy, in pre-order. *)
Theorem everything_two_ways (host : Host) (h : node) :
  Selector._searchElements host h (SelObject []) [] = Ok (preorder h) /\
  Selector._evaluateXPath h "//*" = Ok (preorder h).
Proof.
  split.
  - rewrite _searchElements_preorder.
    rewrite (select_filter_total host (SelObject []) (preorder h)) by (intros; by exists true).
    simpl. f_equal. induction (preorder h) as [|n l IH]; [done|].
    rewrite filter_cons_True by done. by rewrite IH.
  - unfold Selector._evaluateXPath. simpl. by rewrite _getAllElements_preorder.
Qed.

Lemma startsWith_app (p r : string) : startsWith (p +:+ r) p = true.
Proof. rewrite startsWith_spec. by exists r. Qed.

Lemma substring_from_app (p r : string) :
  substring_from (length (chars p)) (p +:+ r) = r.
Proof.
  unfold substring_from. rewrite chars_app, drop_app_length. apply str_chars.
Qed.

(** X3. The string selector [#x] decides as the object selectors
    [{resourceId: x}] and [{id: x}] do, on every node: the answer and the
    exception, if any, are the same. *)
Theorem hash_is_resourceId (host : Host) (n : node) (x : string) :
  Selector._matchStringSelector n ("#" +:+ x) =
    Selector._matchObjectSelector host n [("resourceId", Str x)] /\
  Selector._matchStringSelector n ("#" +:+ x) =
    Selector._matchObjectSelector host n [("id", Str x)].
Proof.
  assert (Selector._matchStringSelector n ("#" +:+ x) =
          if strict_eq (get n "resource-id") (Str x) then Ok true
          else opt_endsWith (get n "resource-id") (":id/" +:+ x)) as ->.
  { unfold Selector._matchStringSelector. rewrite startsWith_app.
    assert (substring_from 1 ("#" +:+ x) = x) as -> by exact (substring_from_app "#" x).
    done. }
  split.
  - rewrite match_resourceId. destruct (strict_eq _ _); [done|].
    by destruct (opt_endsWith _ _).
  - unfold Selector._matchObjectSelector. simpl.
    change (Selector.match_entry host n "id" (Str x))
      with (if strict_eq (get n "resource-id") (Str x) then Ok true
            else opt_endsWith (get n "resource-id") (":id/" +:+ x)).
    destruct (strict_eq _ _); [done|].
    by destruct (opt_endsWith _ _) as [[]|].
Qed.

Lemma startsWith_other (c d : ascii) (s : string) :
  c <> d -> startsWith (String c s) (String d "") = false.
Proof.
  intros H. apply not_true_is_false. rewrite startsWith_spec.
  intros [r [= E _]]. done.
Qed.

Lemma attr_or_nonempty (a : gmap string string) (k d : string) :
  d <> "" -> XmlParser.attr_or a k d <> "".
Proof.
  intros H. unfold XmlParser.attr_or. destruct (a !! k) as [v|]; [|done].
  destruct (String.eqb_spec v ""); done.
Qed.

(** The class of a parsed node is a string and is not empty. *)
Lemma parsed_class (n : node) :
  from_parser n -> exists c, get n "class" = Str c /\ c <> "".
Proof.
  intros [-> | (x & id & ->)]; [by exists "android.widget.FrameLayout" |].
  eexists. split.
  - apply (processNode_field x id "class" "android.view.View"). apply list_elem_of_here.
  - by apply attr_or_nonempty.
Qed.

(** X4. On a node of the parser, the string selector [.name] holds
    exactly when the class of the node contains [name]: a substring test,
    not a test of a whole class name. *)
Theorem dot_is_class_substring (n : node) (name : string) :
  from_parser n ->
  exists c, get n "class" = Str c /\
            Selector._matchStringSelector n ("." +:+ name) = Ok (includes c name).
Proof.
  intros Hn. destruct (parsed_class n Hn) as (c & Hc & Hne). exists c. split; [done|].
  unfold Selector._matchStringSelector.
  change ("." +:+ name) with (String "."%char name).
  rewrite startsWith_other by done.
  assert (startsWith (String "."%char name) "." = true) as -> by apply (startsWith_app "." name).
  assert (substring_from 1 (String "."%char name) = name) as ->
    by exact (substring_from_app "." name).
  rewrite Hc. simpl. destruct (String.eqb_spec c ""); done.
Qed.

(** An instance: the button and the selector [.Button]. *)
Lemma dot_is_class_substring_witness :
  from_parser (XmlParser.processNode button 0) /\
  exists c, get (XmlParser.processNode button 0) "class" = Str c /\
            Selector._matchStringSelector (XmlParser.processNode button 0) ("." +:+ "Button") =
            Ok (includes c "Button").
Proof.
  assert (from_parser (XmlParser.processNode button 0)) as H by (right; by eexists _, _).
  split; [exact H|]. exact (dot_is_class_substring _ "Button" H).
Defined.

Lemma opt_take (p : ascii -> bool) (re : list Regex.item) (c : ascii) (s : list ascii)
    (r : list string) :
  p c = true -> Regex.match_here re s = Some r ->
  Regex.match_here (Regex.Opt p :: re) (c :: s) = Some r.
Proof. intros Hp Hr. simpl. by rewrite Hp, Hr. Qed.

Lemma attr_re_reads_equality (attr value q : string) :
  attr <> "" -> Forall (fun c => c <> "="%char) (chars attr) ->
  value <> "" ->
  Forall (fun c => c <> dquote /\ c <> squote /\ c <> "]"%char) (chars value) ->
  q ∈ quote_marks ->
  Regex.exec Selector.attr_re ("[" +:+ attr +:+ "=" +:+ q +:+ value +:+ q +:+ "]") =
  Some [attr; value].
Proof.
  intros Hane Ha Hvne Hv Hq. unfold Regex.exec. rewrite !chars_app.
  change (chars "[") with ["["%char]. change (chars "=") with ["="%char].
  change (chars "]") with ["]"%char].
  assert (chars attr <> []) as Hane' by (intros E; apply Hane, chars_inj; by rewrite E).
  assert (chars value <> []) as Hvne' by (intros E; apply Hvne, chars_inj; by rewrite E).
  assert (Forall (fun c => Regex.isnt [dquote; squote; "]"%char] c = true) (chars value)) as Hv'.
  { eapply Forall_impl; [exact Hv|]. intros c (H1 & H2 & H3). unfold Regex.isnt. simpl.
    destruct (Ascii.eqb_spec c dquote); [done|].
    destruct (Ascii.eqb_spec c squote); [done|].
    destruct (Ascii.eqb_spec c "]"%char); done. }
  assert (match chars value with [] => True | c :: _ => Regex.quote c = false end) as Hhead.
  { destruct (chars value) as [|c0 l0]; [done|].
    inversion Hv as [|? ? (H1 & H2 & _) _]; subst. unfold Regex.quote.
    destruct (Ascii.eqb_spec c0 dquote); [done|].
    destruct (Ascii.eqb_spec c0 squote); done. }
  apply search_here. unfold Selector.attr_re.
  change (["["%char] ++ ?l) with ("["%char :: l).
  rewrite lit_step, cap_step.
  rewrite (grow_takes_run _ _ (chars attr) _ [value]).
  - simpl. by rewrite str_chars.
  - eapply Forall_impl; [exact Ha|]. intros c Hc. unfold Regex.isnt. simpl.
    destruct (Ascii.eqb_spec c "="%char); done.
  - done.
  - done.
  - change (["="%char] ++ ?l) with ("="%char :: l). rewrite lit_step.
    unfold quote_marks in Hq.
    apply elem_of_cons in Hq as [-> | Hq]; [|apply elem_of_cons in Hq as [-> | Hq];
      [|apply elem_of_cons in Hq as [-> | Hq]; [|by apply elem_of_nil in Hq]]].
    + change (chars "") with (@nil ascii). simpl app.
      rewrite opt_skip by (by destruct (chars value)).
      rewrite cap_step, (grow_takes_run _ _ (chars value) _ []);
        [simpl; by rewrite str_chars | done ..].
    + rewrite chars_str. change ([dquote] ++ ?l) with (dquote :: l).
      apply opt_take; [done|].
      rewrite cap_step, (grow_takes_run _ _ (chars value) _ []);
        [simpl; by rewrite str_chars | done ..].
    + rewrite chars_str. change ([squote] ++ ?l) with (squote :: l).
      apply opt_take; [done|].
      rewrite cap_step, (grow_takes_run _ _ (chars value) _ []);
        [simpl; by rewrite str_chars | done ..].
Qed.

Lemma endsWith_app (p x : string) : endsWith (p +:+ x) x = true.
Proof. rewrite endsWith_spec. by exists p. Qed.

Lemma append_assoc (a b c : string) : (a +:+ b) +:+ c = a +:+ b +:+ c.
Proof. apply chars_inj. by rewrite !chars_app, app_assoc. Qed.

(** X5. The string selector [[attr=value]], with the value bare or
    between two quotes of the same kind, compares the property [attr] of
    the node with [value] by [===]; [attr] is any name without [=] and
    [value] any text without quotes and closing bracket, neither empty. *)
Theorem bracket_is_equality (n : node) (attr value q : string) :
  attr <> "" -> Forall (fun c => c <> "="%char) (chars attr) ->
  value <> "" ->
  Forall (fun c => c <> dquote /\ c <> squote /\ c <> "]"%char) (chars value) ->
  q ∈ quote_marks ->
  Selector._matchStringSelector n ("[" +:+ attr +:+ "=" +:+ q +:+ value +:+ q +:+ "]") =
  Ok (strict_eq (get n attr) (Str value)).
Proof.
  intros Hane Ha Hvne Hv Hq. unfold Selector._matchStringSelector.
  set (sel := "[" +:+ attr +:+ "=" +:+ q +:+ value +:+ q +:+ "]").
  assert (startsWith sel "#" = false) as -> by (by apply startsWith_other).
  assert (startsWith sel "." = false) as -> by (by apply startsWith_other).
  assert (startsWith sel "[" = true) as -> by apply (startsWith_app "[").
  assert (endsWith sel "]" = true) as ->.
  { unfold sel. rewrite <- !append_assoc. apply endsWith_app. }
  simpl andb. cbv iota. unfold Selector.match_brackets, sel.
  by rewrite attr_re_reads_equality.
Qed.

(** An instance: the selector [[text=foobar]] on the button. *)
Lemma bracket_is_equality_witness :
  Selector._matchStringSelector (XmlParser.processNode button 0)
    ("[" +:+ "text" +:+ "=" +:+ "" +:+ "foobar" +:+ "" +:+ "]") =
  Ok (strict_eq (get (XmlParser.processNode button 0) "text") (Str "foobar")).
Proof.
  apply (bracket_is_equality (XmlParser.processNode button 0) "text" "foobar" "").
  - done.
  - apply (bool_decide_unpack _). by vm_compute.
  - done.
  - apply (bool_decide_unpack _). by vm_compute.
  - apply list_elem_of_here.
Defined.

(** A group that closes hands the rest of the text to the rest of the
    pattern. *)
Lemma grow_some (p : ascii -> bool) (k : list ascii -> option (list string))
    (s : list ascii) :
  forall acc r, Regex.grow p k acc s = Some r ->
  exists s' r', s' `suffix_of` s /\ k s' = Some r'.
Proof.
  induction s as [|c s IH]; intros acc r H; [done|]. simpl in H.
  destruct (p c); [|done].
  destruct (Regex.grow p k (c :: acc) s) as [r0|] eqn:E.
  - destruct (IH _ _ E) as (s' & r' & Hs & Hk). exists s', r'.
    split; [by apply suffix_cons_r | done].
  - simpl in H. destruct (k s) as [r'|] eqn:Ek; [|done].
    exists s, r'. split; [by apply suffix_cons_r | done].
Qed.

(** A pattern matches only texts that hold each of its literal
    characters. *)
Lemma lit_needed (re : list Regex.item) (c : ascii) :
  Regex.Lit c ∈ re ->
  forall s r, Regex.match_here re s = Some r -> c ∈ s.
Proof.
  induction re as [|it re IH]; intros Hin s r H; [by apply elem_of_nil in Hin|].
  apply elem_of_cons in Hin as [<- | Hin].
  - simpl in H. destruct s as [|x s]; [done|].
    destruct (Ascii.eqb_spec x c) as [-> | ?]; [apply list_elem_of_here | done].
  - destruct it as [d|p|p|p]; simpl in H.
    + destruct s as [|x s]; [done|]. destruct (Ascii.eqb x d); [|done].
      apply list_elem_of_further. by apply (IH Hin s r).
    + destruct s as [|x s]; [done|]. destruct (p x); [|done].
      apply list_elem_of_further. by apply (IH Hin s r).
    + destruct s as [|x s]; [by apply (IH Hin [] r)|].
      destruct (p x).
      * destruct (Regex.match_here re s) as [r0|] eqn:E.
        -- apply list_elem_of_further. by apply (IH Hin s r0).
        -- by apply (IH Hin (x :: s) r).
      * by apply (IH Hin (x :: s) r).
    + destruct (grow_some _ _ _ _ _ H) as (s' & r' & [k ->] & Hk).
      apply elem_of_app. right. by apply (IH Hin s' r').
Qed.

Lemma search_needs_lit (re : list Regex.item) (c : ascii) (s : list ascii) :
  Regex.Lit c ∈ re -> c ∉ s -> Regex.search re s = None.
Proof.
  intros Hin. induction s as [|x s IH]; intros Hc; simpl.
  - destruct (Regex.match_here re []) as [r|] eqn:E; [|done].
    destruct Hc. by apply (lit_needed re c Hin [] r).
  - destruct (Regex.match_here re (x :: s)) as [r|] eqn:E.
    + destruct Hc. by apply (lit_needed re c Hin _ r).
    + simpl. apply IH. intros H. apply Hc. by apply list_elem_of_further.
Qed.

(** The selector [[attr]] asks whether the node has the property. *)
Lemma bracket_is_presence (n : node) (attr : string) :
  attr <> "" ->
  Forall (fun c => c <> "="%char /\ c <> "]"%char) (chars attr) ->
  Selector._matchStringSelector n ("[" +:+ attr +:+ "]") =
  Ok (negb (strict_eq (get n attr) Undefined)).
Proof.
  intros Hne Ha. unfold Selector._matchStringSelector.
  set (sel := "[" +:+ attr +:+ "]").
  assert (startsWith sel "#" = false) as -> by (by apply startsWith_other).
  assert (startsWith sel "." = false) as -> by (by apply startsWith_other).
  assert (startsWith sel "[" = true) as -> by apply (startsWith_app "[").
  assert (endsWith sel "]" = true) as ->.
  { unfold sel. rewrite <- !append_assoc. apply endsWith_app. }
  simpl andb. cbv iota. unfold Selector.match_brackets, Regex.exec.
  assert ("="%char ∉ chars sel) as Hno.
  { unfold sel. rewrite !chars_app. change (chars "[") with ["["%char].
    change (chars "]") with ["]"%char]. intros H.
    apply elem_of_cons in H as [? | H]; [done|].
    apply elem_of_app in H as [H | H].
    - by destruct (proj1 (list.Forall_forall _ _) Ha _ H).
    - apply elem_of_cons in H as [? | H]; [done | by apply elem_of_nil in H]. }
  rewrite (search_needs_lit Selector.attr_re "="%char) by
    (done || (unfold Selector.attr_re; do 2 apply list_elem_of_further; apply list_elem_of_here)).
  rewrite (search_needs_lit Selector.contains_re "="%char) by
    (done || (unfold Selector.contains_re; do 3 apply list_elem_of_further; apply list_elem_of_here)).
  assert (Regex.search Selector.exists_re (chars sel) = Some [attr]) as ->; [|done].
  apply search_here. unfold sel, Selector.exists_re. rewrite !chars_app.
  change (chars "[") with ["["%char]. change (chars "]") with ["]"%char].
  change (["["%char] ++ ?l) with ("["%char :: l).
  rewrite lit_step, cap_step, (grow_takes_run _ _ (chars attr) _ []).
  - simpl. by rewrite str_chars.
  - eapply Forall_impl; [exact Ha|]. intros c [H1 H2]. unfold Regex.isnt. simpl.
    destruct (Ascii.eqb_spec c "="%char); [done|].
    destruct (Ascii.eqb_spec c "]"%char); done.
  - intros E. apply Hne, chars_inj. by rewrite E.
  - done.
  - done.
Qed.


Lemma keep_app (test : node -> Res bool) (l1 l2 : list node) :
  keep test (l1 ++ l2) =
  match keep test l1 with
  | Throw e => Throw e
  | Ok r1 => match keep test l2 with
             | Throw e => Throw e
             | Ok r2 => Ok (r1 ++ r2)
             end
  end.
Proof.
  induction l1 as [|n l1 IH]; simpl.
  - by destruct (keep test l2).
  - destruct (test n) as [found|e]; [|done].
    rewrite IH. destruct (keep test l1) as [r1|e]; [|done].
    destruct (keep test l2) as [r2|e]; [|done].
    by destruct found.
Qed.

Lemma keep_total (test : node -> Res bool) (f : node -> bool) (l : list node) :
  (forall n, n ∈ l -> test n = Ok (f n)) ->
  keep test l = Ok (filter (fun n => f n = true) l).
Proof.
  induction l as [|n l IH]; intros H; [done|].
  simpl. rewrite (H n) by apply list_elem_of_here.
  rewrite IH by (intros m Hm; apply H; by apply list_elem_of_further).
  destruct (f n) eqn:E.
  - by rewrite filter_cons_True.
  - rewrite filter_cons_False; [done|]. by rewrite E.
Qed.

Lemma keep_filter (test : node -> Res bool) (l r : list node) :
  keep test l = Ok r ->
  r = filter (fun n => passes test n = true) l.
Proof.
  revert r. induction l as [|n l IH]; intros r H; simpl in H.
  - by injection H as <-.
  - destruct (test n) as [found|e] eqn:E; [|done].
    destruct (keep test l) as [r'|e]; [|done].
    injection H as <-. rewrite (IH r' eq_refl).
    destruct found.
    + rewrite filter_cons_True; [done|]. unfold passes. by rewrite E.
    + rewrite filter_cons_False; [done|]. unfold passes. by rewrite E.
Qed.

Lemma find_children (name : string) (pred : option string) (l : list node) :
  Forall (fun c => forall results,
            Selector._findByElementName c name results pred =
            (fun r => results ++ r) <$>
              keep (fun m => Selector._matchesXPathElement m name pred) (preorder c)) l ->
  forall results,
    (fix each (l : list node) (results : list node) : Res (list node) :=
       match l with
       | [] => Ok results
       | child :: l' =>
           match Selector._findByElementName child name results pred with
           | Ok results => each l' results
           | Throw e => Throw e
           end
       end) l results =
    (fun r => results ++ r) <$>
      keep (fun m => Selector._matchesXPathElement m name pred) (flat_map preorder l).
Proof.
  induction 1 as [|c l Hc _ IH]; intros results; simpl.
  - by rewrite app_nil_r.
  - rewrite Hc, keep_app.
    destruct (keep _ (preorder c)) as [r1|e]; simpl; [|done].
    rewrite IH. destruct (keep _ (flat_map preorder l)) as [r2|e]; simpl; [|done].
    by rewrite app_assoc.
Qed.

Lemma _findByElementName_preorder (name : string) (pred : option string) (n : node) :
  forall results,
    Selector._findByElementName n name results pred =
    (fun r => results ++ r) <$>
      keep (fun m => Selector._matchesXPathElement m name pred) (preorder n).
Proof.
  induction n as [o a b l IH] using node_forall_ind. intros results.
  rewrite preorder_unfold. simpl.
  destruct (Selector._matchesXPathElement (Node o a b l) name pred) as [found|e]; [|done].
  rewrite (find_children name pred l IH).
  destruct (keep _ (flat_map preorder l)) as [r|e]; simpl; [|done].
  destruct found; [by rewrite <- app_assoc | done].
Qed.

Lemma child_loop (name : string) (pred : option string) (l : list node) :
  forall results,
    (fix each (l : list node) (results : list node) : Res (list node) :=
       match l with
       | [] => Ok results
       | child :: l' =>
           match Selector._matchesXPathElement child name pred with
           | Ok found => each l' (if found then results ++ [child] else results)
           | Throw e => Throw e
           end
       end) l results =
    (fun r => results ++ r) <$> keep (fun m => Selector._matchesXPathElement m name pred) l.
Proof.
  induction l as [|c l IH]; intros results; simpl.
  - by rewrite app_nil_r.
  - destruct (Selector._matchesXPathElement c name pred) as [found|e]; [|done].
    rewrite IH. destruct (keep _ l) as [r|e]; simpl; [|done].
    destruct found; [by rewrite <- app_assoc | done].
Qed.

Lemma fmap_nil_app (r : Res (list node)) : (fun x => [] ++ x) <$> r = r.
Proof. by destruct r. Qed.

Lemma descendant_keep (h : node) (step : string) :
  Selector._evaluateXPath h ("//" +:+ step) = keep (step_test step) (preorder h).
Proof.
  unfold Selector._evaluateXPath.
  destruct (String.eqb_spec ("//" +:+ step) "//*") as [E | _].
  - assert (step = "*") as -> by (by injection E).
    rewrite _getAllElements_preorder. simpl.
    symmetry. rewrite (keep_total _ (fun _ => true)); [|done].
    f_equal. induction (preorder h) as [|n l IH]; [done|].
    rewrite filter_cons_True by done. by rewrite IH.
  - rewrite (startsWith_app "//" step).
    assert (substring_from 2 ("//" +:+ step) = step) as -> by exact (substring_from_app "//" step).
    unfold Selector._evaluateDescendantPath, step_test.
    destruct (Selector.split_step step) as [name pred]. simpl.
    by rewrite _findByElementName_preorder, fmap_nil_app.
Qed.

(** X7. A path [//step] lists the nodes of the whole hierarchy, the root
    included, that pass the test of the step, in pre-order; when no test
    throws this is the filter of the pre-order by the test. *)
Theorem descendant_axis (h : node) (step : string) :
  Selector._evaluateXPath h ("//" +:+ step) = keep (step_test step) (preorder h) /\
  (forall r, keep (step_test step) (preorder h) = Ok r ->
             r = filter (fun n => passes (step_test step) n = true) (preorder h)).
Proof. split; [apply descendant_keep | apply keep_filter]. Qed.

(** X8. A path [/step] looks at the children of the root only, neither
    at the root nor below the children, and lists those that pass the test
    of the step, in order. *)
Theorem child_axis (h : node) (step : string) :
  startsWith step "/" = false ->
  Selector._evaluateXPath h ("/" +:+ step) = keep (step_test step) (children h).
Proof.
  intros Hs. unfold Selector._evaluateXPath.
  assert (startsWith ("/" +:+ step) "//" = false) as Hss.
  { apply not_true_is_false. rewrite startsWith_spec. intros [r E].
    assert (step = "/" +:+ r) as -> by (by injection E).
    by rewrite (startsWith_app "/" r) in Hs. }
  destruct (String.eqb_spec ("/" +:+ step) "//*") as [E | _].
  - assert (step = "/*") as -> by (by injection E). by vm_compute in Hs.
  - rewrite Hss, (startsWith_app "/" step).
    assert (substring_from 1 ("/" +:+ step) = step) as -> by exact (substring_from_app "/" step).
    unfold Selector._evaluateChildPath, step_test.
    destruct (Selector.split_step step) as [name pred]. simpl.
    by rewrite child_loop, fmap_nil_app.
Qed.

(** An instance: the path [/Button] on the three buttons. *)
Lemma child_axis_witness :
  startsWith "Button" "/" = false /\
  Selector._evaluateXPath (XmlParser.processNode three_buttons 0) ("/" +:+ "Button") =
  keep (step_test "Button") (children (XmlParser.processNode three_buttons 0)).
Proof.
  split; [reflexivity|].
  apply (child_axis (XmlParser.processNode three_buttons 0) "Button"). reflexivity.
Defined.

Lemma lits_step (p : string) (re : list Regex.item) (s : list ascii) :
  Regex.match_here (Regex.lits p ++ re) (chars p ++ s) = Regex.match_here re s.
Proof.
  unfold Regex.lits. induction (chars p) as [|c l IH]; [done|].
  rewrite fmap_cons. simpl app. by rewrite lit_step.
Qed.

Lemma includes_prefix (p r : string) : includes (p +:+ r) p = true.
Proof. rewrite includes_spec. by exists "", r. Qed.

Lemma text_predicate (n : node) (v : string) :
  v <> "" -> Forall (fun c => c <> dquote /\ c <> squote) (chars v) ->
  Selector._evaluatePredicate n (text_is v) = strict_eq (get n "text") (Str v).
Proof.
  intros Hne Hv. unfold Selector._evaluatePredicate, Selector.at_predicate at 1.
  unfold text_is. rewrite (includes_prefix "@text=").
  assert (Regex.exec (Selector.at_re "text") ("@text=" +:+ str [dquote] +:+ v +:+ str [dquote])
          = Some [v]) as ->; [|done].
  unfold Regex.exec. apply search_here. unfold Selector.at_re.
  rewrite chars_app.
  change ("@" +:+ "text" +:+ "=") with "@text=". rewrite lits_step.
  rewrite !chars_app, chars_str. simpl app.
  change (Regex.match_here (Regex.One Regex.quote :: ?re) (dquote :: ?s))
    with (Regex.match_here re s).
  rewrite cap_step, (grow_takes_run _ _ (chars v) _ []).
  - simpl. by rewrite str_chars.
  - eapply Forall_impl; [exact Hv|]. intros c [H1 H2]. unfold Regex.no_quote, Regex.quote.
    destruct (Ascii.eqb_spec c dquote); [done|].
    destruct (Ascii.eqb_spec c squote); done.
  - intros E. apply Hne, chars_inj. by rewrite E.
  - done.
  - done.
Qed.

Lemma split_predicate_step (name pred : string) :
  "["%char ∉ chars name ->
  pred <> "" -> "["%char ∉ chars pred -> "]"%char ∉ chars pred ->
  Selector.split_step (name +:+ "[" +:+ pred +:+ "]") = (name, Some pred).
Proof.
  intros Hn Hne Hp1 Hp2. unfold Selector.split_step. rewrite !chars_app.
  change (chars "[") with ["["%char]. change (chars "]") with ["]"%char]. simpl app.
  rewrite until_first by done. rewrite until_absent.
  2:{ apply not_elem_of_app. split; [done|].
      apply not_elem_of_cons. split; [done | apply not_elem_of_nil]. }
  simpl. rewrite str_chars.
  destruct (chars pred ++ ["]"%char]) as [|c0 l0] eqn:E.
  { by destruct (chars pred). }
  rewrite <- E. unfold Selector.remove_first.
  rewrite until_first by done.
  by rewrite app_nil_r, str_chars.
Qed.

(** X9. On a parsed hierarchy, for a [name] without opening bracket
    and a text [v] that is not empty and has neither quotes nor square
    brackets, the path [//name[@text="v"]] lists, in pre-order, exactly
    the nodes whose class contains [name] (every node when [name] is the
    star) and whose text is [v]. *)
Theorem text_path_query (h : node) (name v : string) :
  from_parser h ->
  "["%char ∉ chars name ->
  v <> "" ->
  Forall (fun c => c <> dquote /\ c <> squote /\ c <> "["%char /\ c <> "]"%char) (chars v) ->
  Selector._evaluateXPath h ("//" +:+ name +:+ "[" +:+ text_is v +:+ "]") =
  Ok (filter (fun n => named name n && strict_eq (get n "text") (Str v) = true) (preorder h)).
Proof.
  intros Hh Hn Hne Hv.
  rewrite (descendant_keep h (name +:+ "[" +:+ text_is v +:+ "]")).
  apply keep_total. intros n Hin.
  pose proof (proj1 (list.Forall_forall _ _) (from_parser_preorder h Hh) n Hin) as Hp.
  destruct (parsed_class n Hp) as (c & Hc & _).
  unfold step_test. rewrite split_predicate_step; [| done | done | |].
  - simpl. unfold Selector._matchesXPathElement, named. rewrite Hc.
    rewrite text_predicate; [| done |].
    + destruct (String.eqb name "*"); simpl; [done|].
      by destruct (includes c name).
    + eapply Forall_impl; [exact Hv|]. by intros c0 (H1 & H2 & _).
  - unfold text_is. rewrite !chars_app, chars_str. simpl.
    intros H. repeat (apply elem_of_cons in H as [? | H]; [done|]).
    apply elem_of_app in H as [H | H].
    + by destruct (proj1 (list.Forall_forall _ _) Hv _ H) as (_ & _ & ? & _).
    + apply elem_of_cons in H as [? | H]; [done | by apply elem_of_nil in H].
  - unfold text_is. rewrite !chars_app, chars_str. simpl.
    intros H. repeat (apply elem_of_cons in H as [? | H]; [done|]).
    apply elem_of_app in H as [H | H].
    + by destruct (proj1 (list.Forall_forall _ _) Hv _ H) as (_ & _ & _ & ?).
    + apply elem_of_cons in H as [? | H]; [done | by apply elem_of_nil in H].
Qed.

(** An instance: the path [//Button[@text="OK"]] on the three buttons. *)
Lemma text_path_query_witness :
  Selector._evaluateXPath (XmlParser.processNode three_buttons 0)
    ("//" +:+ "Button" +:+ "[" +:+ text_is "OK" +:+ "]") =
  Ok (filter (fun n => named "Button" n && strict_eq (get n "text") (Str "OK") = true)
             (preorder (XmlParser.processNode three_buttons 0))).
Proof.
  apply (text_path_query (XmlParser.processNode three_buttons 0) "Button" "OK").
  - right. by eexists _, _.
  - apply (bool_decide_unpack _). by vm_compute.
  - done.
  - apply (bool_decide_unpack _). by vm_compute.
Defined.

(** The string fields of a parsed node, by name. *)
Lemma parsed_field (n : node) (k d : string) :
  from_parser n -> (k, d) ∈ field_defaults ->
  k ∈ ["class"; "resource-id"; "text"; "content-desc"; "bounds"; "clickable"; "enabled"] ->
  exists s, get n k = Str s.
Proof.
  intros [-> | (x & id & ->)] Hk Hin.
  - repeat (apply elem_of_cons in Hin as [-> | Hin]; [by eexists|]).
    by apply elem_of_nil in Hin.
  - eexists. by apply processNode_field.
Qed.

Lemma parsed_bounds (n : node) :
  from_parser n -> exists b, get n "bounds" = Str b /\ b <> "".
Proof.
  intros [-> | (x & id & ->)]; [by exists "[0,0][1080,1920]" |].
  eexists. split.
  - apply (processNode_field x id "bounds" "[0,0][0,0]").
    unfold field_defaults. do 4 apply list_elem_of_further. apply list_elem_of_here.
  - by apply attr_or_nonempty.
Qed.

(** On a parsed node the constructor of the handle does not throw. *)
Lemma construct_parsed (n : node) :
  from_parser n ->
  exists el b, Element.construct n = Ok el /\ get n "bounds" = Str b /\
               Element.boundsRect el = XmlParser.parse_bounds b /\ Element._data el = n.
Proof.
  intros Hn. destruct (parsed_bounds n Hn) as (b & Hb & Hne).
  unfold Element.construct. rewrite Hb.
  assert (or_else (Str b) (Str "[0,0][0,0]") = Str b) as ->.
  { unfold or_else. simpl. by destruct (String.eqb_spec b ""). }
  assert (Element._parseBounds (Str b) = Ok (XmlParser.parse_bounds b)) as ->.
  { unfold Element._parseBounds. simpl. by destruct (String.eqb_spec b ""). }
  eexists _, b. repeat split; done.
Qed.

Lemma construct_all_parsed (l : list node) :
  Forall from_parser l ->
  exists els, Device.construct_all l = Ok els /\ Element._data <$> els = l.
Proof.
  induction 1 as [|n l Hn _ (els & Hels & Hd)]; [by exists [] |].
  destruct (construct_parsed n Hn) as (el & b & Hel & _ & _ & Hdata).
  exists (el :: els). split; [simpl; by rewrite Hel, Hels|].
  by rewrite fmap_cons, Hdata, Hd.
Qed.

Lemma boundsRect_processNode (x : xelem) (id : Z) :
  boundsRect (XmlParser.processNode x id) =
  let m : gmap string val := list_to_map (XmlParser.processed_fields (attrs_of x) id) in
  if String.eqb (XmlParser.sfield m "bounds") "" then None
  else XmlParser.parse_bounds (XmlParser.sfield m "bounds").
Proof. by destruct x. Qed.

Lemma sfield_processed (a : gmap string string) (id : Z) (k d : string) :
  (k, d) ∈ field_defaults ->
  XmlParser.sfield (list_to_map (XmlParser.processed_fields a id)) k = XmlParser.attr_or a k d.
Proof.
  intros H. unfold XmlParser.sfield.
  by rewrite (elem_of_list_to_map_1 _ _ _ (processed_fields_NoDup _ _)
                (proj1 (processed_fields_lookup a id k d H))).
Qed.

Lemma bounds_field : ("bounds", "[0,0][0,0]") ∈ field_defaults.
Proof. unfold field_defaults. do 4 apply list_elem_of_further. apply list_elem_of_here. Qed.

Lemma processNode_boundsRect (x : xelem) (id : Z) :
  boundsRect (XmlParser.processNode x id) =
  XmlParser.parse_bounds (XmlParser.attr_or (attrs_of x) "bounds" "[0,0][0,0]").
Proof.
  rewrite boundsRect_processNode. cbv zeta.
  rewrite (sfield_processed _ _ _ _ bounds_field).
  destruct (String.eqb_spec (XmlParser.attr_or (attrs_of x) "bounds" "[0,0][0,0]") "") as [E|];
    [|done].
  by apply attr_or_nonempty in E.
Qed.

Lemma construct_processNode (x : xelem) (id : Z) :
  exists el,
    Element.construct (XmlParser.processNode x id) = Ok el /\
    Element._data el = XmlParser.processNode x id /\
    Element.boundsRect el =
    XmlParser.parse_bounds (XmlParser.attr_or (attrs_of x) "bounds" "[0,0][0,0]").
Proof.
  destruct (construct_parsed (XmlParser.processNode x id)) as (el & b & Hel & Hb & Hr & Hd).
  { right. eauto. }
  exists el. split; [done|]. split; [done|]. rewrite Hr.
  rewrite (processNode_field x id "bounds" "[0,0][0,0]") in Hb.
  - by injection Hb as <-.
  - unfold field_defaults. do 4 apply list_elem_of_further. apply list_elem_of_here.
Qed.


Lemma written_digits (n : N) : Forall (fun c => is_digit c = true) (chars (string_of_N n)).
Proof. apply uint_digits. Qed.

Lemma written_nonempty_N (n : N) : chars (string_of_N n) <> [].
Proof. destruct n as [|p]; [done | apply written_nonempty]. Qed.

(** A group of digits in front of a written number followed by a
    character that is no digit takes the number. *)
Lemma digits_step (re : list Regex.item) (n : N) (c : ascii) (s : list ascii)
    (r : list string) :
  is_digit c = false ->
  Regex.match_here re (c :: s) = Some r ->
  Regex.match_here (Regex.Cap is_digit :: re) (chars (string_of_N n) ++ c :: s) =
  Some (string_of_N n :: r).
Proof.
  intros Hc Hr. rewrite cap_step.
  rewrite (grow_takes_run _ _ (chars (string_of_N n)) _ r);
    [simpl; by rewrite str_chars | apply written_digits | apply written_nonempty_N | done | done].
Qed.

Lemma digits_last (n : N) :
  Regex.match_here [Regex.Cap is_digit] (chars (string_of_N n)) = Some [string_of_N n].
Proof.
  rewrite cap_step. rewrite <- (app_nil_r (chars (string_of_N n))) at 1.
  rewrite (grow_takes_run _ _ (chars (string_of_N n)) _ []);
    [simpl; by rewrite str_chars | apply written_digits | apply written_nonempty_N | done | done].
Qed.

Lemma bounds_re_reads (a b c d : N) :
  Regex.exec XmlParser.bounds_re (bounds_text a b c d) =
  Some [string_of_N a; string_of_N b; string_of_N c; string_of_N d].
Proof.
  unfold Regex.exec, bounds_text. rewrite !chars_app.
  change (chars "[") with ["["%char]. change (chars ",") with [","%char].
  change (chars "][") with ["]"%char; "["%char]. change (chars "]") with ["]"%char].
  apply search_here. unfold XmlParser.bounds_re. simpl app.
  rewrite lit_step. apply digits_step; [done|].
  rewrite lit_step. apply digits_step; [done|].
  rewrite !lit_step. apply digits_step; [done|].
  rewrite lit_step. apply digits_step; [done|].
  by rewrite lit_step.
Qed.

(** X11. Bounds written as [[a,b][c,d]] are read back as the corners
    [(a,b)] and [(c,d)], with width [c - a], height [d - b] and the centre
    at the rounded-down midpoints.  The coordinates are bounded so that
    every number stays an exact integer. *)
Theorem bounds_round_trip (a b c d : N) :
  (a <= 2 ^ 52)%N -> (b <= 2 ^ 52)%N -> (c <= 2 ^ 52)%N -> (d <= 2 ^ 52)%N ->
  XmlParser.parse_bounds (bounds_text a b c d) =
  Some {| x1 := Z.of_N a; y1 := Z.of_N b; x2 := Z.of_N c; y2 := Z.of_N d;
          centerX := (Z.of_N a + Z.of_N c) `div` 2;
          centerY := (Z.of_N b + Z.of_N d) `div` 2;
          width := Z.of_N c - Z.of_N a; height := Z.of_N d - Z.of_N b |}.
Proof.
  intros Ha Hb Hc Hd. unfold XmlParser.parse_bounds.
  assert (2 ^ 52 = 4503599627370496)%N as E52 by done.
  assert (2 ^ 53 = 9007199254740992)%N as E53 by done.
  assert (2 ^ 53 = 9007199254740992) as Z53 by done.
  rewrite bounds_re_reads, !read_written by lia.
  by rewrite !to_double_exact by lia.
Qed.

(** An instance: the bounds [[0,0][100,50]]. *)
Lemma bounds_round_trip_witness :
  XmlParser.parse_bounds (bounds_text 0 0 100 50) =
  Some {| x1 := 0; y1 := 0; x2 := 100; y2 := 50; centerX := (0 + 100) `div` 2;
          centerY := (0 + 50) `div` 2; width := 100 - 0; height := 50 - 0 |}.
Proof. apply (bounds_round_trip 0 0 100 50); by vm_compute. Defined.

Lemma to_double_nonneg (z : Z) : 0 <= z -> 0 <= to_double z.
Proof.
  intros Hz. unfold to_double. cbv zeta.
  destruct (Z.log2 (Z.abs z) - 52 <=? 0) eqn:E; [done|].
  apply Z.leb_gt in E.
  assert (0 < 2 ^ (Z.log2 (Z.abs z) - 52)) as Hu by (apply Z.pow_pos_nonneg; lia).
  assert (0 <= Z.abs z / 2 ^ (Z.log2 (Z.abs z) - 52)) as Hq by (apply Z.div_pos; lia).
  apply Z.mul_nonneg_nonneg; [lia|]. apply Z.mul_nonneg_nonneg; [|lia].
  repeat case_match; lia.
Qed.

Lemma parseInt_nonneg (s : string) : 0 <= parseInt s.
Proof.
  unfold parseInt. apply to_double_nonneg.
  unfold decimal. destruct (NilEmpty.uint_of_string s); lia.
Qed.

(** X12. Whatever text the bounds are read from, when the corners read
    are at most [2 ^ 52] (so that every number stays an exact integer) the
    rectangle has no negative coordinate, its width and height are the
    differences of the corners (so they are negative when the corners are
    swapped), and its centre lies between the corners when these are in
    order. *)
Theorem bounds_geometry (s : string) (r : rect) :
  XmlParser.parse_bounds s = Some r ->
  x1 r <= 2 ^ 52 -> y1 r <= 2 ^ 52 -> x2 r <= 2 ^ 52 -> y2 r <= 2 ^ 52 ->
  0 <= x1 r /\ 0 <= y1 r /\ 0 <= x2 r /\ 0 <= y2 r /\
  width r = x2 r - x1 r /\ height r = y2 r - y1 r /\
  (x1 r <= x2 r -> x1 r <= centerX r <= x2 r) /\
  (y1 r <= y2 r -> y1 r <= centerY r <= y2 r).
Proof.
  unfold XmlParser.parse_bounds.
  destruct (Regex.exec XmlParser.bounds_re s) as [[|sx1 [|sy1 [|sx2 [|sy2 [|]]]]]|]; try done.
  intros [= <-]. cbn [x1 y1 x2 y2 width height centerX centerY].
  pose proof (parseInt_nonneg sx1). pose proof (parseInt_nonneg sy1).
  pose proof (parseInt_nonneg sx2). pose proof (parseInt_nonneg sy2).
  assert (2 ^ 52 = 4503599627370496) as E52 by done.
  assert (2 ^ 53 = 9007199254740992) as E53 by done.
  intros Hx1 Hy1 Hx2 Hy2.
  rewrite !to_double_exact by lia.
  repeat split; try lia.
  - apply Z.div_le_lower_bound; lia.
  - apply Z.div_le_upper_bound; lia.
  - apply Z.div_le_lower_bound; lia.
  - apply Z.div_le_upper_bound; lia.
Qed.

(** An instance: the bounds [[0,0][100,50]]. *)
Lemma bounds_geometry_witness :
  XmlParser.parse_bounds "[0,0][100,50]" =
    Some {| x1 := 0; y1 := 0; x2 := 100; y2 := 50; centerX := 50; centerY := 25;
            width := 100; height := 50 |} /\
  0 <= 0 /\ 0 <= 0 /\ 0 <= 100 /\ 0 <= 50 /\ 100 = 100 - 0 /\ 50 = 50 - 0 /\
  (0 <= 100 -> 0 <= 50 <= 100) /\ (0 <= 50 -> 0 <= 25 <= 50).
Proof.
  split; [by vm_compute|].
  apply (bounds_geometry "[0,0][100,50]"
           {| x1 := 0; y1 := 0; x2 := 100; y2 := 50; centerX := 50; centerY := 25;
              width := 100; height := 50 |}); by vm_compute.
Defined.

(** X13. An element of the dump without a [bounds] attribute gets
    the default bounds [[0,0][0,0]], so its handle has size 0 by 0 and is
    never visible, whatever its [visible-to-user] flag says. *)
Theorem no_bounds_never_visible (x : xelem) (id : Z) :
  attrs_of x !! "bounds" = None ->
  exists el,
    Element.construct (XmlParser.processNode x id) = Ok el /\
    Element.isVisible el = false /\
    Element.getSize el = Some (0, 0).
Proof.
  intros Hb. destruct (construct_processNode x id) as (el & Hel & _ & Hr).
  exists el. split; [done|].
  unfold XmlParser.attr_or in Hr. rewrite Hb in Hr.
  unfold Element.isVisible, Element.getSize. rewrite Hr.
  split; [|by vm_compute]. destruct (Element.isVisibleToUser el); by vm_compute.
Qed.

(** An instance: a button of the dump without bounds. *)
Lemma no_bounds_never_visible_witness :
  attrs_of (labelled "OK") !! "bounds" = None /\
  exists el,
    Element.construct (XmlParser.processNode (labelled "OK") 0) = Ok el /\
    Element.isVisible el = false /\
    Element.getSize el = Some (0, 0).
Proof.
  split; [by vm_compute|]. apply (no_bounds_never_visible (labelled "OK") 0). by vm_compute.
Defined.

Lemma or_else_Str (s : string) (b : val) :
  or_else (Str s) b = if String.eqb s "" then b else Str s.
Proof. unfold or_else. simpl. by destruct (String.eqb s ""). Qed.

Lemma getAttribute_field (n : node) (a : gmap string string)
    (el : Element.AndroidElement) (k d : string) :
  Element.construct n = Ok el ->
  Model.attributes n = Some a ->
  (forall k d, (k, d) ∈ field_defaults -> get n k = Str (XmlParser.attr_or a k d)) ->
  (k, d) ∈ field_defaults ->
  (k ∈ flag_fields -> flag_string (get n k)) ->
  Element.getAttribute el k = or_else (get n k) Null.
Proof.
  intros Hel Ha Hf Hk Hflag.
  unfold Element.construct in Hel.
  destruct (Element._parseBounds _) as [r|e]; [|done].
  injection Hel as <-.
  unfold Element.getAttribute, Element.attribute, Element.attributeMap.
  cbn [Element.className Element.resourceId Element.text Element.contentDesc
       Element.bounds Element.index Element.package Element.isClickable
       Element.isLongClickable Element.isEnabled Element.isSelected
       Element.isFocused Element.isFocusable Element.isScrollable
       Element.isCheckable Element.isChecked Element.isPassword
       Element.isVisibleToUser Element.attributes].
  rewrite Ha. clear r.
  pose proof (Hf k d Hk) as E.
  unfold field_defaults in Hk.
  repeat (apply elem_of_cons in Hk as [[= -> ->] | Hk];
    [ first
      [ (* a flag *)
        assert (flag_string (get n _)) as [F | F]
          by (apply Hflag; unfold flag_fields; repeat first [apply list_elem_of_here | apply list_elem_of_further]);
        rewrite F; reflexivity
      | (* a string *)
        rewrite E; unfold Element.literal_get; simpl String.eqb; cbv iota;
        unfold XmlParser.attr_or, attr_get;
        destruct (a !! _) as [v|];
          [destruct (String.eqb v "") eqn:Ev; [apply String.eqb_eq in Ev as ->|]|];
        repeat first [rewrite Ev | rewrite or_else_Str | progress (simpl String.eqb; cbv iota)];
        reflexivity ]
    | ]).
  by apply elem_of_nil in Hk.
Qed.



Lemma or_else_same (s : string) : or_else (Str s) (Str "") = Str s.
Proof. rewrite or_else_Str. destruct (String.eqb_spec s ""); by subst. Qed.

Lemma handle_fields (n : node) (el : Element.AndroidElement) :
  from_parser n -> Element.construct n = Ok el ->
  exists c r t d,
    (get n "class" = Str c /\ c <> "" /\ get n "resource-id" = Str r /\
     get n "text" = Str t /\ get n "content-desc" = Str d) /\
    (Element.className el = Str c /\ Element.resourceId el = Str r /\
     Element.text el = Str t /\ Element.contentDesc el = Str d).
Proof.
  intros Hn Hel.
  destruct (parsed_class n Hn) as (c & Hc & Hne).
  destruct (parsed_field n "resource-id" "" Hn) as (r & Hr);
    [repeat first [apply list_elem_of_here | apply list_elem_of_further] ..|].
  destruct (parsed_field n "text" "" Hn) as (t & Ht);
    [repeat first [apply list_elem_of_here | apply list_elem_of_further] ..|].
  destruct (parsed_field n "content-desc" "" Hn) as (d & Hd);
    [repeat first [apply list_elem_of_here | apply list_elem_of_further] ..|].
  exists c, r, t, d. split; [done|].
  unfold Element.construct in Hel.
  destruct (Element._parseBounds _) as [b|e]; [|done].
  injection Hel as <-. simpl. rewrite Hc, Hr, Ht, Hd, !or_else_same.
  repeat split. rewrite or_else_Str. by destruct (String.eqb_spec c "").
Qed.

(** X15. On a parsed node and its handle, [matches] of the handle
    and the engine decide alike for the string selectors [#id] and
    [.class] and for a text without dot that is not in brackets. *)
Theorem matchers_agree_on_plain_strings (host : Host) (n : node)
    (el : Element.AndroidElement) (s : string) :
  from_parser n -> Element.construct n = Ok el -> plain s ->
  Element.matches host el (SelString s) = Selector._matchesSelector host n (SelString s).
Proof.
  intros Hn Hel Hs.
  destruct (handle_fields n el Hn Hel) as (c & r & t & d & (Hc & Hne & Hr & Ht & Hd) & (Ec & Er & Et & Ed)).
  unfold Element.matches, Selector._matchesSelector, Element.matches_string,
    Selector._matchStringSelector.
  rewrite Ec, Er, Et, Ed, Hc, Hr, Ht, Hd.
  destruct (startsWith s "#") eqn:E1; [done|].
  destruct (startsWith s ".") eqn:E2.
  { simpl. by destruct (String.eqb_spec c ""). }
  destruct Hs as [Hs | [Hs | [Hs1 Hs2]]]; [congruence | congruence |].
  by rewrite Hs1, Hs2.
Qed.

(** An instance: the button and the selector [#ok]. *)
Lemma matchers_agree_on_plain_strings_witness :
  exists el,
    from_parser (XmlParser.processNode button 0) /\
    Element.construct (XmlParser.processNode button 0) = Ok el /\
    plain "#ok" /\
    Element.matches deaf_host el (SelString "#ok") =
    Selector._matchesSelector deaf_host (XmlParser.processNode button 0) (SelString "#ok").
Proof.
  destruct (Element.construct (XmlParser.processNode button 0)) as [el|e] eqn:E;
    [|by vm_compute in E].
  exists el.
  assert (from_parser (XmlParser.processNode button 0)) as Hn by (right; by eexists _, _).
  assert (plain "#ok") as Hs by (left; reflexivity).
  split; [exact Hn|]. split; [done|]. split; [exact Hs|].
  apply (matchers_agree_on_plain_strings deaf_host _ el "#ok" Hn E Hs).
Defined.

(** X16. A full class name as a string selector (it contains a
    dot) is compared with the class by the engine and with the text and
    the description by the handle: on a parsed node of that class whose
    text and description differ from it, the engine accepts and the handle
    rejects. *)
Theorem matchers_disagree_on_class_names (host : Host) (n : node)
    (el : Element.AndroidElement) (c : string) :
  from_parser n -> Element.construct n = Ok el ->
  get n "class" = Str c ->
  includes c "." = true -> startsWith c "#" = false -> startsWith c "." = false ->
  (startsWith c "[" && endsWith c "]") = false ->
  get n "text" <> Str c -> get n "content-desc" <> Str c ->
  Selector._matchesSelector host n (SelString c) = Ok true /\
  Element.matches host el (SelString c) = Ok false.
Proof.
  intros Hn Hel Hc Hi H1 H2 H3 Ht Hd.
  destruct (handle_fields n el Hn Hel) as (c' & r & t & d & (Hc' & Hne & Hr & Ht' & Hd') & (Ec & Er & Et & Ed)).
  unfold Element.matches, Selector._matchesSelector, Element.matches_string,
    Selector._matchStringSelector.
  rewrite Er, Et, Ed, Hc, H1, H2, H3, Hi. split.
  - simpl. by rewrite String.eqb_refl.
  - rewrite Ht' in Ht. rewrite Hd' in Hd. simpl.
    destruct (String.eqb_spec t c); [by subst|].
    destruct (String.eqb_spec d c); [by subst|]. done.
Qed.

(** An instance: the button and its class name. *)
Lemma matchers_disagree_on_class_names_witness :
  exists el,
    Element.construct (XmlParser.processNode button 0) = Ok el /\
    Selector._matchesSelector deaf_host (XmlParser.processNode button 0)
      (SelString "android.widget.Button") = Ok true /\
    Element.matches deaf_host el (SelString "android.widget.Button") = Ok false.
Proof.
  destruct (Element.construct (XmlParser.processNode button 0)) as [el|e] eqn:E;
    [|by vm_compute in E].
  exists el. split; [done|].
  apply (matchers_disagree_on_class_names deaf_host _ el "android.widget.Button").
  - right. by eexists _, _.
  - exact E.
  - by vm_compute.
  - reflexivity.
  - reflexivity.
  - reflexivity.
  - reflexivity.
  - intros H. vm_compute in H. discriminate H.
  - intros H. vm_compute in H. discriminate H.
Defined.

Lemma text_children (l : list node) :
  Forall (fun c => forall results,
            Selector._findElementsWithTextRecursive c results =
            (fun r => results ++ r) <$>
              keep (fun m => Selector.not_blank (get m "text")) (preorder c)) l ->
  forall results,
    (fix each (l : list node) (results : list node) : Res (list node) :=
       match l with
       | [] => Ok results
       | child :: l' =>
           match Selector._findElementsWithTextRecursive child results with
           | Ok results => each l' results
           | Throw e => Throw e
           end
       end) l results =
    (fun r => results ++ r) <$>
      keep (fun m => Selector.not_blank (get m "text")) (flat_map preorder l).
Proof.
  induction 1 as [|c l Hc _ IH]; intros results; simpl.
  - by rewrite app_nil_r.
  - rewrite Hc, keep_app.
    destruct (keep _ (preorder c)) as [r1|e]; simpl; [|done].
    rewrite IH. destruct (keep _ (flat_map preorder l)) as [r2|e]; simpl; [|done].
    by rewrite app_assoc.
Qed.

Lemma _findElementsWithTextRecursive_preorder (n : node) :
  forall results,
    Selector._findElementsWithTextRecursive n results =
    (fun r => results ++ r) <$>
      keep (fun m => Selector.not_blank (get m "text")) (preorder n).
Proof.
  induction n as [o a b l IH] using node_forall_ind. intros results.
  rewrite preorder_unfold. simpl.
  destruct (Selector.not_blank (get (Node o a b l) "text")) as [found|e]; [|done].
  rewrite (text_children l IH).
  destruct (keep _ (flat_map preorder l)) as [r|e]; simpl; [|done].
  destruct found; [by rewrite <- app_assoc | done].
Qed.

Lemma not_blank_shown (n : node) :
  from_parser n -> Selector.not_blank (get n "text") = Ok (shown n).
Proof.
  intros Hn. destruct (parsed_field n "text" "" Hn) as (t & Ht);
    [repeat first [apply list_elem_of_here | apply list_elem_of_further] ..|].
  unfold shown, Selector.not_blank. rewrite Ht. simpl.
  destruct (String.eqb_spec t "") as [-> | _]; done.
Qed.

Lemma texts_found (h : node) :
  from_parser h ->
  Selector._findElementsWithTextRecursive h [] =
  Ok (filter (fun n => shown n = true) (preorder h)).
Proof.
  intros Hh. rewrite _findElementsWithTextRecursive_preorder.
  rewrite (keep_total _ shown); [done|].
  intros n Hn. apply not_blank_shown.
  by apply (proj1 (list.Forall_forall _ _) (from_parser_preorder h Hh)).
Qed.

(** X17. On a parsed hierarchy, [_findElementsWithTextRecursive]
    returns, in pre-order, exactly the nodes whose text has a character
    that is not white space. *)
Theorem text_finder_is_a_filter (h : node) :
  from_parser h ->
  Selector._findElementsWithTextRecursive h [] =
  Ok (filter (fun n => shown n = true) (preorder h)).
Proof. apply texts_found. Qed.

(** An instance: the three buttons. *)
Lemma text_finder_is_a_filter_witness :
  Selector._findElementsWithTextRecursive (XmlParser.processNode three_buttons 0) [] =
  Ok (filter (fun n => shown n = true) (preorder (XmlParser.processNode three_buttons 0))).
Proof.
  apply (text_finder_is_a_filter (XmlParser.processNode three_buttons 0)).
  right. by eexists _, _.
Defined.

Lemma construct_all_each (l : list node) (els : list Element.AndroidElement) :
  Device.construct_all l = Ok els ->
  Forall2 (fun n el => Element.construct n = Ok el) l els.
Proof.
  revert els. induction l as [|n l IH]; intros els H; simpl in H.
  - injection H as <-. constructor.
  - destruct (Element.construct n) as [el|e] eqn:E; [|done].
    destruct (Device.construct_all l) as [els'|e]; [|done].
    injection H as <-. constructor; [done | by apply IH].
Qed.

Lemma shown_texts_kept (l : list node) (els : list Element.AndroidElement) :
  Forall (fun n => from_parser n /\ shown n = true) l ->
  Forall2 (fun n el => Element.construct n = Ok el) l els ->
  Element.text <$> els = (fun n => get n "text") <$> l /\
  Device.keep_not_blank (map Element.text els) = Ok ((fun n => get n "text") <$> l).
Proof.
  intros Hl H. induction H as [|n el l els Hel _ IH]; [done|].
  inversion Hl as [|? ? [Hn Hs] Hl']; subst.
  destruct (IH Hl') as [IH1 IH2].
  destruct (handle_fields n el Hn Hel) as (c & r & t & d & (_ & _ & _ & Ht & _) & (_ & _ & Et & _)).
  split; [by rewrite !fmap_cons, IH1, Et, Ht|].
  simpl. rewrite Et, IH2, Ht. unfold shown in Hs. rewrite Ht in Hs. by rewrite Hs.
Qed.

(** X18. [getAllText] returns the texts of the nodes of the
    hierarchy that show a text, in pre-order, and leaves the device as
    reading the hierarchy left it; its final filter removes nothing. *)
Theorem getAllText_lists_the_shown_texts (host : Host) (env : Device.Env)
    (w w' : Device.World) (h : node) :
  Device.getUIHierarchy host env false w = (Ok h, w') ->
  from_parser h ->
  Device.getAllText host env w =
  (Ok ((fun n => get n "text") <$> filter (fun n => shown n = true) (preorder h)), w').
Proof.
  intros Hg Hh.
  pose proof (from_parser_preorder h Hh) as Hall.
  assert (Forall (fun n => from_parser n /\ shown n = true)
                 (filter (fun n => shown n = true) (preorder h))) as Hl.
  { apply list.Forall_forall. intros n Hn. apply list_elem_of_filter in Hn as [Hs Hn].
    split; [|done]. by apply (proj1 (list.Forall_forall _ _) Hall). }
  destruct (construct_all_parsed (filter (fun n => shown n = true) (preorder h))) as (els & Hels & _).
  { eapply Forall_impl; [exact Hl|]. by intros n [? _]. }
  unfold Device.getAllText, Device.findElementsWithText, Device.bind, Device.lift.
  rewrite Hg, (texts_found h Hh), Hels.
  by rewrite (proj2 (shown_texts_kept _ _ Hl (construct_all_each _ _ Hels))).
Qed.

(** An instance: a new device that shows the three buttons. *)
Lemma getAllText_lists_the_shown_texts_witness :
  Device.getAllText (button_host three_buttons) instant (Device.fresh 0) =
  (Ok ((fun n => get n "text") <$>
         filter (fun n => shown n = true) (preorder (XmlParser.processNode three_buttons 0))),
   refreshed instant (Device.fresh 0) (XmlParser.processNode three_buttons 0)).
Proof.
  apply (getAllText_lists_the_shown_texts (button_host three_buttons) instant (Device.fresh 0)
           (refreshed instant (Device.fresh 0) (XmlParser.processNode three_buttons 0))
           (XmlParser.processNode three_buttons 0)).
  - by vm_compute.
  - right. by eexists _, _.
Defined.

(** X19. The cache is stamped with the time read before the capture.
    So a call right after a refresh reuses the cache, unchanged, when the
    capture took at most 1000 ms, and captures once more when the capture
    took longer. *)
Theorem refresh_then_reuse (host : Host) (env : Env) (forceRefresh : bool) (w : World) :
  stale forceRefresh (now w) w = true ->
  exists h w1 h2 w2,
    getUIHierarchy host env forceRefresh w = (Ok h, w1) /\
    getUIHierarchy host env false w1 = (Ok h2, w2) /\
    (capture_ms env (captures w) <= 1000 -> h2 = h /\ w2 = w1) /\
    (1000 < capture_ms env (captures w) -> captures w2 = S (S (captures w))).
Proof.
  intros Hs.
  destruct (getUIHierarchy_spec host env forceRefresh w)
    as [(_ & h & _ & _ & Hg) | (Hs' & _)]; [|congruence].
  set (w1 := refreshed env w h) in *.
  destruct (getUIHierarchy_spec host env false w1)
    as [(Hs1 & h2 & _ & _ & Hg2) | (Hs1 & h2 & Hc & Hg2)].
  - exists h, w1, h2, (refreshed env w1 h2).
    split; [done|]. split; [done|]. split; [|done].
    intros Hle. apply stale_spec in Hs1 as [H | [H | H]]; try done. simpl in H. lia.
  - exists h, w1, h2, w1.
    split; [done|]. split; [done|]. split.
    + intros _. simpl in Hc. by injection Hc as <-.
    + intros Hlt. assert (stale false (now w1) w1 = true) as E; [|congruence].
      apply stale_spec. right. right. simpl. lia.
Qed.

(** An instance: a new device, which has nothing cached. *)
Lemma refresh_then_reuse_witness :
  exists h w1 h2 w2,
    getUIHierarchy deaf_host instant false (fresh 0) = (Ok h, w1) /\
    getUIHierarchy deaf_host instant false w1 = (Ok h2, w2) /\
    (capture_ms instant (captures (fresh 0)) <= 1000 -> h2 = h /\ w2 = w1) /\
    (1000 < capture_ms instant (captures (fresh 0)) -> captures w2 = S (S (captures (fresh 0)))).
Proof. apply (refresh_then_reuse deaf_host instant false (fresh 0)). reflexivity. Defined.

Lemma head_construct_all (l : list node) (els : list Element.AndroidElement)
    (el : Element.AndroidElement) :
  construct_all l = Ok els -> head els = Some el ->
  exists n, head l = Some n /\ Element._data el = n.
Proof.
  intros H Hh. apply construct_all_data in H. destruct els as [|el' els]; [done|].
  injection Hh as ->. rewrite fmap_cons in H. subst l. eauto.
Qed.

Lemma select_accepted (host : Host) (sel : selector) (l r : list node) (n : node) :
  select host sel l = Ok r -> n ∈ r -> Selector._matchesSelector host n sel = Ok true.
Proof.
  intros H Hn. apply select_filter in H. subst r.
  apply list_elem_of_filter in Hn as [Ha _]. unfold accepts in Ha.
  by destruct (Selector._matchesSelector host n sel) as [[]|].
Qed.

Lemma probe_sound (host : Host) (env : Env) (sel : selector) (visible hidden : bool)
    (w w' : World) (el : Element.AndroidElement) :
  probe host env sel visible hidden w = (Ok (Some el), w') ->
  wanted host sel visible hidden el.
Proof.
  unfold probe, findElement, findElements, bind, lift, ret.
  destruct (getUIHierarchy host env false w) as [[h|e] w1]; [|done].
  rewrite _searchElements_preorder.
  destruct (select host sel (preorder h)) as [ms|e] eqn:Hms; simpl; [|done].
  destruct (construct_all ms) as [els|e] eqn:Hels; [|done].
  destruct (head els) as [el'|] eqn:Hh; [|done].
  destruct (head_construct_all ms els el' Hels Hh) as (n & Hn & Hd).
  assert (Selector._matchesSelector host (Element._data el') sel = Ok true) as Hm.
  { rewrite Hd. apply (select_accepted host sel (preorder h) ms); [done|].
    destruct ms; [done|]. injection Hn as ->. apply list_elem_of_here. }
  unfold wanted.
  destruct hidden.
  - destruct (Element.isVisible el') eqn:Ev; simpl; [done|].
    intros [= <- _]. by rewrite Ev.
  - destruct visible; simpl.
    + destruct (Element.isVisible el') eqn:Ev; simpl; [|done].
      intros [= <- _]. by rewrite Ev.
    + intros [= <- _]. done.
Qed.

Lemma wait_loop_sound (host : Host) (env : Env) (sel : selector) (timeout : Z)
    (visible hidden : bool) (start : Z) (fuel : nat) :
  forall (w w' : World) (el : Element.AndroidElement),
    wait_loop host env fuel sel timeout visible hidden start w = (Ok (Some el), w') ->
    wanted host sel visible hidden el.
Proof.
  induction fuel as [|fuel IH]; intros w w' el; [done|].
  simpl. unfold bind at 1. unfold Date_now at 1.
  destruct (now w - start <? timeout); [|done].
  unfold bind at 1. unfold try_.
  destruct (probe host env sel visible hidden w) as [[[el'|]|e] w1] eqn:Hp.
  - intros [= <- _]. by apply (probe_sound host env sel visible hidden w w1).
  - unfold bind at 1. unfold wait at 1. unfold bind at 1. unfold Date_now at 1.
    cbv beta iota. unfold bind at 1.
    match goal with |- context [if ?c then _ else _] => destruct c end.
    + unfold bind at 1.
      match goal with |- context [getUIHierarchy host env true ?w2] =>
        destruct (getUIHierarchy host env true w2) as [[h|e] w3] end; [|done].
      unfold ret at 1. apply IH.
    + unfold ret at 1. apply IH.
  - unfold bind at 1. unfold wait at 1. unfold bind at 1. unfold Date_now at 1.
    cbv beta iota. unfold bind at 1.
    match goal with |- context [if ?c then _ else _] => destruct c end.
    + unfold bind at 1.
      match goal with |- context [getUIHierarchy host env true ?w2] =>
        destruct (getUIHierarchy host env true w2) as [[h|e'] w3] end; [|done].
      unfold ret at 1. apply IH.
    + unfold ret at 1. apply IH.
Qed.



(** X21. With a negative timeout, [waitForSelector] fails at once:
    it does not look at the screen, sets no timer and leaves the device
    unchanged, whatever is on the screen. *)
Theorem negative_timeout_fails_at_once (host : Host) (env : Env) (fuel : nat)
    (sel : selector) (options : Options) (t : Z) (w : World) :
  timeout options = Some t -> t < 0 ->
  waitForSelector host env (S fuel) sel options w = (Throw (not_found host sel t), w).
Proof.
  intros Ht Hneg. unfold waitForSelector, timeout_of. rewrite Ht.
  destruct (Z.eqb_spec t 0) as [-> | _]; [lia|].
  unfold bind at 1. unfold Date_now at 1. simpl. unfold bind, Date_now, throw.
  by rewrite (proj2 (Z.ltb_ge _ _)) by lia.
Qed.

(** An instance: a timeout of -1 ms on a device that shows the button. *)
Lemma negative_timeout_fails_at_once_witness :
  waitForSelector (button_host button) instant 1 (SelString "#ok")
    {| timeout := Some (-1); visible := Undefined; hidden := Undefined |} (fresh 0) =
  (Throw (not_found (button_host button) (SelString "#ok") (-1)), fresh 0).
Proof.
  apply (negative_timeout_fails_at_once (button_host button) instant 0 (SelString "#ok")
           {| timeout := Some (-1); visible := Undefined; hidden := Undefined |} (-1) (fresh 0)).
  - reflexivity.
  - lia.
Defined.

Lemma function_loop_sound (host : Host) (env : Env) (f : node -> Res val)
    (timeout polling start : Z) (w0 : World) (fuel : nat) :
  forall (w w' : World) (v : val),
    (captures w0 <= captures w)%nat ->
    (forall h, _uiHierarchy w = Some h -> read_between host env w0 w h) ->
    function_loop host env fuel f timeout polling start w = (Ok (Some v), w') ->
    truthy v = true /\ exists h, f h = Ok v /\ read_between host env w0 w' h.
Proof.
  induction fuel as [|fuel IH]; intros w w' v Hc Hinv; [done|].
  simpl. unfold bind at 1. unfold Date_now at 1.
  destruct (now w - start <? timeout); [|done].
  unfold bind at 1. unfold try_, evaluate. unfold bind at 1.
  destruct (getUIHierarchy_spec host env false w)
    as [(_ & h & Hp & _ & Hg) | (_ & h & Hh & Hg)]; rewrite Hg; unfold lift.
  - assert (forall h', Some h = Some h' ->
              _uiHierarchy w0 = Some h' \/
              exists k, (captures w0 <= k < S (captures w))%nat /\
                        XmlParser.parseUIHierarchy host (Str (dump env k)) = Ok h') as Hnew.
    { intros h' [= <-]. right. exists (captures w). split; [lia | done]. }
    destruct (f h) as [r|e] eqn:Hf.
    + destruct (truthy r) eqn:Hr.
      * intros [= <- <-]. split; [done|]. exists h. split; [done|]. by apply Hnew.
      * unfold bind at 1. unfold wait at 1. apply IH; [simpl; lia | exact Hnew].
    + unfold bind at 1. unfold wait at 1. apply IH; [simpl; lia | exact Hnew].
  - destruct (f h) as [r|e] eqn:Hf.
    + destruct (truthy r) eqn:Hr.
      * intros [= <- <-]. split; [done|]. exists h. split; [done|]. by apply Hinv.
      * unfold bind at 1. unfold wait at 1. apply IH; [done | exact Hinv].
    + unfold bind at 1. unfold wait at 1. apply IH; [done | exact Hinv].
Qed.

(** X22. Whenever [waitForFunction] returns a value, the value is truthy
    and is what the page function returned on a hierarchy read from the
    device: one that was in the cache when the wait started, or the parse
    of a capture made during the wait. *)
Theorem waitForFunction_returns_a_truthy_value (host : Host) (env : Env) (fuel : nat)
    (f : node -> Res val) (timeout polling : option Z) (w w' : World) (v : val) :
  waitForFunction host env fuel f timeout polling w = (Ok (Some v), w') ->
  truthy v = true /\ exists h, f h = Ok v /\ read_between host env w w' h.
Proof.
  unfold waitForFunction, bind, Date_now.
  apply function_loop_sound; [done | by left].
Qed.

(** An instance: a wait for the class of the root, on a device that
    shows the button. *)
Lemma waitForFunction_returns_a_truthy_value_witness :
  exists v w',
    waitForFunction (button_host button) instant 1 (fun h => Ok (get h "class")) None None
      (fresh 0) = (Ok (Some v), w') /\
    truthy v = true /\
    exists h, (fun h => Ok (get h "class")) h = Ok v /\
              read_between (button_host button) instant (fresh 0) w' h.
Proof.
  destruct (waitForFunction (button_host button) instant 1 (fun h => Ok (get h "class")) None None
              (fresh 0)) as [[[v|]|e] w'] eqn:E; [|by vm_compute in E ..].
  exists v, w'. split; [done|].
  apply (waitForFunction_returns_a_truthy_value (button_host button) instant 1
           (fun h => Ok (get h "class")) None None (fresh 0) w' v E).
Defined.

Lemma everything_accepted (host : Host) (l : list node) :
  select host (SelObject []) l = Ok l.
Proof. induction l as [|n l IH]; [done|]. simpl. by rewrite IH. Qed.



(** X24. For [undefined], [null], a boolean or a number as input,
    [parseUIHierarchy] throws a [TypeError]: the [catch] block, which
    makes the degraded answer for strings, itself fails on the preview of
    the input. *)
Theorem parseUIHierarchy_rejects_other_values (host : Host) (v : val) :
  v = Undefined \/ v = Null \/ (exists b, v = Bool b) \/ (exists z, v = Num z) ->
  exists m, XmlParser.parseUIHierarchy host v = Throw (TypeError m).
Proof.
  unfold XmlParser.parseUIHierarchy, XmlParser.parse_attempt.
  intros [-> | [-> | [[b ->] | [z ->]]]]; simpl; by eexists.
Qed.

(** An instance: [null]. *)
Lemma parseUIHierarchy_rejects_other_values_witness :
  exists m, XmlParser.parseUIHierarchy deaf_host Null = Throw (TypeError m).
Proof.
  apply (parseUIHierarchy_rejects_other_values deaf_host Null). right. left. reflexivity.
Defined.

Lemma escape_amp_clean (l : list ascii) :
  Forall (fun c => XmlParser.is_control c = false) l ->
  Forall (fun c => XmlParser.is_control c = false) (XmlParser.escape_amp l).
Proof.
  induction 1 as [|c l Hc _ IH]; [constructor|]. simpl.
  destruct (Ascii.eqb c "&" && negb (XmlParser.entity_ahead l)).
  - by repeat constructor.
  - by constructor.
Qed.

Lemma add_decl_clean (l : list ascii) :
  Forall (fun c => XmlParser.is_control c = false) l ->
  Forall (fun c => XmlParser.is_control c = false) (XmlParser.add_decl l).
Proof.
  intros H. unfold XmlParser.add_decl. destruct (bool_decide _); [|done].
  apply Forall_app. split; [|done].
  apply (bool_decide_unpack _). by vm_compute.
Qed.

Lemma entity_ahead_intro (e r : list ascii) :
  (1 <= length e <= 8)%nat -> forallb XmlParser.entity_char e = true ->
  XmlParser.entity_ahead (e ++ ";"%char :: r) = true.
Proof.
  intros Hlen He. unfold XmlParser.entity_ahead. apply existsb_exists.
  exists (length e). split; [apply in_seq; lia|].
  rewrite take_app_length, He, length_app. simpl.
  rewrite (proj2 (Nat.leb_le _ _)) by lia. simpl.
  apply bool_decide_eq_true. by rewrite list_lookup_middle.
Qed.

Lemma entity_ahead_elim (l : list ascii) :
  XmlParser.entity_ahead l = true ->
  exists e r, l = e ++ ";"%char :: r /\ (1 <= length e <= 8)%nat /\
              forallb XmlParser.entity_char e = true.
Proof.
  unfold XmlParser.entity_ahead. intros H. apply existsb_exists in H as (k & Hk & H).
  apply in_seq in Hk. apply andb_true_iff in H as [H H3]. apply andb_true_iff in H as [H1 H2].
  apply Nat.leb_le in H1. apply bool_decide_eq_true in H3.
  exists (take k l), (drop (S k) l). split; [|split; [rewrite length_take; lia | done]].
  by rewrite <- (take_drop_middle l k ";"%char H3) at 1.
Qed.

Lemma escape_amp_prefix (p r : list ascii) :
  Forall (fun c => c <> "&"%char) p ->
  XmlParser.escape_amp (p ++ r) = p ++ XmlParser.escape_amp r.
Proof.
  induction 1 as [|c p Hc _ IH]; [done|]. simpl.
  destruct (Ascii.eqb_spec c "&"); [done|]. simpl. by rewrite IH.
Qed.

Lemma entity_chars_no_amp (e : list ascii) :
  forallb XmlParser.entity_char e = true -> Forall (fun c => c <> "&"%char) e.
Proof.
  intros H. apply list.Forall_forall. intros c Hc.
  apply list_elem_of_In in Hc. rewrite forallb_forall in H. specialize (H c Hc).
  intros ->. by vm_compute in H.
Qed.

Lemma entity_ahead_escaped (l : list ascii) :
  XmlParser.entity_ahead l = true -> XmlParser.entity_ahead (XmlParser.escape_amp l) = true.
Proof.
  intros H. apply entity_ahead_elim in H as (e & r & -> & Hlen & He).
  rewrite escape_amp_prefix by by apply entity_chars_no_amp.
  change (XmlParser.escape_amp (";"%char :: r)) with (";"%char :: XmlParser.escape_amp r).
  by apply entity_ahead_intro.
Qed.

Lemma amps_escaped_prefix (p l : list ascii) :
  Forall (fun c => c <> "&"%char) p -> amps_escaped (p ++ l) = amps_escaped l.
Proof.
  induction 1 as [|c p Hc _ IH]; [done|]. simpl.
  by destruct (Ascii.eqb_spec c "&").
Qed.

Lemma amp_written (r : list ascii) :
  amps_escaped (chars "&amp;" ++ r) = amps_escaped r.
Proof.
  change (chars "&amp;" ++ r) with ("&"%char :: (chars "amp" ++ ";"%char :: r)).
  change (amps_escaped ("&"%char :: (chars "amp" ++ ";"%char :: r)))
    with (XmlParser.entity_ahead (chars "amp" ++ ";"%char :: r) &&
          amps_escaped (chars "amp;" ++ r)).
  rewrite entity_ahead_intro by (simpl; by try lia).
  rewrite amps_escaped_prefix; [done|]. apply (bool_decide_unpack _). by vm_compute.
Qed.

Lemma escape_amp_escapes (l : list ascii) : amps_escaped (XmlParser.escape_amp l) = true.
Proof.
  induction l as [|c l IH]; [done|].
  change (XmlParser.escape_amp (c :: l))
    with (if Ascii.eqb c "&"%char && negb (XmlParser.entity_ahead l)
          then chars "&amp;" ++ XmlParser.escape_amp l
          else c :: XmlParser.escape_amp l).
  destruct (Ascii.eqb c "&") eqn:Ec; cbn [andb].
  - destruct (XmlParser.entity_ahead l) eqn:E; cbn [negb].
    + cbn [amps_escaped]. by rewrite Ec, (entity_ahead_escaped l E), IH.
    + by rewrite amp_written.
  - cbn [amps_escaped]. by rewrite Ec, IH.
Qed.

(** X25. The text [cleanXMLString] hands to the XML parser has no
    control character, and every ampersand in it is followed by one to
    eight letters, digits or [#] and a semicolon. *)
Theorem cleaned_text_is_clean (s out : string) :
  XmlParser.cleanXMLString (Str s) = Ok out ->
  Forall (fun c => XmlParser.is_control c = false) (chars out) /\
  amps_escaped (chars out) = true.
Proof.
  unfold XmlParser.cleanXMLString.
  destruct (negb (truthy (Str s))); [done|]. intros [= <-]. rewrite chars_str. split.
  - apply add_decl_clean, escape_amp_clean. apply list.Forall_forall.
    intros c Hc. apply list_elem_of_filter in Hc as [Hc _].
    by destruct (XmlParser.is_control c).
  - unfold XmlParser.add_decl. destruct (bool_decide _); [|apply escape_amp_escapes].
    rewrite amps_escaped_prefix; [apply escape_amp_escapes|].
    apply (bool_decide_unpack _). by vm_compute.
Qed.

(** An instance: a dump with a bare ampersand in a text. *)
Lemma cleaned_text_is_clean_witness :
  exists out,
    XmlParser.cleanXMLString (Str "<hierarchy><node text='a & b'/></hierarchy>") = Ok out /\
    Forall (fun c => XmlParser.is_control c = false) (chars out) /\
    amps_escaped (chars out) = true.
Proof.
  destruct (XmlParser.cleanXMLString (Str "<hierarchy><node text='a & b'/></hierarchy>"))
    as [out|e] eqn:E; [|by vm_compute in E].
  exists out. split; [done|].
  apply (cleaned_text_is_clean "<hierarchy><node text='a & b'/></hierarchy>" out E).
Defined.

Lemma narrow_unfold (x : xelem) :
  narrow x = (length (x_node x) <=? 999)%nat && forallb narrow (x_node x).
Proof. by destruct x. Qed.

Lemma at_path_id (p : list nat) :
  forall (x : xelem) (id : Z) (n : node),
    narrow x = true -> at_path (XmlParser.processNode x id) p = Some n ->
    get n "id" = Num (path_id id p) /\ Forall (fun i => (i < 999)%nat) p.
Proof.
  induction p as [|i p IH]; intros x id n Hx Hn.
  - injection Hn as <-. split; [apply processNode_id | constructor].
  - simpl in Hn. rewrite processNode_child in Hn.
    destruct (x_node x !! i) as [y|] eqn:Hy; [|done]. simpl in Hn.
    rewrite narrow_unfold in Hx. apply andb_true_iff in Hx as [Hlen Hall].
    apply Nat.leb_le in Hlen. rewrite forallb_forall in Hall.
    assert (narrow y = true) as Hy'.
    { apply Hall. apply list_elem_of_In. by apply (list_elem_of_lookup_2 _ i). }
    destruct (IH y _ n Hy' Hn) as [Hid Hp]. split; [done|].
    constructor; [|done]. apply lookup_lt_Some in Hy. lia.
Qed.

Lemma path_id_snoc (id : Z) (p : list nat) (i : nat) :
  path_id id (p ++ [i]) = path_id id p * 1000 + 1 + Z.of_nat i.
Proof. unfold path_id. by rewrite fold_left_app. Qed.

Lemma path_id_nonneg (id : Z) (p : list nat) : 0 <= id -> 0 <= path_id id p.
Proof.
  intros Hid. induction p as [|i p IH] using rev_ind; [done|]. rewrite path_id_snoc. lia.
Qed.

Lemma path_id_inj (p : list nat) :
  forall q, Forall (fun i => (i < 999)%nat) p -> Forall (fun i => (i < 999)%nat) q ->
            path_id 0 p = path_id 0 q -> p = q.
Proof.
  induction p as [|i p IH] using rev_ind; intros q Hp Hq E.
  - destruct q as [|j q _] using rev_ind; [done|]. rewrite path_id_snoc in E.
    pose proof (path_id_nonneg 0 q). change (path_id 0 []) with 0 in E. lia.
  - destruct q as [|j q _] using rev_ind.
    + rewrite path_id_snoc in E. pose proof (path_id_nonneg 0 p).
      change (path_id 0 []) with 0 in E. lia.
    + rewrite !path_id_snoc in E.
      apply Forall_app in Hp as [Hp Hi]. apply Forall_app in Hq as [Hq Hj].
      inversion Hi; subst. inversion Hj; subst.
      assert (path_id 0 p = path_id 0 q /\ i = j) as [E1 ->] by lia.
      by rewrite (IH q Hp Hq E1).
Qed.

(** X26. When no element of the dump has more than 999 child
    elements, two nodes of the parsed tree with the same identifier are
    the same node: the identifier determines the path from the root.  The
    paths are at most 5 long, the depth up to which the identifiers are
    exact integers. *)
Theorem ids_are_unique_below_999_children (x : xelem) (p q : list nat) (n m : node) :
  narrow x = true ->
  (length p <= 5)%nat -> (length q <= 5)%nat ->
  at_path (XmlParser.processNode x 0) p = Some n ->
  at_path (XmlParser.processNode x 0) q = Some m ->
  get n "id" = get m "id" -> p = q.
Proof.
  intros Hx _ _ Hn Hm E.
  destruct (at_path_id p x 0 n Hx Hn) as [En Hp].
  destruct (at_path_id q x 0 m Hx Hm) as [Em Hq].
  rewrite En, Em in E. injection E as E. by apply path_id_inj.
Qed.

(** An instance: the second of the three buttons, reached twice. *)
Lemma ids_are_unique_below_999_children_witness : [1%nat] = [1%nat].
Proof.
  apply (ids_are_unique_below_999_children three_buttons [1%nat] [1%nat]
           (XmlParser.processNode (labelled "Cancel") 2)
           (XmlParser.processNode (labelled "Cancel") 2)).
  - by vm_compute.
  - simpl. lia.
  - simpl. lia.
  - by vm_compute.
  - by vm_compute.
  - reflexivity.
Defined.

Lemma search_skip (re : list Regex.item) (p s : list ascii) :
  Forall (fun c => is_digit c = false) p ->
  Regex.search (Regex.Cap is_digit :: re) (p ++ s) = Regex.search (Regex.Cap is_digit :: re) s.
Proof.
  induction 1 as [|c p Hc _ IH]; [done|].
  change (Regex.search (Regex.Cap is_digit :: re) ((c :: p) ++ s))
    with (Regex.first_of (Regex.match_here (Regex.Cap is_digit :: re) (c :: p ++ s))
                         (Regex.search (Regex.Cap is_digit :: re) (p ++ s))).
  rewrite cap_step. simpl Regex.grow. by rewrite Hc.
Qed.

(** X27. [getScreenSize] reads the first [WxH] of the output of
    [wm size]: the text before it has no digit, and whatever follows (an
    override size, for one) is ignored. *)
Theorem getScreenSize_reads_the_first_size (p rest : string) (w h : N) :
  Forall (fun c => is_digit c = false) (chars p) ->
  match chars rest with [] => True | c :: _ => is_digit c = false end ->
  (w <= 2 ^ 53)%N -> (h <= 2 ^ 53)%N ->
  ADB.getScreenSize (p +:+ string_of_N w +:+ "x" +:+ string_of_N h +:+ rest) =
  Ok (Z.of_N w, Z.of_N h).
Proof.
  intros Hp Hrest Hw Hh. unfold ADB.getScreenSize, Regex.exec, ADB.size_re.
  rewrite !chars_app, (search_skip _ _ _ Hp).
  change (chars "x") with ["x"%char]. simpl app.
  rewrite (search_here _ _ [string_of_N w; string_of_N h]); [by rewrite !read_written by done|].
  apply digits_step; [done|]. rewrite lit_step, cap_step.
  rewrite (grow_takes_run _ _ (chars (string_of_N h)) _ []);
    [simpl; by rewrite str_chars | apply written_digits | apply written_nonempty_N | done | done].
Qed.

(** An instance: a physical size followed by an override size. *)
Lemma getScreenSize_reads_the_first_size_witness :
  ADB.getScreenSize ("Physical size: " +:+ string_of_N 1080 +:+ "x" +:+ string_of_N 1920 +:+
                     " Override size: 720x1280") =
  Ok (Z.of_N 1080, Z.of_N 1920).
Proof.
  apply (getScreenSize_reads_the_first_size "Physical size: " " Override size: 720x1280"
           1080 1920).
  - apply (bool_decide_unpack _). by vm_compute.
  - reflexivity.
  - by vm_compute.
  - by vm_compute.
Defined.

Lemma replace_char_app (c : ascii) (b l1 l2 : list ascii) :
  ADB.replace_char c b (l1 ++ l2) = ADB.replace_char c b l1 ++ ADB.replace_char c b l2.
Proof. apply flat_map_app. Qed.

Lemma escape_text_app (a b : string) :
  ADB.escape_text (a +:+ b) = ADB.escape_text a +:+ ADB.escape_text b.
Proof.
  unfold ADB.escape_text. by rewrite chars_app, !replace_char_app, str_app.
Qed.

(** X28. [type] sends the same command for a text with a space
    and for the text with [%s] in its place: the two cannot be told apart
    by the device. *)
Theorem space_and_percent_s_collide (a b : string) :
  ADB.type_command (a +:+ " " +:+ b) = ADB.type_command (a +:+ "%s" +:+ b).
Proof. unfold ADB.type_command. by rewrite !escape_text_app. Qed.

Lemma replace_char_keeps (P : ascii -> Prop) (c : ascii) (b l : list ascii) :
  Forall P b -> Forall P l -> Forall P (ADB.replace_char c b l).
Proof.
  intros Hb. induction 1 as [|x l Hx _ IH]; [constructor|].
  unfold ADB.replace_char. simpl. apply Forall_app. split; [|exact IH].
  destruct (Ascii.eqb x c); [done | by constructor].
Qed.

Lemma replace_char_removes (c : ascii) (b l : list ascii) :
  Forall (fun x => x <> c) b -> Forall (fun x => x <> c) (ADB.replace_char c b l).
Proof.
  intros Hb. induction l as [|x l IH]; [constructor|].
  unfold ADB.replace_char. simpl. apply Forall_app. split; [|exact IH].
  destruct (Ascii.eqb_spec x c); [done | by constructor].
Qed.

Lemma replace_char_absent (c : ascii) (b l : list ascii) :
  Forall (fun x => x <> c) l -> ADB.replace_char c b l = l.
Proof.
  induction 1 as [|x l Hx _ IH]; [done|].
  unfold ADB.replace_char in *. simpl. rewrite IH.
  by destruct (Ascii.eqb_spec x c).
Qed.

(** X29. The text [type] sends has no space, and a text without
    quote, space, ampersand and dollar is sent as it is. *)
Theorem escape_text_leaves_no_space (text : string) :
  Forall (fun c => c <> " "%char) (chars (ADB.escape_text text)) /\
  (Forall (fun c => c ∉ rewritten) (chars text) -> ADB.escape_text text = text).
Proof.
  unfold ADB.escape_text. rewrite chars_str. split.
  - apply replace_char_keeps; [by repeat constructor|].
    apply replace_char_keeps; [by repeat constructor|].
    apply replace_char_removes. by repeat constructor.
  - intros H.
    assert (forall c, c ∈ rewritten -> Forall (fun x => x <> c) (chars text)) as Hc.
    { intros c Hc. eapply Forall_impl; [exact H|]. intros x Hx ->. done. }
    rewrite (replace_char_absent squote), (replace_char_absent " "),
      (replace_char_absent "&"), (replace_char_absent "$");
      try (apply Hc; unfold rewritten; repeat first [apply list_elem_of_here | apply list_elem_of_further]).
    apply str_chars.
Qed.

Lemma split_line (line rest : list ascii) :
  newline ∉ line ->
  split_chars newline (line ++ [newline] ++ rest) = line :: split_chars newline rest.
Proof.
  induction line as [|x line IH]; intros H.
  - simpl. done.
  - apply not_elem_of_cons in H as [Hx H].
    change (split_chars newline ((x :: line) ++ [newline] ++ rest))
      with (if Ascii.eqb x newline then [] :: split_chars newline (line ++ [newline] ++ rest)
            else match split_chars newline (line ++ [newline] ++ rest) with
                 | l :: lines => (x :: l) :: lines
                 | [] => [[x]]
                 end).
    destruct (Ascii.eqb_spec x newline); [done|]. by rewrite (IH H).
Qed.

Lemma split_last (line : list ascii) :
  newline ∉ line -> split_chars newline line = [line].
Proof.
  induction line as [|x line IH]; intros H; [done|].
  apply not_elem_of_cons in H as [Hx H]. simpl.
  destruct (Ascii.eqb_spec x newline); [done|]. by rewrite (IH H).
Qed.

Lemma remove_package (name : string) :
  str (replace_first (chars "package:") (chars ("package:" +:+ name))) = name.
Proof.
  rewrite chars_app. destruct (chars "package:" ++ chars name) as [|c l] eqn:E; [done|].
  unfold replace_first. rewrite <- E.
  rewrite bool_decide_eq_true_2 by by apply prefix_app_r.
  rewrite drop_app_length. apply str_chars.
Qed.

(** X30. [getInstalledApps] reads back the package names from
    what [pm list packages] prints for them, one [package:name] per line,
    in order. *)
Theorem getInstalledApps_reads_the_listing (names : list string) :
  Forall (fun name => name <> "" /\ newline ∉ chars name) names ->
  getInstalledApps (listing names) = names.
Proof.
  unfold getInstalledApps.
  induction 1 as [|name names [Hne Hnl] Hnames IH]; [done|].
  assert (newline ∉ chars ("package:" +:+ name)) as Hline.
  { rewrite chars_app. apply not_elem_of_app. split; [|done].
    apply (bool_decide_unpack _). by vm_compute. }
  destruct names as [|name' names].
  - change (listing [name]) with ("package:" +:+ name).
    rewrite (split_last _ Hline). cbn [map]. rewrite remove_package.
    by rewrite filter_cons_True, filter_nil.
  - change (listing (name :: name' :: names))
      with ("package:" +:+ name +:+ str [newline] +:+ listing (name' :: names)).
    rewrite (chars_app "package:"), (chars_app name), (chars_app (str [newline])).
    rewrite app_assoc, <- chars_app.
    change (chars (str [newline])) with [newline].
    rewrite (split_line _ _ Hline). cbn [map]. rewrite remove_package.
    rewrite filter_cons_True by done. by rewrite IH.
Qed.

(** An instance: two packages. *)
Lemma getInstalledApps_reads_the_listing_witness :
  getInstalledApps (listing ["com.example.app"; "org.sample"]) =
  ["com.example.app"; "org.sample"].
Proof.
  apply (getInstalledApps_reads_the_listing ["com.example.app"; "org.sample"]).
  apply (bool_decide_unpack _). by vm_compute.
Defined.

End Further.
